(** * Supra AutoFi Agent: the strategy registry of [super-agent.ts]

    A shallow embedding of the strategy lifecycle of [SupraSuperAgent]
    ([src/src/super-agent.ts]): address validation, creation with its
    fallback to simulation, cancellation, listing, the status check and the
    two monitoring passes; and of the health evaluator of the basic agent that
    is bundled in [src/src/index.ts].

    Conventions of the embedding:
    - a JavaScript [bigint] is a [Z]; [Date.now()] and [new Date()] are the
      millisecond reading of the clock, a [Z]; floating-point fields of result
      objects are left out, the two constants 1.0 and 2.5 are rationals;
    - a JavaScript object is a cell of a heap ([list AutomationStrategy],
      addressed by allocation order) and the [Map<string, AutomationStrategy>]
      is an insertion-ordered association list from keys to heap references,
      so that [strategy.isActive = false] mutates the cell every alias sees;
    - an [EventEmitter.emit] appends to a log kept in the agent state
      (listeners are assumed not to throw);
    - what a method reads from outside the agent (the clock, the random
      source, the outcome of an awaited call) is an explicit argument; the
      outcome of an awaited call is the value it resolves to, or the message
      of the [Error] it rejects with;
    - a method runs to completion: the interleaving of two asynchronous
      methods at an [await] is not modelled. *)

From Stdlib Require Import QArith Ascii String.
From stdpp Require Import base tactics option list numbers strings pretty.

Open Scope Z_scope.

(** ** Regular expressions of the shape used by the source

    [/^0x[a-fA-F0-9]{64}$/] is a sequence of items, each consuming a fixed
    number of characters, anchored at both ends.  Without the [m] flag the
    anchors of a JavaScript regular expression match the two ends of the input
    only. *)

Module Regex.

Inductive item :=
| Lit (c : ascii)
| Class (ranges : list (ascii * ascii)) (count : nat).

Definition in_range (c : ascii) (r : ascii * ascii) : bool :=
  (nat_of_ascii r.1 <=? nat_of_ascii c)%nat && (nat_of_ascii c <=? nat_of_ascii r.2)%nat.

Definition in_class (ranges : list (ascii * ascii)) (c : ascii) : bool :=
  existsb (in_range c) ranges.

(** [eat_class ranges n s] consumes exactly [n] characters of the class. *)
Fixpoint eat_class (ranges : list (ascii * ascii)) (n : nat) (s : string) : option string :=
  match n with
  | O => Some s
  | S n' =>
      match s with
      | String c s' => if in_class ranges c then eat_class ranges n' s' else None
      | EmptyString => None
      end
  end.

Definition eat_item (i : item) (s : string) : option string :=
  match i with
  | Lit c =>
      match s with
      | String c' s' => if Ascii.eqb c c' then Some s' else None
      | EmptyString => None
      end
  | Class ranges n => eat_class ranges n s
  end.

Fixpoint eat_items (p : list item) (s : string) : option string :=
  match p with
  | [] => Some s
  | i :: p' =>
      match eat_item i s with
      | Some s' => eat_items p' s'
      | None => None
      end
  end.

(** [/^p$/.test(s)] *)
Definition test (p : list item) (s : string) : bool :=
  match eat_items p s with
  | Some EmptyString => true
  | _ => false
  end.

End Regex.

(** [[a-fA-F0-9]] *)
Definition hex_ranges : list (ascii * ascii) :=
  [("a", "f"); ("A", "F"); ("0", "9")]%char.

(** [/^0x[a-fA-F0-9]{64}$/] *)
Definition ADDRESS_RE : list Regex.item :=
  [ Regex.Lit "0"; Regex.Lit "x"; Regex.Class hex_ranges 64 ].

(** [isValidAddress(address)], super-agent.ts:495-497. *)
Definition isValidAddress (address : string) : bool :=
  Regex.test ADDRESS_RE address.

(** The format in the words of the specification: a hexadecimal character is
    a digit or a letter a-f in either case; an address is the prefix [0x]
    followed by exactly 64 of them. *)
Definition hex_char (c : ascii) : Prop :=
  (48 ≤ nat_of_ascii c ≤ 57)%nat ∨
  (97 ≤ nat_of_ascii c ≤ 102)%nat ∨
  (65 ≤ nat_of_ascii c ≤ 70)%nat.

Fixpoint all_hex (s : string) : Prop :=
  match s with
  | EmptyString => True
  | String c s' => hex_char c ∧ all_hex s'
  end.

Definition hex64_address (s : string) : Prop :=
  ∃ h, s = "0x" +:+ h ∧ String.length h = 64%nat ∧ all_hex h.

Definition zeros64 : string :=
  "0000000000000000000000000000000000000000000000000000000000000000".

(** ** Strings of the source *)

(** [s.includes(sub)] *)
Fixpoint includes (sub s : string) : bool :=
  String.prefix sub s ||
  match s with
  | EmptyString => false
  | String _ s' => includes sub s'
  end.

(** The double-quote character of the template literals. *)
Definition dquote : string := String (ascii_of_nat 34) EmptyString.

(** ** The insertion-ordered [Map] of JavaScript

    [entries] are in insertion order; [set] on a key that is present replaces
    the value in place and keeps the position, on an absent key it appends. *)

Module JsMap.

Section ops.
Context {V : Type}.

Fixpoint get (k : string) (m : list (string * V)) : option V :=
  match m with
  | [] => None
  | (k', v) :: m' => if decide (k = k') then Some v else get k m'
  end.

Fixpoint set (k : string) (v : V) (m : list (string * V)) : list (string * V) :=
  match m with
  | [] => [(k, v)]
  | (k', v') :: m' =>
      if decide (k = k') then (k', v) :: m' else (k', v') :: set k v m'
  end.

Definition keys (m : list (string * V)) : list string := m.*1.
Definition values (m : list (string * V)) : list V := m.*2.

End ops.

End JsMap.

(** ** Data model *)

(** [Date]: milliseconds since the epoch. *)
Abbreviation Date := Z (only parsing).

(** A reference to a heap-allocated [AutomationStrategy] object. *)
Abbreviation ref := nat (only parsing).

(** [interface AutomationStrategy], super-agent.ts:18-38.  [parameters.target]
    is flattened to [target]; [lastExecution] is never assigned and is left
    out. *)
Record AutomationStrategy := {
  id : string;
  type : string;
  name : string;
  description : string;
  target : string;
  taskId : option Z;
  isActive : bool;
  createdAt : Date;
  lastChecked : option Date;
  executionCount : Z;
  successRate : Q;
  totalTransferred : Z;
}.

(** [strategy.isActive = b] *)
Definition set_isActive (b : bool) (s : AutomationStrategy) : AutomationStrategy :=
  {| id := id s; type := type s; name := name s; description := description s;
     target := target s; taskId := taskId s; isActive := b;
     createdAt := createdAt s; lastChecked := lastChecked s;
     executionCount := executionCount s; successRate := successRate s;
     totalTransferred := totalTransferred s |}.

(** [strategy.lastChecked = d] *)
Definition set_lastChecked (d : Date) (s : AutomationStrategy) : AutomationStrategy :=
  {| id := id s; type := type s; name := name s; description := description s;
     target := target s; taskId := taskId s; isActive := isActive s;
     createdAt := createdAt s; lastChecked := Some d;
     executionCount := executionCount s; successRate := successRate s;
     totalTransferred := totalTransferred s |}.

(** [performanceMetrics], super-agent.ts:105-110. *)
Record PerformanceMetrics := {
  totalConversations : Z;
  totalStrategiesCreated : Z;
  totalExecutions : Z;
  startTime : Date;
}.

(** The notifications of the strategy lifecycle, with their payloads.  A
    payload that holds a strategy holds the reference, as in the source. *)
Inductive Event :=
| strategyCreated (strategy : ref)
| strategyCreationFailed (error strategyName targetAddress : string)
| lowBalanceAlert (strategy : ref) (balance : Z)
| strategyError (strategyId error : string).

(** The fields of [SupraSuperAgent] the lifecycle touches, and the heap its
    strategy objects live in. *)
Record Agent := {
  heap : list AutomationStrategy;
  strategies : list (string * ref);
  performanceMetrics : PerformanceMetrics;
  emitted : list Event;
}.

(** A freshly constructed agent ([startTime] is the clock at construction). *)
Definition initial (startTime : Date) : Agent :=
  {| heap := []; strategies := [];
     performanceMetrics :=
       {| totalConversations := 0; totalStrategiesCreated := 0;
          totalExecutions := 0; startTime := startTime |};
     emitted := [] |}.

(** [this.emit(event)] *)
Definition emit (e : Event) (a : Agent) : Agent :=
  {| heap := heap a; strategies := strategies a;
     performanceMetrics := performanceMetrics a;
     emitted := emitted a ++ [e] |}.

(** Allocation of an object literal: the new cell and its reference. *)
Definition alloc (s : AutomationStrategy) (a : Agent) : ref * Agent :=
  (length (heap a),
   {| heap := heap a ++ [s]; strategies := strategies a;
      performanceMetrics := performanceMetrics a; emitted := emitted a |}).

(** A field assignment through a reference. *)
Definition mutate (f : AutomationStrategy → AutomationStrategy) (r : ref) (a : Agent) : Agent :=
  {| heap := alter f r (heap a); strategies := strategies a;
     performanceMetrics := performanceMetrics a; emitted := emitted a |}.

(** [this.strategies.set(key, strategy)] *)
Definition strategies_set (key : string) (r : ref) (a : Agent) : Agent :=
  {| heap := heap a; strategies := JsMap.set key r (strategies a);
     performanceMetrics := performanceMetrics a; emitted := emitted a |}.

(** [this.strategies.get(key)], dereferenced: the reference and the object it
    points to.  Every reference the map holds was returned by [alloc], so the
    dereference succeeds on every state the agent reaches (see [wf]). *)
Definition strategies_get (key : string) (a : Agent) : option (ref * AutomationStrategy) :=
  r ← JsMap.get key (strategies a); s ← heap a !! r; Some (r, s).

(** [this.performanceMetrics.totalStrategiesCreated++] *)
Definition count_created (a : Agent) : Agent :=
  let m := performanceMetrics a in
  {| heap := heap a; strategies := strategies a;
     performanceMetrics :=
       {| totalConversations := totalConversations m;
          totalStrategiesCreated := totalStrategiesCreated m + 1;
          totalExecutions := totalExecutions m; startTime := startTime m |};
     emitted := emitted a |}.

(** The outcome of an awaited call: the value it resolves to, or the
    [message] of the [Error] it rejects with. *)
Inductive outcome (A : Type) :=
| Resolved (value : A)
| Rejected (message : string).
Arguments Resolved {A} value.
Arguments Rejected {A} message.

(** ** Results returned to the caller *)

Inductive Mode := REAL_DEPLOYMENT | SIMULATION.

(** The result objects of [createAutoTopupStrategy] and [cancelStrategy]; a
    field the source leaves out of an object literal is [None].  The constant
    [estimatedMonthlyCost] (2.5) is a rational. *)
Record Result := {
  success : bool;
  message : string;
  res_strategyId : option string;
  res_txHash : option string;
  res_taskId : option Z;
  res_strategy : option ref;
  res_estimatedMonthlyCost : option Q;
  res_mode : option Mode;
  res_note : option string;
  res_troubleshooting : list string;
  res_error : option string;
  res_suggestions : list string;
}.

(** A result object with only [success] and [message] set. *)
Definition plain_result (ok : bool) (msg : string) : Result :=
  {| success := ok; message := msg; res_strategyId := None; res_txHash := None;
     res_taskId := None; res_strategy := None; res_estimatedMonthlyCost := None;
     res_mode := None; res_note := None; res_troubleshooting := [];
     res_error := None; res_suggestions := [] |}.

(** ** Creation, super-agent.ts:280-373 *)

Record CreateParams := {
  strategyName : string;
  targetAddress : string;
}.

(** What [deployRealAutomation] resolves to: the hash of the submitted
    transaction and the task identifier the source parses from its last
    eight hexadecimal digits. *)
Record Deployed := {
  txHash : string;
  deployed_taskId : Z;
}.

(** What one call of [createAutoTopupStrategy] reads from outside the agent:
    the clock, the outcome of the balance query of the pre-deployment check,
    the outcome of the deployment (a conversation with the chain through the
    SDK), and the random source.  [Math.random()] is read through
    the integer that the source scales and floors it to, and through the
    hexadecimal digits it prints. *)
Record CreateWorld := {
  Date_now : Z;
  targetBalance : outcome Z;
  deployRealAutomation : outcome Deployed;
  new_Date : Date;
  random_int : Z;
  random_hex : string;
}.

(** [performPreDeploymentChecks(targetAddress)], super-agent.ts:498-507: the
    balance of the target is queried and a rejection is only logged. *)
Definition performPreDeploymentChecks (targetBalance : outcome Z) : unit :=
  match targetBalance with
  | Resolved _ => tt
  | Rejected _ => tt
  end.

(** [`topup_${Date.now()}`] *)
Definition make_strategyId (now : Z) : string := "topup_" +:+ pretty now.

(** [generateErrorSuggestions(error)], super-agent.ts:563-577. *)
Definition generateErrorSuggestions (error : string) : list string :=
  (if includes "balance" error
   then ["Fund your account with more SUPRA";
         "💡 Check if you have enough for both fees and buffer amount"]
   else []) ++
  (if includes "network" error || includes "connection" error
   then ["🌐 Check your internet connection"; "🔄 Try again in a few moments"]
   else []) ++
  (if includes "address" error
   then ["📍 Verify the wallet address is correct";
         "✅ Ensure address starts with 0x and has 64 hex characters"]
   else []).

(** [generateTroubleshootingTips(error)], super-agent.ts:578-586. *)
Definition generateTroubleshootingTips (error : string) : list string :=
  [ "🔍 Check your .env file configuration";
    "💰 Ensure sufficient SUPRA balance (minimum 1000 SUPRA recommended)";
    "🌐 Verify network connectivity to Supra RPC";
    "🔄 Try again - network issues are often temporary";
    "📞 Contact support if issues persist" ].

(** [estimateMonthlyCost()], super-agent.ts:513-515. *)
Definition estimateMonthlyCost : Q := (5 # 2)%Q.

(** The object literal of the deployed branch, super-agent.ts:297-311. *)
Definition deployed_strategy (strategyId : string) (params : CreateParams)
    (realResult : Deployed) (now : Date) : AutomationStrategy :=
  {| id := strategyId;
     type := "auto_topup";
     name := strategyName params;
     description :=
       "Smart auto top-up for " +:+ targetAddress params +:+
       " - maintains 600+ SUPRA balance";
     target := targetAddress params;
     taskId := Some (deployed_taskId realResult);
     isActive := true;
     createdAt := now;
     lastChecked := None;
     executionCount := 0;
     successRate := 1%Q;
     totalTransferred := 0 |}.

(** The object literal of the fallback branch, super-agent.ts:332-346. *)
Definition simulated_strategy (strategyId : string) (params : CreateParams)
    (random : Z) (now : Date) : AutomationStrategy :=
  {| id := strategyId;
     type := "auto_topup";
     name := strategyName params;
     description := "Simulated auto top-up for " +:+ targetAddress params;
     target := targetAddress params;
     taskId := Some (random `mod` 10000);
     isActive := true;
     createdAt := now;
     lastChecked := None;
     executionCount := 0;
     successRate := 1%Q;
     totalTransferred := 0 |}.

(** [createAutoTopupStrategy(params)].  The only [throw] that reaches the
    outer [catch] is the one of the address check: [performPreDeploymentChecks]
    swallows its own failure, and a rejected deployment is caught by the inner
    [catch]. *)
Definition createAutoTopupStrategy (params : CreateParams) (w : CreateWorld)
    (a : Agent) : Agent * Result :=
  let strategyId := make_strategyId (Date_now w) in
  if negb (isValidAddress (targetAddress params)) then
    let error :=
      "Invalid address format: " +:+ targetAddress params +:+
      ". Must be 0x followed by 64 hex characters." in
    (emit (strategyCreationFailed error (strategyName params) (targetAddress params)) a,
     {| success := false;
        message := "❌ Failed to create strategy: " +:+ error;
        res_strategyId := None; res_txHash := None; res_taskId := None;
        res_strategy := None; res_estimatedMonthlyCost := None;
        res_mode := None; res_note := None; res_troubleshooting := [];
        res_error := Some error;
        res_suggestions := generateErrorSuggestions error |})
  else
    let 'tt := performPreDeploymentChecks (targetBalance w) in
    match deployRealAutomation w with
    | Resolved realResult =>
        let strategy := deployed_strategy strategyId params realResult (new_Date w) in
        let '(r, a) := alloc strategy a in
        let a := strategies_set strategyId r a in
        let a := count_created a in
        let a := emit (strategyCreated r) a in
        (a,
         {| success := true;
            message :=
              "✅ Strategy " +:+ dquote +:+ strategyName params +:+ dquote +:+
              " deployed successfully!";
            res_strategyId := Some strategyId;
            res_txHash := Some (txHash realResult);
            res_taskId := Some (deployed_taskId realResult);
            res_strategy := Some r;
            res_estimatedMonthlyCost := Some estimateMonthlyCost;
            res_mode := Some REAL_DEPLOYMENT;
            res_note := None; res_troubleshooting := [];
            res_error := None; res_suggestions := [] |})
    | Rejected deployError =>
        let strategy := simulated_strategy strategyId params (random_int w) (new_Date w) in
        let '(r, a) := alloc strategy a in
        let a := strategies_set strategyId r a in
        (a,
         {| success := true;
            message := "🔄 Strategy created in simulation mode";
            res_strategyId := Some strategyId;
            res_txHash := Some ("0x" +:+ random_hex w);
            res_taskId := taskId strategy;
            res_strategy := Some r;
            res_estimatedMonthlyCost := None;
            res_mode := Some SIMULATION;
            res_note := Some ("Real deployment failed: " +:+ deployError);
            res_troubleshooting := generateTroubleshootingTips deployError;
            res_error := None; res_suggestions := [] |})
    end.

(** ** Cancellation, super-agent.ts:602-624 *)

Definition cancelStrategy (strategyId : string) (a : Agent) : Agent * Result :=
  match strategies_get strategyId a with
  | None => (a, plain_result false "Strategy not found")
  | Some (r, strategy) =>
      let a := mutate (set_isActive false) r a in
      let a := strategies_set strategyId r a in
      (a,
       {| success := true;
          message := "✅ Successfully cancelled: " +:+ name strategy;
          res_strategyId := Some strategyId;
          res_txHash := None; res_taskId := None; res_strategy := None;
          res_estimatedMonthlyCost := None; res_mode := None; res_note := None;
          res_troubleshooting := []; res_error := None; res_suggestions := [] |})
  end.

(** ** Listing, super-agent.ts:626-645 *)

(** The objects the map holds, in insertion order:
    [Array.from(this.strategies.values())]. *)
Definition strategy_values (a : Agent) : list AutomationStrategy :=
  omap (λ r, heap a !! r) (JsMap.values (strategies a)).

Record ListedStrategy := {
  listed_id : string;
  listed_name : string;
  listed_type : string;
  listed_description : string;
  listed_createdAt : Date;
  listed_target : string;
  listed_executionCount : Z;
  listed_successRate : Q;
}.

Definition listActiveStrategies (a : Agent) : list ListedStrategy * nat :=
  let activeStrategies :=
    (λ s, {| listed_id := id s; listed_name := name s; listed_type := type s;
             listed_description := description s; listed_createdAt := createdAt s;
             listed_target := target s; listed_executionCount := executionCount s;
             listed_successRate := successRate s |})
    <$> filter (λ s, isActive s = true) (strategy_values a) in
  (activeStrategies, length activeStrategies).

(** ** Health evaluation *)

(** [calculateHealthStatus(strategy, balance)], super-agent.ts:694-704.  The
    floating-point [balanceRatio] is left out. *)
Record HealthStatus := {
  status : string;
  willTrigger : bool;
  recommendation : string;
}.

Definition calculateHealthStatus (strategy : AutomationStrategy) (balance : Z) : HealthStatus :=
  let threshold := 600000000 in
  {| status := if threshold <=? balance then "healthy" else "needs_topup";
     willTrigger := balance <? threshold;
     recommendation :=
       if balance <? threshold
       then "Top-up will trigger automatically"
       else "Balance is healthy" |}.

(** The evaluator of the basic agent bundled in index.ts (lines 724-754).  The
    floating-point [metrics] are left out. *)
Module BasicAgent.

Record Analysis := {
  status : string;
  urgency : string;
  recommendation : string;
  willTrigger : bool;
}.

Definition analyzeStrategy (strategy : AutomationStrategy) (currentBalance : Z) : Analysis :=
  let threshold := 600000000 in
  let willTrigger := currentBalance <? threshold in
  if currentBalance <? threshold then
    {| status := "below_threshold"; urgency := "high";
       recommendation := "Balance is below 600 SUPRA! Top-up will trigger with 50 SUPRA.";
       willTrigger := willTrigger |}
  else if currentBalance <? threshold * 2 then
    {| status := "approaching_threshold"; urgency := "medium";
       recommendation := "Balance getting close to 600 SUPRA threshold.";
       willTrigger := willTrigger |}
  else
    {| status := "healthy"; urgency := "low";
       recommendation := "Balance is well above threshold. Strategy working well.";
       willTrigger := willTrigger |}.

End BasicAgent.

(** ** Balance queries *)

(** The body of [getAccountBalance(address)], super-agent.ts:484-494: the
    balance the SDK resolves to, or, when the SDK rejects, a synthetic amount
    [Math.floor(Math.random() * 100000000)]. *)
Definition getAccountBalance (sdk : outcome Z) (random : Z) : Z :=
  match sdk with
  | Resolved balance => balance
  | Rejected _ => random `mod` 100000000
  end.

(** What a pass over the strategies reads from outside the agent, per map
    entry (the key identifies the iteration): the outcome of
    [await this.getAccountBalance(strategy.parameters.target)] as the loop
    sees it at that call site, and the [new Date()] of that iteration.  The
    method is late bound; [shipped_monitor] below is the world in which the
    call site runs the body above. *)
Record MonitorWorld := {
  awaitBalance : string → string → outcome Z;
  iteration_Date : string → Date;
}.

(** ** Status check, super-agent.ts:647-692 *)

(** [{...strategy, currentBalance, lastChecked: new Date(), healthStatus}]: a
    copy, the stored object is not written. *)
Record StrategyStatus := {
  checked : AutomationStrategy;
  currentBalance : string;
  healthStatus : HealthStatus;
}.

Definition status_of (w : MonitorWorld) (key : string) (strategy : AutomationStrategy)
    (balance : Z) : StrategyStatus :=
  {| checked := set_lastChecked (iteration_Date w key) strategy;
     currentBalance := pretty balance;
     healthStatus := calculateHealthStatus strategy balance |}.

(** [generateStatusSummary(strategies)], super-agent.ts:706-715. *)
Record StatusSummary := {
  totalStrategies : nat;
  healthyStrategies : nat;
  strategiesNeedingTopup : nat;
  overallHealth : string;
}.

Definition generateStatusSummary (l : list StrategyStatus) : StatusSummary :=
  let healthy := length (filter (λ s, status (healthStatus s) = "healthy") l) in
  let needsTopup := length (filter (λ s, status (healthStatus s) = "needs_topup") l) in
  {| totalStrategies := length l;
     healthyStrategies := healthy;
     strategiesNeedingTopup := needsTopup;
     overallHealth :=
       if (needsTopup =? 0)%nat then "excellent"
       else if (2 * needsTopup <? length l)%nat then "good"
       else "attention_needed" |}.

Inductive StatusResult :=
| StatusOne (strategy : StrategyStatus)
| StatusAll (strategies : list StrategyStatus) (summary : StatusSummary)
| StatusNotFound
| StatusFailed (error : string).

(** The loop of the branch without an id: a rejected balance query leaves
    the loop for the [catch] of the function. *)
Fixpoint check_all (w : MonitorWorld) (h : list AutomationStrategy)
    (entries : list (string * ref)) : outcome (list StrategyStatus) :=
  match entries with
  | [] => Resolved []
  | (key, r) :: entries' =>
      match h !! r with
      | Some strategy =>
          if isActive strategy then
            match awaitBalance w key (target strategy) with
            | Resolved balance =>
                match check_all w h entries' with
                | Resolved rest => Resolved (status_of w key strategy balance :: rest)
                | Rejected error => Rejected error
                end
            | Rejected error => Rejected error
            end
          else check_all w h entries'
      | None => check_all w h entries'
      end
  end.

(** [checkStrategyStatus(strategyId?)]: an absent or empty id is falsy. *)
Definition checkStrategyStatus (strategyId : option string) (w : MonitorWorld)
    (a : Agent) : StatusResult :=
  match strategyId with
  | Some (String c sid as key) =>
      match strategies_get key a with
      | None => StatusNotFound
      | Some (_, strategy) =>
          match awaitBalance w key (target strategy) with
          | Resolved balance => StatusOne (status_of w key strategy balance)
          | Rejected error => StatusFailed error
          end
      end
  | _ =>
      match check_all w (heap a) (strategies a) with
      | Resolved statusChecks => StatusAll statusChecks (generateStatusSummary statusChecks)
      | Rejected error => StatusFailed error
      end
  end.

(** ** Monitoring *)

(** One iteration of [updateStrategyPerformance], super-agent.ts:594-601. *)
Definition touch_entry (w : MonitorWorld) (a : Agent) (entry : string * ref) : Agent :=
  let '(key, r) := entry in
  match heap a !! r with
  | Some strategy =>
      if isActive strategy then
        let a := mutate (set_lastChecked (iteration_Date w key)) r a in
        strategies_set key r a
      else a
  | None => a
  end.

Definition updateStrategyPerformance (w : MonitorWorld) (a : Agent) : Agent :=
  foldl (touch_entry w) a (strategies a).

(** One iteration of [runPeriodicCheck], super-agent.ts:719-734. *)
Definition check_entry (w : MonitorWorld) (a : Agent) (entry : string * ref) : Agent :=
  let '(key, r) := entry in
  match heap a !! r with
  | Some strategy =>
      if negb (isActive strategy) then a
      else
        match awaitBalance w key (target strategy) with
        | Resolved balance =>
            let threshold := 600000000 in
            let a :=
              if balance <? threshold * 2
              then emit (lowBalanceAlert r balance) a
              else a in
            let a := mutate (set_lastChecked (iteration_Date w key)) r a in
            strategies_set key r a
        | Rejected error => emit (strategyError key error) a
        end
  | None => a
  end.

(** [runPeriodicCheck()], super-agent.ts:717-735. *)
Definition runPeriodicCheck (w : MonitorWorld) (a : Agent) : Agent :=
  foldl (check_entry w) a (strategies a).

(** ** The agent as a transition system *)

Inductive Op :=
| Create (params : CreateParams) (w : CreateWorld)
| Cancel (strategyId : string)
| ListActive
| CheckStatus (strategyId : option string) (w : MonitorWorld)
| PeriodicCheck (w : MonitorWorld)
| PerformanceUpdate (w : MonitorWorld).

(** Listing and the status check return a result and write nothing (the
    status check builds copies of the records it reports). *)
Definition step (a : Agent) (op : Op) : Agent :=
  match op with
  | Create params w => (createAutoTopupStrategy params w a).1
  | Cancel strategyId => (cancelStrategy strategyId a).1
  | ListActive => a
  | CheckStatus _ _ => a
  | PeriodicCheck w => runPeriodicCheck w a
  | PerformanceUpdate w => updateStrategyPerformance w a
  end.

Definition run (a : Agent) (ops : list Op) : Agent := foldl step a ops.

(** States the agent reaches from its construction. *)
Definition reachable (a : Agent) : Prop :=
  ∃ startTime ops, a = run (initial startTime) ops.

(** The shape every reachable state has: the keys of the map are distinct, no
    two keys share an object, and every reference points into the heap. *)
Record wf (a : Agent) : Prop := {
  wf_keys : NoDup (JsMap.keys (strategies a));
  wf_refs : NoDup (JsMap.values (strategies a));
  wf_bound : ∀ r, r ∈ JsMap.values (strategies a) → (r < length (heap a))%nat;
}.

(** What the two branches of creation may differ in, erased. *)
Definition erase_provenance (s : AutomationStrategy) : AutomationStrategy :=
  {| id := id s; type := type s; name := name s; description := "";
     target := target s; taskId := None; isActive := isActive s;
     createdAt := createdAt s; lastChecked := lastChecked s;
     executionCount := executionCount s; successRate := successRate s;
     totalTransferred := totalTransferred s |}.

(** The task identifier alone erased. *)
Definition erase_taskId (s : AutomationStrategy) : AutomationStrategy :=
  {| id := id s; type := type s; name := name s; description := description s;
     target := target s; taskId := None; isActive := isActive s;
     createdAt := createdAt s; lastChecked := lastChecked s;
     executionCount := executionCount s; successRate := successRate s;
     totalTransferred := totalTransferred s |}.

(** ** Sample inputs *)

Definition ones64 : string :=
  "1111111111111111111111111111111111111111111111111111111111111111".

Definition sample_address : string := "0x" +:+ ones64.

Definition sample_params : CreateParams :=
  {| strategyName := "Trading Wallet"; targetAddress := sample_address |}.

(** A world in which the deployment goes through. *)
Definition sample_deployed : CreateWorld :=
  {| Date_now := 1700000000000;
     targetBalance := Resolved 900000000;
     deployRealAutomation := Resolved {| txHash := "0x5e1f00d4660"; deployed_taskId := 4660 |};
     new_Date := 1700000000002;
     random_int := 4242;
     random_hex := "8f3a1c" |}.

(** The same world with the deployment forced to fail. *)
Definition sample_rejected : CreateWorld :=
  {| Date_now := 1700000000000;
     targetBalance := Resolved 900000000;
     deployRealAutomation := Rejected "Insufficient balance";
     new_Date := 1700000000002;
     random_int := 4242;
     random_hex := "8f3a1c" |}.

(** A stored strategy for the evaluators. *)
Definition sample_strategy : AutomationStrategy :=
  simulated_strategy (make_strategyId 1700000000000) sample_params 4242 1700000000002.

(** A monitoring world in which the balance query of the second strategy
    throws, the first balance is low and the others are comfortable. *)
Definition sample_monitor : MonitorWorld :=
  {| awaitBalance := λ key _,
       if decide (key = "topup_1700000000001") then Rejected "fetch failed"
       else if decide (key = "topup_1700000000000") then Resolved 900000000
       else Resolved 1300000000;
     iteration_Date := λ _, 1700000600000 |}.

Definition sample_world (now : Z) : CreateWorld :=
  {| Date_now := now;
     targetBalance := Rejected "Account not found";
     deployRealAutomation := Rejected "Insufficient balance";
     new_Date := now + 2;
     random_int := 4242;
     random_hex := "8f3a1c" |}.

(** Three active strategies and a cancelled fourth. *)
Definition sample_agent : Agent :=
  run (initial 0)
    [ Create sample_params (sample_world 1700000000000);
      Create sample_params (sample_world 1700000000001);
      Create sample_params (sample_world 1700000000002);
      Create sample_params (sample_world 1700000000003);
      Cancel "topup_1700000000003" ].

(** [event.type === 'strategyError'] *)
Definition is_strategyError (e : Event) : bool :=
  match e with
  | strategyError _ _ => true
  | _ => false
  end.

(** What one iteration of [runPeriodicCheck] does to the cell it visits. *)
Definition visited (w : MonitorWorld) (key : string) (s : AutomationStrategy) : AutomationStrategy :=
  if isActive s then
    match awaitBalance w key (target s) with
    | Resolved _ => set_lastChecked (iteration_Date w key) s
    | Rejected _ => s
    end
  else s.

(** What one iteration of [runPeriodicCheck] emits. *)
Definition announced (w : MonitorWorld) (h : list AutomationStrategy)
    (entry : string * ref) : list Event :=
  match h !! entry.2 with
  | Some s =>
      if isActive s then
        match awaitBalance w entry.1 (target s) with
        | Resolved balance =>
            if balance <? 1200000000 then [lowBalanceAlert entry.2 balance] else []
        | Rejected error => [strategyError entry.1 error]
        end
      else []
  | None => []
  end.

(** [stays_cancelled h h']: every cell of [h] is still a cell of [h'], and one
    that was inactive is inactive. *)
Definition stays_cancelled (h h' : list AutomationStrategy) : Prop :=
  ∀ r s, h !! r = Some s →
    ∃ s', h' !! r = Some s' ∧ (isActive s = false → isActive s' = false).

(** The clock readings of the create calls of a run that pass the address
    check, in order. *)
Fixpoint create_readings (ops : list Op) : list Z :=
  match ops with
  | [] => []
  | Create params w :: ops' =>
      if isValidAddress (targetAddress params)
      then Date_now w :: create_readings ops'
      else create_readings ops'
  | _ :: ops' => create_readings ops'
  end.

(** The monitoring world of the shipped agent: the call site of the loops runs
    the body of [getAccountBalance] over the outcome of the SDK query. *)
Definition shipped_monitor (sdk : string → string → outcome Z) (random : string → Z)
    (date : string → Date) : MonitorWorld :=
  {| awaitBalance := λ key address,
       Resolved (getAccountBalance (sdk key address) (random key));
     iteration_Date := date |}.

(** ** Relations between states of the store *)


(** The fields of a record that no method assigns after the object literal
    that builds it: all but [isActive] and [lastChecked]. *)
Definition same_constants (s s' : AutomationStrategy) : Prop :=
  id s' = id s ∧ type s' = type s ∧ name s' = name s ∧
  description s' = description s ∧ target s' = target s ∧
  taskId s' = taskId s ∧ createdAt s' = createdAt s ∧
  executionCount s' = executionCount s ∧ successRate s' = successRate s ∧
  totalTransferred s' = totalTransferred s.

(** [cells_related R h h']: every cell of [h] is a cell of [h'], related to
    what it was by [R]. *)
Definition cells_related (R : AutomationStrategy → AutomationStrategy → Prop)
    (h h' : list AutomationStrategy) : Prop :=
  ∀ r s, h !! r = Some s → ∃ s', h' !! r = Some s' ∧ R s s'.

(** What every record of a reachable store looks like: the id is a clock
    reading behind [topup_], the target passed the address check, and the
    statistics are the ones of the object literal. *)
Record as_created (s : AutomationStrategy) : Prop := {
  created_id : ∃ now, id s = make_strategyId now;
  created_type : type s = "auto_topup";
  created_target : isValidAddress (target s) = true;
  created_executionCount : executionCount s = 0;
  created_successRate : successRate s = 1%Q;
  created_totalTransferred : totalTransferred s = 0;
}.

(** A world for the monitor in which every balance is comfortable. *)
Definition quiet (w : MonitorWorld) : MonitorWorld :=
  {| awaitBalance := λ _ _, Resolved 1200000000;
     iteration_Date := iteration_Date w |}.

(** Every key is the id of the record it is bound to. *)
Definition keys_are_ids (a : Agent) : Prop :=
  ∀ key r, (key, r) ∈ strategies a → ∃ s, heap a !! r = Some s ∧ id s = key.

(** ** Construction of the agent, super-agent.ts:747-807 *)

(** [/^[a-fA-F0-9]{64}$/] *)
Definition PRIVATE_KEY_RE : list Regex.item := [ Regex.Class hex_ranges 64 ].

(** [s.slice(n)] for [0 <= n] *)
Fixpoint slice_from (n : nat) (s : string) : string :=
  match n, s with
  | O, _ => s
  | S n', String _ s' => slice_from n' s'
  | S _, EmptyString => EmptyString
  end.

(** The check of [SUPRA_PRIVATE_KEY] that opens [createSuperAgent]
    (lines 750-757), with the wrapping of its errors by the [catch] of the
    function (lines 803-806): the cleaned key when the check passes.  An
    unset variable and an empty one are both falsy. *)
Definition createSuperAgent_privateKey (SUPRA_PRIVATE_KEY : option string) : outcome string :=
  match SUPRA_PRIVATE_KEY with
  | Some (String _ _ as privateKeyHex) =>
      let cleanHex :=
        if String.prefix "0x" privateKeyHex
        then slice_from 2 privateKeyHex else privateKeyHex in
      if negb (Regex.test PRIVATE_KEY_RE cleanHex)
      then Rejected
             ("Initialization failed: " +:+
              "Invalid private key format. Must be 64 hex characters.")
      else Resolved cleanHex
  | _ =>
      Rejected
        ("Initialization failed: " +:+
         "SUPRA_PRIVATE_KEY environment variable is required")
  end.

(** ** Deployment through the SDK, super-agent.ts:375-484

    [deployRealAutomation] talks to the chain through the SDK.  Each SDK call
    is read through its outcome, in the order the source makes the calls.
    [confirmTransactionSubmission] (449-465) waits, logs and catches the only
    rejection it can meet, so it contributes nothing to the outcome.

    Strings are sequences of code units below 256. *)

Module Deployment.

#[global] Instance outcome_bind : MBind outcome :=
  λ A B f x, match x with Resolved v => f v | Rejected m => Rejected m end.

(** What [sendTxUsingSerializedRawTransaction] resolves to, as far as
    [extractTransactionHash] looks at it: an object with the three fields it
    reads (a field that is absent, [undefined] or [null] is [None]; a field
    that is present holds a string), a bare string, or [null]/[undefined]. *)
Inductive TxResult :=
| TxObject (hash txHash transaction_hash : option string)
| TxString (s : string)
| TxNullish.

Record Sdk := {
  (** [BigInt((await getAccountInfo(senderAddr)).sequence_number)] *)
  getAccountInfo : outcome Z;
  (** [new HexString(params.targetAddress).toUint8Array()] *)
  toUint8Array : outcome unit;
  (** [await invokeViewMethod(...)] followed by [BigInt(feeEstimate[0])]:
      [Some e] when [feeEstimate && feeEstimate[0]] is truthy and converts to
      [e]; a conversion that throws is caught by the handler that catches a
      rejected call, so it is a rejection here. *)
  invokeViewMethod : outcome (option Z);
  (** [await getAccountCoinBalance(senderAddr, '0x1::supra_coin::SupraCoin')] *)
  getAccountCoinBalance : outcome Z;
  (** [createSerializedAutomationRegistrationTxPayloadRawTxObject(...)] *)
  createSerializedTx : outcome unit;
  (** [await sendTxUsingSerializedRawTransaction(...)] *)
  sendTx : outcome TxResult;
  (** [JSON.stringify(result)], as the template literal prints it *)
  JSON_stringify : TxResult → string;
  (** [Number(x) / 1000000], as the template literal prints it *)
  in_SUPRA : Z → string;
}.

(** The truthiness test [if (result?.field)] on a string field. *)
Definition truthy (field : option string) : option string :=
  match field with
  | Some (String _ _ as s) => Some s
  | _ => None
  end.

(** [extractTransactionHash(result)], super-agent.ts:466-473. *)
Definition extractTransactionHash (sdk : Sdk) (result : TxResult) : outcome string :=
  let no_hash :=
    Rejected ("No valid transaction hash found in result: " +:+ JSON_stringify sdk result) in
  match result with
  | TxObject hash txHash transaction_hash =>
      match truthy hash with
      | Some h => Resolved h
      | None =>
          match truthy txHash with
          | Some h => Resolved h
          | None =>
              match truthy transaction_hash with
              | Some h => Resolved h
              | None => no_hash
              end
          end
      end
  | TxString s => if String.prefix "0x" s then Resolved s else no_hash
  | TxNullish => no_hash
  end.

(** The fee cap of lines 393-409: three times the estimate, or the default. *)
Definition automationFeeCap (sdk : Sdk) : Z :=
  match invokeViewMethod sdk with
  | Resolved (Some feeEstimate) => feeEstimate * 3
  | _ => 50000000000
  end.

(** [validateAccountBalance(senderAddr, requiredFee)], super-agent.ts:474-484. *)
Definition validateAccountBalance (sdk : Sdk) (requiredFee : Z) : outcome unit :=
  balance ← getAccountCoinBalance sdk;
  let bufferAmount := 100000000 in
  if balance <? requiredFee + bufferAmount
  then Rejected ("Insufficient balance. Required: " +:+
                 in_SUPRA sdk (requiredFee + bufferAmount) +:+
                 " SUPRA, Available: " +:+ in_SUPRA sdk balance +:+ " SUPRA")
  else Resolved ().

(** *** [parseInt(string, 16)] *)

(** White space and line terminators among the code units below 256. *)
Definition is_StrWhiteSpaceChar (c : ascii) : bool :=
  bool_decide (nat_of_ascii c ∈ [9; 10; 11; 12; 13; 32; 160]%nat).

Fixpoint trimStart (s : string) : string :=
  match s with
  | String c s' => if is_StrWhiteSpaceChar c then trimStart s' else s
  | EmptyString => EmptyString
  end.

Definition digit16 (c : ascii) : option Z :=
  let n := Z.of_nat (nat_of_ascii c) in
  if (48 <=? n) && (n <=? 57) then Some (n - 48)
  else if (97 <=? n) && (n <=? 102) then Some (n - 87)
  else if (65 <=? n) && (n <=? 70) then Some (n - 55)
  else None.

(** The value of the longest prefix of radix-16 digits, [None] when it is
    empty; [acc] is the value of the digits read so far. *)
Fixpoint digits16 (acc : option Z) (s : string) : option Z :=
  match s with
  | String c s' =>
      match digit16 c with
      | Some d => digits16 (Some (16 * default 0 acc + d)) s'
      | None => acc
      end
  | EmptyString => acc
  end.

(** [parseInt(s, 16)]; [None] is [NaN].  The result is exact as long as the
    digits stay below 2^53, which the eight code units the source passes
    guarantee; [-0] is [0]. *)
Definition parseInt16 (s : string) : option Z :=
  let s1 := trimStart s in
  let sign := if String.prefix "-" s1 then -1 else 1 in
  let s2 :=
    if String.prefix "+" s1 || String.prefix "-" s1 then slice_from 1 s1 else s1 in
  let s3 :=
    if String.prefix "0x" s2 || String.prefix "0X" s2 then slice_from 2 s2 else s2 in
  Z.mul sign <$> digits16 None s3.

(** [s.slice(-n)] *)
Definition slice_last (n : nat) (s : string) : string :=
  slice_from (String.length s - n) s.

(** [deployRealAutomation(params)], super-agent.ts:375-448: the transaction
    hash and the task identifier. *)
Definition deployRealAutomation (sdk : Sdk) : outcome (string * option Z) :=
  sequenceNumber ← getAccountInfo sdk;
  functionArgs ← toUint8Array sdk;
  let automationFeeCap := automationFeeCap sdk in
  _ ← validateAccountBalance sdk automationFeeCap;
  serializedAutomationTx ← createSerializedTx sdk;
  result ← sendTx sdk;
  txHash ← extractTransactionHash sdk result;
  match txHash with
  | EmptyString => Rejected "No transaction hash returned"
  | _ => Resolved (txHash, parseInt16 (slice_last 8 txHash))
  end.


Definition sample_sdk : Sdk :=
  {| getAccountInfo := Resolved 7;
     toUint8Array := Resolved ();
     invokeViewMethod := Resolved (Some 1000000);
     getAccountCoinBalance := Resolved 500000000;
     createSerializedTx := Resolved ();
     sendTx := Resolved (TxObject None (Some sample_address) None);
     JSON_stringify := λ _, "{}";
     in_SUPRA := λ x, pretty (x `div` 1000000) |}.

(** The same conversation on an account that holds less than fee and buffer. *)
Definition poor_sdk : Sdk :=
  {| getAccountInfo := Resolved 7;
     toUint8Array := Resolved ();
     invokeViewMethod := Rejected "view failed";
     getAccountCoinBalance := Resolved 500000000;
     createSerializedTx := Resolved ();
     sendTx := Resolved (TxObject None (Some sample_address) None);
     JSON_stringify := λ _, "{}";
     in_SUPRA := λ x, pretty (x `div` 1000000) |}.

End Deployment.


(** ** Serialisation of a task identifier, index.ts:773-778 *)

(** The [n] low bytes of [x], least significant first: what
    [DataView.prototype.setBigUint64(0, x, true)] stores for [n = 8]. *)
Fixpoint le_bytes (n : nat) (x : Z) : list Z :=
  match n with
  | O => []
  | S n' => x `mod` 256 :: le_bytes n' (x `div` 256)
  end.

(** [serializeU64(value)]: [setBigUint64] first reduces the BigInt modulo
    2^64. *)
Definition serializeU64 (value : Z) : list Z :=
  le_bytes 8 (value `mod` 2 ^ 64).

(** Reading a little-endian byte sequence back. *)
Definition le_value (bytes : list Z) : Z :=
  foldr (λ b acc, b + 256 * acc) 0 bytes.

(** ** Analytics, super-agent.ts:508-546

    A success rate is the rational a double denotes, so comparisons are
    exact.  The sum and the quotient of [calculateAverageSuccessRate] and the
    quotient of [totalValueTransferred] are the exact ones; the source rounds
    them to doubles, which changes nothing as long as the rates are 1 and
    the amounts 0.  The literal fields [uptime], [potentialSavings],
    [feeEfficiency] and [recommendations] are left out. *)

Module Analytics.

(** The doubles that the literals [0.95] and [0.8] denote. *)
Definition double_0_95 : Q := (8556839292003942 # 9007199254740992)%Q.
Definition double_0_8 : Q := (7205759403792794 # 9007199254740992)%Q.

Record Overview := {
  totalStrategies : nat;
  activeStrategies : nat;
  totalExecutions : Z;
  averageSuccessRate : Q;
  totalValueTransferred : Q;
}.

Record Performance := {
  healthyStrategies : nat;
  warningStrategies : nat;
  criticalStrategies : nat;
}.

Record Report := {
  overview : Overview;
  performance : Performance;
  estimatedMonthlyCost : Q;
  timeframe : string;
  generatedAt : Date;
}.

(** [calculateAverageSuccessRate()], super-agent.ts:508-512. *)
Definition calculateAverageSuccessRate (a : Agent) : Q :=
  let strategies := filter (λ s, isActive s = true) (strategy_values a) in
  if decide (length strategies = 0%nat) then 1%Q
  else (foldl (λ sum s, sum + successRate s) 0 strategies
        / inject_Z (Z.of_nat (length strategies)))%Q.

(** [s.successRate > 0.95], [s.successRate <= 0.95 && s.successRate > 0.8]
    and [s.successRate <= 0.8] *)
Definition is_healthy (s : AutomationStrategy) : bool :=
  negb (Qle_bool (successRate s) double_0_95).
Definition is_warning (s : AutomationStrategy) : bool :=
  Qle_bool (successRate s) double_0_95 && negb (Qle_bool (successRate s) double_0_8).
Definition is_critical (s : AutomationStrategy) : bool :=
  Qle_bool (successRate s) double_0_8.

(** [generateAnalytics(timeframe)], super-agent.ts:517-546; [now] is the
    reading of [new Date()]. *)
Definition generateAnalytics (timeframe : string) (now : Date) (a : Agent) : Report :=
  let strategies := strategy_values a in
  let activeStrategies := filter (λ s, isActive s = true) strategies in
  {| overview :=
       {| totalStrategies := length strategies;
          activeStrategies := length activeStrategies;
          totalExecutions := foldl (λ sum s, sum + executionCount s) 0 strategies;
          averageSuccessRate := calculateAverageSuccessRate a;
          totalValueTransferred :=
            Qdiv (inject_Z (foldl (λ sum s, sum + totalTransferred s) 0 strategies))
                 (inject_Z 1000000) |};
     performance :=
       {| healthyStrategies := length (filter (λ s, is_healthy s = true) activeStrategies);
          warningStrategies := length (filter (λ s, is_warning s = true) activeStrategies);
          criticalStrategies := length (filter (λ s, is_critical s = true) activeStrategies) |};
     estimatedMonthlyCost := estimateMonthlyCost;
     timeframe := timeframe;
     generatedAt := now |}.

End Analytics.

(** ** The notifications of the command line, cli.ts:78-104 *)

Module CLI.

(** [addNotification(message)], cli.ts:98-104; [slice(-5)] keeps the last
    five elements.  The console output is left out. *)
Definition addNotification (message : string) (notifications : list string) : list string :=
  let notifications := notifications ++ [message] in
  if decide (5 < length notifications)%nat
  then drop (length notifications - 5) notifications
  else notifications.

(** The listeners of [setupAgentEventListeners], cli.ts:78-92, that add a
    notification, by event: the message they build from the payload, [None]
    for an event nobody listens to.  A payload that holds a strategy is read
    through the heap. *)
Definition listener (heap : list AutomationStrategy) (e : Event) : option string :=
  match e with
  | strategyCreated strategy =>
      s ← heap !! strategy;
      Some ("✅ Strategy " +:+ dquote +:+ name s +:+ dquote +:+ " created successfully!")
  | strategyError _ error => Some ("❌ Strategy creation failed: " +:+ error)
  | lowBalanceAlert strategy _ =>
      s ← heap !! strategy;
      Some ("⚠️ Low balance alert for strategy: " +:+ name s)
  | strategyCreationFailed _ _ _ => None
  end.

Definition deliver (heap : list AutomationStrategy) (notifications : list string)
    (e : Event) : list string :=
  match listener heap e with
  | Some message => addNotification message notifications
  | None => notifications
  end.

(** One operation of the agent with the command line listening.  The events
    of the operation are delivered in the order of their emission; the name
    a listener reads is the same during and after the operation, as no
    operation assigns it. *)
Definition observe (op : Op) (a : Agent) (notifications : list string)
    : Agent * list string :=
  let a' := step a op in
  (a', foldl (deliver (heap a')) notifications (drop (length (emitted a)) (emitted a'))).

End CLI.

(** ** The basic agent, index.ts:214-826

    The class of index.ts keeps its strategies in a [Map] of its own.  No
    object of that map is reachable under two keys, and no caller writes to
    an object it was handed, so the map holds the records themselves. *)

Module Basic.

(** [interface AutomationStrategy], index.ts:229-241; [taskId] holds what
    [parseInt] returned, [None] for [NaN]. *)
Record Strategy := {
  id : string;
  type : string;
  name : string;
  description : string;
  target : string;
  taskId : option Z;
  isActive : bool;
  createdAt : Date;
  lastChecked : option Date;
}.

(** [strategy.isActive = b] *)
Definition set_isActive (b : bool) (s : Strategy) : Strategy :=
  {| id := id s; type := type s; name := name s; description := description s;
     target := target s; taskId := taskId s; isActive := b;
     createdAt := createdAt s; lastChecked := lastChecked s |}.

Inductive Mode := REAL_DEPLOYMENT | REAL_CANCELLATION | SIMULATION.

(** The result objects of [createAutoTopupStrategy] and [cancelStrategy]; a
    field the source leaves out of an object literal is [None].  The [taskId]
    of a creation result repeats the one of [strategy] and is left out. *)
Record Result := {
  success : bool;
  message : string;
  res_strategyId : option string;
  res_txHash : option string;
  res_strategy : option Strategy;
  res_mode : option Mode;
  res_note : option string;
}.

(** *** Creation, index.ts:404-478 *)

Record CreateWorld := {
  Date_now : Z;
  deployRealAutomation : outcome (string * option Z);
  new_Date : Date;
  random_int : Z;
  random_hex : string;
}.

Definition createAutoTopupStrategy (params : CreateParams) (w : CreateWorld)
    (strategies : list (string * Strategy)) : list (string * Strategy) * Result :=
  let strategyId := "topup_" +:+ pretty (Date_now w) in
  let description :=
    "Auto top-up " +:+ targetAddress params +:+ " when below 600 SUPRA with 50 SUPRA" in
  match deployRealAutomation w with
  | Resolved (txHash, taskId) =>
      let strategy :=
        {| id := strategyId; type := "auto_topup"; name := strategyName params;
           description := description; target := targetAddress params;
           taskId := taskId; isActive := true; createdAt := new_Date w;
           lastChecked := None |} in
      (JsMap.set strategyId strategy strategies,
       {| success := true;
          message := "✅ Auto top-up strategy deployed successfully";
          res_strategyId := Some strategyId;
          res_txHash := Some txHash;
          res_strategy := Some strategy;
          res_mode := Some REAL_DEPLOYMENT;
          res_note := None |})
  | Rejected deployError =>
      let strategy :=
        {| id := strategyId; type := "auto_topup"; name := strategyName params;
           description := description; target := targetAddress params;
           taskId := Some (random_int w `mod` 10000); isActive := true;
           createdAt := new_Date w; lastChecked := None |} in
      (JsMap.set strategyId strategy strategies,
       {| success := true;
          message := "🔄 Strategy created in simulation mode";
          res_strategyId := Some strategyId;
          res_txHash := Some ("0x" +:+ random_hex w);
          res_strategy := Some strategy;
          res_mode := Some SIMULATION;
          res_note := Some ("Real deployment failed: " +:+ deployError) |})
  end.

(** *** Cancellation, index.ts:560-633 *)

(** What one call of [cancelStrategy] reads from outside the agent.  The two
    SDK calls that follow the serialisation of the task identifier are read by
    the argument they are handed. *)
Record CancelWorld := {
  (** [BigInt((await getAccountInfo(senderAddr)).sequence_number)] *)
  getAccountInfo : outcome Z;
  (** the message of the error [BigInt(NaN)] throws *)
  BigInt_NaN : string;
  (** [await createSerializedRawTxObject(..., "cancel_task", [], [argument])] *)
  createSerializedRawTxObject : list Z → outcome unit;
  (** [await sendTxUsingSerializedRawTransaction(...)] *)
  sendTx : list Z → outcome Deployment.TxResult;
  (** the message of the error that reading a property of [null] or
      [undefined] throws *)
  TypeError_nullish : string;
  cancel_random_hex : string;
}.

(** [cancelRealAutomation(taskId)], index.ts:608-633. *)
Definition cancelRealAutomation (w : CancelWorld) (taskId : option Z) : outcome string :=
  sequenceNumber ← getAccountInfo w;
  match taskId with
  | None => Rejected (BigInt_NaN w)
  | Some taskId =>
      let argument := serializeU64 taskId in
      serializedTx ← createSerializedRawTxObject w argument;
      result ← sendTx w argument;
      match result with
      | Deployment.TxObject hash txHash _ =>
          match Deployment.truthy hash with
          | Some h => Resolved h
          | None =>
              match Deployment.truthy txHash with
              | Some h => Resolved h
              | None => Resolved ("0x" +:+ cancel_random_hex w)
              end
          end
      | Deployment.TxString _ => Resolved ("0x" +:+ cancel_random_hex w)
      | Deployment.TxNullish => Rejected (TypeError_nullish w)
      end
  end.

Definition cancelStrategy (strategyId : string) (w : CancelWorld)
    (strategies : list (string * Strategy)) : list (string * Strategy) * Result :=
  match JsMap.get strategyId strategies with
  | None =>
      (strategies,
       {| success := false; message := "Strategy not found"; res_strategyId := None;
          res_txHash := None; res_strategy := None; res_mode := None;
          res_note := None |})
  | Some strategy =>
      match cancelRealAutomation w (taskId strategy) with
      | Resolved txHash =>
          (JsMap.set strategyId (set_isActive false strategy) strategies,
           {| success := true;
              message := "✅ Successfully cancelled: " +:+ name strategy;
              res_strategyId := Some strategyId;
              res_txHash := Some txHash;
              res_strategy := None;
              res_mode := Some REAL_CANCELLATION;
              res_note := None |})
      | Rejected cancelError =>
          (JsMap.set strategyId (set_isActive false strategy) strategies,
           {| success := true;
              message := "🔄 Cancelled locally: " +:+ name strategy;
              res_strategyId := Some strategyId;
              res_txHash := Some ("0x" +:+ cancel_random_hex w);
              res_strategy := None;
              res_mode := Some SIMULATION;
              res_note := Some ("Real cancellation failed: " +:+ cancelError) |})
      end
  end.

(** *** Status check, index.ts:654-771 *)

(** [strategy.lastChecked = d] *)
Definition set_lastChecked (d : Date) (s : Strategy) : Strategy :=
  {| id := id s; type := type s; name := name s; description := description s;
     target := target s; taskId := taskId s; isActive := isActive s;
     createdAt := createdAt s; lastChecked := Some d |}.

(** [analyzeStrategy(strategy, currentBalance)], index.ts:724-754, on the
    records of this class; the floating-point [metrics] are left out. *)
Definition analyzeStrategy (strategy : Strategy) (currentBalance : Z) : BasicAgent.Analysis :=
  let threshold := 600000000 in
  let willTrigger := currentBalance <? threshold in
  if currentBalance <? threshold then
    {| BasicAgent.status := "below_threshold"; BasicAgent.urgency := "high";
       BasicAgent.recommendation :=
         "Balance is below 600 SUPRA! Top-up will trigger with 50 SUPRA.";
       BasicAgent.willTrigger := willTrigger |}
  else if currentBalance <? threshold * 2 then
    {| BasicAgent.status := "approaching_threshold"; BasicAgent.urgency := "medium";
       BasicAgent.recommendation := "Balance getting close to 600 SUPRA threshold.";
       BasicAgent.willTrigger := willTrigger |}
  else
    {| BasicAgent.status := "healthy"; BasicAgent.urgency := "low";
       BasicAgent.recommendation :=
         "Balance is well above threshold. Strategy working well.";
       BasicAgent.willTrigger := willTrigger |}.

(** What a status check reads from outside the agent, per map entry: the
    outcome of the SDK's balance query, the random number of the fallback of
    [getAccountBalance] (index.ts:704-722, the body of super-agent.ts:484-494),
    and the [new Date()] of the iteration. *)
Record StatusWorld := {
  getAccountCoinBalance : string → string → outcome Z;
  Math_random : string → Z;
  iteration_Date : string → Date;
}.

(** The balance [getAccountBalance] returns for an entry. *)
Definition balance_of (w : StatusWorld) (key : string) (strategy : Strategy) : Z :=
  getAccountBalance (getAccountCoinBalance w key (target strategy)) (Math_random w key).

(** [{...strategy, currentBalance, lastChecked: new Date(), analysis}]; the
    floating-point [balanceInSupra] is left out. *)
Record StatusCheck := {
  checked : Strategy;
  currentBalance : string;
  analysis : BasicAgent.Analysis;
}.

Definition status_of (w : StatusWorld) (key : string) (strategy : Strategy) : StatusCheck :=
  let balance := balance_of w key strategy in
  {| checked := set_lastChecked (iteration_Date w key) strategy;
     currentBalance := pretty balance;
     analysis := analyzeStrategy strategy balance |}.

(** [generateStrategySummary(strategies)], index.ts:756-771. *)
Record Summary := {
  totalStrategies : nat;
  activeStrategies : nat;
  high : nat;
  medium : nat;
  low : Z;
  overallHealth : string;
}.

Definition generateStrategySummary (strategies : list StatusCheck) : Summary :=
  let active := length (filter (λ s, isActive (checked s) = true) strategies) in
  let highUrgency :=
    length (filter (λ s, BasicAgent.urgency (analysis s) = "high") strategies) in
  let mediumUrgency :=
    length (filter (λ s, BasicAgent.urgency (analysis s) = "medium") strategies) in
  {| totalStrategies := length strategies;
     activeStrategies := active;
     high := highUrgency;
     medium := mediumUrgency;
     low := Z.of_nat (length strategies) - Z.of_nat highUrgency - Z.of_nat mediumUrgency;
     overallHealth :=
       if (0 <? highUrgency)%nat then "needs_attention"
       else if (0 <? mediumUrgency)%nat then "monitor"
       else "healthy" |}.

Inductive StatusResult :=
| StatusOne (strategy : StatusCheck)
| StatusAll (strategies : list StatusCheck) (summary : Summary)
| StatusNotFound.

(** The loop of the branch without an id. *)
Definition check_all (w : StatusWorld) (strategies : list (string * Strategy))
    : list StatusCheck :=
  foldl (λ statusChecks '(key, strategy),
           if isActive strategy
           then statusChecks ++ [status_of w key strategy]
           else statusChecks)
        [] strategies.

(** [checkStrategyStatus(strategyId?)].  [getAccountBalance] catches what the
    SDK throws, so nothing reaches the [catch] of this method. *)
Definition checkStrategyStatus (strategyId : option string) (w : StatusWorld)
    (strategies : list (string * Strategy)) : StatusResult :=
  match strategyId with
  | Some (String _ _ as strategyId) =>
      match JsMap.get strategyId strategies with
      | None => StatusNotFound
      | Some strategy => StatusOne (status_of w strategyId strategy)
      end
  | _ =>
      let statusChecks := check_all w strategies in
      StatusAll statusChecks (generateStrategySummary statusChecks)
  end.

End Basic.

(** Sample inputs of the basic agent: a store with one simulated strategy
    that was cancelled and one deployed strategy, a chain that accepts the
    cancellation, and balance queries of which the second fails. *)
Definition basic_sample_store : list (string * Basic.Strategy) :=
  [ ("topup_1700000000000",
     {| Basic.id := "topup_1700000000000"; Basic.type := "auto_topup";
        Basic.name := "Gas Wallet"; Basic.description := "";
        Basic.target := sample_address; Basic.taskId := Some 4242;
        Basic.isActive := false; Basic.createdAt := 1700000000002;
        Basic.lastChecked := None |});
    ("topup_1700000000001",
     {| Basic.id := "topup_1700000000001"; Basic.type := "auto_topup";
        Basic.name := "Trading Wallet"; Basic.description := "";
        Basic.target := sample_address; Basic.taskId := Some 286331153;
        Basic.isActive := true; Basic.createdAt := 1700000000003;
        Basic.lastChecked := None |}) ].

Definition basic_sample_chain : Basic.CancelWorld :=
  {| Basic.getAccountInfo := Resolved 7;
     Basic.BigInt_NaN := "The number NaN cannot be converted to a BigInt";
     Basic.createSerializedRawTxObject := λ _, Resolved ();
     Basic.sendTx := λ _, Resolved (Deployment.TxObject (Some "0xc0ffee") None None);
     Basic.TypeError_nullish := "Cannot read properties of undefined";
     Basic.cancel_random_hex := "8f3a1c" |}.

Definition basic_sample_balances : Basic.StatusWorld :=
  {| Basic.getAccountCoinBalance := λ key _,
       if decide (key = "topup_1700000000001") then Rejected "fetch failed"
       else Resolved 1300000000;
     Basic.Math_random := λ _, 4242;
     Basic.iteration_Date := λ _, 1700000600000 |}.

(** ** The configuration check of the command line, cli.ts:384-427 *)

Module Config.

Definition requiredEnvVars : list string :=
  [ "OPENAI_API_KEY"; "SUPRA_PRIVATE_KEY"; "SUPRA_CONTRACT_ADDRESS" ].

Definition placeholders : list (string * string) :=
  [ ("OPENAI_API_KEY", "your_openai_api_key");
    ("SUPRA_PRIVATE_KEY", "your_supra_private_key");
    ("SUPRA_CONTRACT_ADDRESS", "your_deployed_contract_address") ].

(** How [checkConfiguration] ends: it returns, or it leaves the process with
    exit code 1 after listing the variables it found missing, or the ones it
    found to hold a placeholder. *)
Inductive Checked :=
| Passed
| Missing (missing : list string)
| Placeholders (hasPlaceholders : list (string * string)).

(** [!process.env[env]] *)
Definition unset (value : option string) : bool :=
  match value with
  | Some (String _ _) => false
  | _ => true
  end.

(** [checkConfiguration()]; [env] is [process.env]. *)
Definition checkConfiguration (env : string → option string) : Checked :=
  let missing := filter (λ k, unset (env k) = true) requiredEnvVars in
  if decide (0 < length missing)%nat then Missing missing
  else
    let hasPlaceholders :=
      filter (λ p, env p.1 = Some p.2 ∨ env p.1 = Some (p.2 +:+ "_here")) placeholders in
    if decide (0 < length hasPlaceholders)%nat then Placeholders hasPlaceholders
    else Passed.

(** An environment whose key passes the configuration check and is refused
    by [createSuperAgent]. *)
Definition short_key_env (k : string) : option string :=
  if decide (k = "SUPRA_PRIVATE_KEY") then Some "abc123" else Some "set".

End Config.

(** ** Decoration of a reply, super-agent.ts:232-249 *)

(** The line feed of the template literals. *)
Definition nl : string := String (ascii_of_nat 10) EmptyString.

(** The double that the literal [0.9] denotes. *)
Definition double_0_9 : Q := (8106479329266893 # 9007199254740992)%Q.

(** [enhanceResponse(response)].  [lucky] reads [Math.random() > 0.8], which
    the source evaluates only with an active strategy; [toFixed1] prints
    [(avgSuccessRate * 100).toFixed(1)]. *)
Definition enhanceResponse (lucky : bool) (toFixed1 : Q → string) (response : string)
    (a : Agent) : string :=
  let enhanced := response in
  let activeStrategies := length (filter (λ s, isActive s = true) (strategy_values a)) in
  let totalExecutions := foldl (λ sum s, sum + executionCount s) 0 (strategy_values a) in
  let enhanced :=
    if bool_decide (0 < activeStrategies)%nat && lucky
    then enhanced +:+ nl +:+ nl +:+ "💡 **Quick Status**: " +:+ pretty activeStrategies +:+
         " active strategies, " +:+ pretty totalExecutions +:+ " total executions"
    else enhanced in
  let avgSuccessRate := Analytics.calculateAverageSuccessRate a in
  if negb (Qle_bool double_0_9 avgSuccessRate) && bool_decide (0 < activeStrategies)%nat
  then enhanced +:+ nl +:+ nl +:+ "⚠️ **Performance Alert**: Success rate at " +:+
       toFixed1 (avgSuccessRate * 100)%Q +:+ "%. Consider running a health check."
  else enhanced.

(** ** Address validation *)

Lemma append_cons (c : ascii) (s t : string) : String c s +:+ t = String c (s +:+ t).
Proof. reflexivity. Qed.

Lemma append_empty_l (t : string) : "" +:+ t = t.
Proof. reflexivity. Qed.

Lemma append_empty_r (s : string) : s +:+ "" = s.
Proof. induction s as [|c s IH]; [done|]. by rewrite append_cons, IH. Qed.

Lemma length_append (s t : string) :
  String.length (s +:+ t) = (String.length s + String.length t)%nat.
Proof.
  induction s as [|c s IH]; [done|]. rewrite append_cons. cbn. by rewrite IH.
Qed.

Section address_format.

Lemma in_class_hex c : Regex.in_class hex_ranges c = true ↔ hex_char c.
Proof.
  unfold Regex.in_class, hex_ranges, hex_char, Regex.in_range; cbn [existsb fst snd].
  change (nat_of_ascii "a") with 97%nat. change (nat_of_ascii "f") with 102%nat.
  change (nat_of_ascii "A") with 65%nat. change (nat_of_ascii "F") with 70%nat.
  change (nat_of_ascii "0") with 48%nat. change (nat_of_ascii "9") with 57%nat.
  rewrite !orb_true_iff, !andb_true_iff, !Nat.leb_le.
  intuition discriminate.
Qed.

Lemma eat_class_hex n s rest :
  Regex.eat_class hex_ranges n s = Some rest ↔
  ∃ h, s = h +:+ rest ∧ String.length h = n ∧ all_hex h.
Proof.
  revert s. induction n as [|n IH]; intros s; cbn [Regex.eat_class].
  - split.
    + intros [= ->]. by exists "".
    + intros (h & -> & Hlen & _). by destruct h.
  - destruct s as [|c s].
    + split; [done|]. intros (h & Hs & Hlen & _). by destruct h.
    + destruct (Regex.in_class hex_ranges c) eqn:Hc.
      * rewrite IH. apply in_class_hex in Hc. split.
        -- intros (h & -> & Hlen & Hh). exists (String c h).
           rewrite append_cons. cbn. by rewrite Hlen.
        -- intros (h & Hs & Hlen & Hh). destruct h as [|c' h]; [done|].
           rewrite append_cons in Hs. cbn in Hlen, Hh.
           injection Hs as -> ->. injection Hlen as Hlen. destruct Hh as [_ Hh].
           by exists h.
      * split; [done|]. intros (h & Hs & Hlen & Hh).
        destruct h as [|c' h]; [done|]. rewrite append_cons in Hs. cbn in Hh.
        injection Hs as -> ->.
        destruct Hh as [Hh _]. apply in_class_hex in Hh. congruence.
Qed.

Lemma isValidAddress_spec s : isValidAddress s = true ↔ hex64_address s.
Proof.
  unfold isValidAddress, Regex.test, ADDRESS_RE, hex64_address.
  change "0x" with (String "0" (String "x" "")).
  setoid_rewrite append_cons. setoid_rewrite append_cons.
  setoid_rewrite append_empty_l.
  destruct s as [|c0 [|c1 s]]; cbn [Regex.eat_items Regex.eat_item].
  - split; [done|]. by intros (h & ? & _).
  - split; [by destruct (Ascii.eqb "0" c0)|]. by intros (h & ? & _).
  - destruct (Ascii.eqb_spec "0"%char c0) as [<-|Hc0].
    + destruct (Ascii.eqb_spec "x"%char c1) as [<-|Hc1].
      * destruct (Regex.eat_class hex_ranges 64 s) as [rest|] eqn:Heat.
        -- apply eat_class_hex in Heat as (h & -> & Hlen & Hh). split.
           ++ destruct rest; [|done]. intros _. exists h.
              by rewrite append_empty_r.
           ++ intros (h' & Hs & Hlen' & Hh'). injection Hs as Hs.
              assert (rest = "") as ->; [|done].
              apply (f_equal String.length) in Hs.
              rewrite length_append in Hs.
              destruct rest; [done|]. cbn in Hs. lia.
        -- split; [done|]. intros (h & Hs & Hlen & Hh).
           injection Hs as ->.
           assert (Regex.eat_class hex_ranges 64 h = Some "") as Hsome; [|congruence].
           apply eat_class_hex. exists h. by rewrite append_empty_r.
      * split; [done|]. intros (h & Hs & _). congruence.
    + split; [done|]. intros (h & Hs & _). congruence.
Qed.

End address_format.

(** C9: [isValidAddress(s)] is true if and only if [s] is the prefix [0x]
    followed by exactly 64 hexadecimal characters (digits, or letters a-f in
    either case).  [0x] followed by 64 zeros is accepted; [0x123] is rejected,
    and so is every string of 64 hexadecimal characters that lacks the
    prefix. *)
Theorem isValidAddress_iff_hex64 :
  (∀ s, isValidAddress s = true ↔ hex64_address s) ∧
  isValidAddress ("0x" +:+ zeros64) = true ∧
  isValidAddress "0x123" = false ∧
  isValidAddress zeros64 = false ∧
  (∀ h, String.length h = 64%nat → all_hex h → isValidAddress h = false).
Proof.
  split_and!.
  - apply isValidAddress_spec.
  - reflexivity.
  - reflexivity.
  - reflexivity.
  - intros h Hlen _. apply not_true_is_false. intros Hv.
    apply isValidAddress_spec in Hv as (h' & -> & Hlen' & _).
    rewrite length_append, Hlen' in Hlen. cbn in Hlen. lia.
Qed.

Lemma ones64_all_hex : all_hex ones64.
Proof. cbn. repeat split; left; vm_compute; lia. Qed.

Lemma isValidAddress_iff_hex64_witness :
  isValidAddress sample_address = true ∧ isValidAddress ones64 = false.
Proof.
  split.
  - apply (proj1 isValidAddress_iff_hex64 sample_address).
    exists ones64. split_and!; [reflexivity | reflexivity | exact ones64_all_hex].
  - apply (proj2 (proj2 (proj2 (proj2 isValidAddress_iff_hex64))) ones64);
      [reflexivity | exact ones64_all_hex].
Defined.

(** ** The map *)

Section JsMap_facts.
Context {V : Type}.
Implicit Types (m : list (string * V)) (k : string) (v : V).

Lemma get_set_eq m k v : JsMap.get k (JsMap.set k v m) = Some v.
Proof.
  induction m as [|[k' v'] m IH]; cbn.
  - by rewrite decide_True.
  - destruct (decide (k = k')) as [->|Hne]; cbn.
    + by rewrite decide_True.
    + by rewrite decide_False.
Qed.

Lemma get_set_ne m k k' v : k ≠ k' → JsMap.get k' (JsMap.set k v m) = JsMap.get k' m.
Proof.
  intros Hne. induction m as [|[k0 v0] m IH]; cbn.
  - by rewrite decide_False.
  - destruct (decide (k = k0)) as [->|Hk]; cbn.
    + by rewrite !decide_False.
    + by rewrite IH.
Qed.

Lemma set_absent m k v : JsMap.get k m = None → JsMap.set k v m = m ++ [(k, v)].
Proof.
  induction m as [|[k' v'] m IH]; cbn; [done|].
  destruct (decide (k = k')); [done|]. intros Hm. by rewrite IH.
Qed.

Lemma set_present m k v : JsMap.get k m = Some v → JsMap.set k v m = m.
Proof.
  induction m as [|[k' v'] m IH]; cbn; [done|].
  destruct (decide (k = k')) as [->|Hne].
  - by intros [= ->].
  - intros Hm. by rewrite IH.
Qed.

Lemma keys_set_present m k v :
  is_Some (JsMap.get k m) → JsMap.keys (JsMap.set k v m) = JsMap.keys m.
Proof.
  unfold JsMap.keys. induction m as [|[k' v'] m IH]; cbn.
  - by intros [? ?].
  - destruct (decide (k = k')) as [->|Hne]; cbn; [done|].
    intros Hm. by rewrite IH.
Qed.

Lemma get_None_keys m k : JsMap.get k m = None ↔ k ∉ JsMap.keys m.
Proof.
  unfold JsMap.keys. induction m as [|[k' v'] m IH]; cbn.
  - split; [intros _; apply not_elem_of_nil | done].
  - rewrite not_elem_of_cons. destruct (decide (k = k')) as [->|Hne].
    + split; [done | by intros [? _]].
    + rewrite IH. tauto.
Qed.

Lemma get_Some_elem m k v : JsMap.get k m = Some v → (k, v) ∈ m.
Proof.
  induction m as [|[k' v'] m IH]; cbn; [done|].
  destruct (decide (k = k')) as [->|Hne].
  - intros [= ->]. apply list_elem_of_here.
  - intros Hm. apply list_elem_of_further. by apply IH.
Qed.

Lemma elem_get_Some m k v :
  NoDup (JsMap.keys m) → (k, v) ∈ m → JsMap.get k m = Some v.
Proof.
  unfold JsMap.keys. induction m as [|[k' v'] m IH]; cbn.
  - intros _ Hin. by apply elem_of_nil in Hin.
  - intros [Hk' Hnd]%NoDup_cons [Heq|Hin]%elem_of_cons.
    + injection Heq as -> ->. by rewrite decide_True.
    + destruct (decide (k = k')) as [->|Hne]; [|by apply IH].
      exfalso. apply Hk'. apply list_elem_of_fmap. by exists (k', v).
Qed.

Lemma elem_values_inj m k k' v :
  NoDup (JsMap.values m) → (k, v) ∈ m → (k', v) ∈ m → k = k'.
Proof.
  unfold JsMap.values. induction m as [|[k0 v0] m IH]; cbn.
  - intros _ Hin. by apply elem_of_nil in Hin.
  - intros [Hv0 Hnd]%NoDup_cons Hin Hin'.
    assert (∀ k1, (k1, v0) ∈ m → False) as Hfresh.
    { intros k1 Hk1. apply Hv0. apply list_elem_of_fmap. by exists (k1, v0). }
    apply elem_of_cons in Hin as [Heq|Hin];
      apply elem_of_cons in Hin' as [Heq'|Hin']; simplify_eq.
    + done.
    + by destruct (Hfresh k').
    + by destruct (Hfresh k).
    + by apply IH.
Qed.

End JsMap_facts.

(** ** Heap cells *)

Lemma alter_fixed {A} (f : A → A) (l : list A) (i : nat) (x : A) :
  l !! i = Some x → f x = x → alter f i l = l.
Proof.
  intros Hi Hf. apply list_eq. intros j.
  destruct (decide (i = j)) as [<-|Hne].
  - by rewrite list_lookup_alter_eq, Hi; cbn; rewrite Hf.
  - by rewrite list_lookup_alter_ne.
Qed.

Lemma set_isActive_false_fixed s : isActive s = false → set_isActive false s = s.
Proof. destruct s; cbn. by intros ->. Qed.

(** ** Health evaluation *)

(** C2 (amended): the evaluator of the basic agent ([analyzeStrategy]) gives
    three tiers: [below_threshold]/high when B < 600_000_000,
    [approaching_threshold]/medium when 600_000_000 <= B < 1_200_000_000 (so
    B equal to the threshold is approaching, not below), [healthy]/low
    otherwise.  The evaluator of the super agent ([calculateHealthStatus])
    gives two tiers and no urgency: [needs_topup] when B < 600_000_000 and
    [healthy] otherwise.  In both, [willTrigger] is true iff
    B < 600_000_000. *)
Theorem health_evaluation_tiers (strategy : AutomationStrategy) (B : Z) :
  let analysis := BasicAgent.analyzeStrategy strategy B in
  let health := calculateHealthStatus strategy B in
  (B < 600000000 →
     BasicAgent.status analysis = "below_threshold" ∧
     BasicAgent.urgency analysis = "high") ∧
  (600000000 ≤ B < 1200000000 →
     BasicAgent.status analysis = "approaching_threshold" ∧
     BasicAgent.urgency analysis = "medium") ∧
  (1200000000 ≤ B →
     BasicAgent.status analysis = "healthy" ∧
     BasicAgent.urgency analysis = "low") ∧
  (BasicAgent.willTrigger analysis = true ↔ B < 600000000) ∧
  (B < 600000000 → status health = "needs_topup") ∧
  (600000000 ≤ B → status health = "healthy") ∧
  (willTrigger health = true ↔ B < 600000000).
Proof.
  cbv zeta. unfold BasicAgent.analyzeStrategy, calculateHealthStatus.
  change (600000000 * 2) with 1200000000.
  destruct (Z.ltb_spec B 600000000) as [Hlt|Hge];
    [|destruct (Z.ltb_spec B 1200000000) as [Hlt2|Hge2]];
    destruct (Z.leb_spec 600000000 B); cbn;
    split_and!; try split; intros; try done; lia.
Qed.

(** The tiers at the balances the specification tests: 500, 600 (the
    threshold itself), 900 and 1300 SUPRA. *)
Lemma health_evaluation_tiers_witness :
  BasicAgent.status (BasicAgent.analyzeStrategy sample_strategy 500000000) = "below_threshold" ∧
  BasicAgent.status (BasicAgent.analyzeStrategy sample_strategy 600000000) = "approaching_threshold" ∧
  BasicAgent.status (BasicAgent.analyzeStrategy sample_strategy 1300000000) = "healthy" ∧
  status (calculateHealthStatus sample_strategy 500000000) = "needs_topup" ∧
  status (calculateHealthStatus sample_strategy 900000000) = "healthy".
Proof.
  split_and!.
  - apply (health_evaluation_tiers sample_strategy 500000000). lia.
  - apply (health_evaluation_tiers sample_strategy 600000000). lia.
  - apply (health_evaluation_tiers sample_strategy 1300000000). lia.
  - apply (health_evaluation_tiers sample_strategy 500000000). lia.
  - apply (health_evaluation_tiers sample_strategy 900000000). lia.
Defined.

(** The claim as written fails for [calculateHealthStatus]: at 900 SUPRA,
    between the threshold and twice the threshold, it answers [healthy]. *)
Lemma calculateHealthStatus_has_no_middle_tier :
  600000000 ≤ 900000000 < 1200000000 ∧
  status (calculateHealthStatus sample_strategy 900000000) = "healthy" ∧
  status (calculateHealthStatus sample_strategy 900000000) ≠ "approaching_threshold".
Proof. split_and!; [lia | lia | reflexivity | discriminate]. Qed.

(** ** Cancellation *)

(** C7: cancelling an id that is not a key of the store returns the result
    [{success: false, message: "Strategy not found"}] (a value, nothing is
    thrown) and leaves the agent as it was: the same heap cells, the same map
    entries, hence the same size and the same records. *)
Theorem cancelStrategy_unknown_id (strategyId : string) (a : Agent) :
  JsMap.get strategyId (strategies a) = None →
  let '(a', result) := cancelStrategy strategyId a in
  success result = false ∧
  message result = "Strategy not found" ∧
  a' = a ∧
  length (strategies a') = length (strategies a) ∧
  (∀ r, heap a' !! r = heap a !! r).
Proof.
  intros Hget. unfold cancelStrategy, strategies_get. rewrite Hget. cbn.
  by split_and!.
Qed.

Lemma cancelStrategy_unknown_id_witness :
  let a := (createAutoTopupStrategy sample_params sample_rejected (initial 0)).1 in
  let '(a', result) := cancelStrategy "topup_0" a in
  success result = false ∧
  message result = "Strategy not found" ∧
  a' = a ∧
  length (strategies a') = length (strategies a) ∧
  (∀ r, heap a' !! r = heap a !! r).
Proof.
  exact (cancelStrategy_unknown_id "topup_0"
           (createAutoTopupStrategy sample_params sample_rejected (initial 0)).1
           eq_refl).
Defined.

(** C10: cancelling an id whose record is in the store and is already
    inactive returns [{success: true}] with the message
    "Successfully cancelled: <name>" (neither not-found nor already-inactive
    is reported), and leaves the agent unchanged: [isActive] stays false and
    every field of every record is as before. *)
Theorem cancelStrategy_already_inactive (strategyId : string) (a : Agent)
    (r : ref) (strategy : AutomationStrategy) :
  JsMap.get strategyId (strategies a) = Some r →
  heap a !! r = Some strategy →
  isActive strategy = false →
  let '(a', result) := cancelStrategy strategyId a in
  success result = true ∧
  message result = "✅ Successfully cancelled: " +:+ name strategy ∧
  res_strategyId result = Some strategyId ∧
  a' = a ∧
  heap a' !! r = Some strategy.
Proof.
  intros Hget Hcell Hoff. unfold cancelStrategy, strategies_get.
  rewrite Hget. cbn. rewrite Hcell. cbn.
  assert (strategies_set strategyId r (mutate (set_isActive false) r a) = a) as ->.
  { destruct a as [h m pm ev]. unfold strategies_set, mutate.
    cbn [heap strategies performanceMetrics emitted] in *. f_equal.
    - apply (alter_fixed _ _ _ _ Hcell). by apply set_isActive_false_fixed.
    - by apply set_present. }
  split_and!; try done.
  rewrite list_lookup_alter_eq, Hcell. cbn. by rewrite set_isActive_false_fixed.
Qed.

Lemma cancelStrategy_already_inactive_witness :
  let a0 := (createAutoTopupStrategy sample_params sample_rejected (initial 0)).1 in
  let a := (cancelStrategy "topup_1700000000000" a0).1 in
  let '(a', result) := cancelStrategy "topup_1700000000000" a in
  success result = true ∧
  message result = "✅ Successfully cancelled: Trading Wallet" ∧
  res_strategyId result = Some "topup_1700000000000" ∧
  a' = a ∧
  heap a' !! 0%nat = Some (set_isActive false sample_strategy).
Proof.
  exact (cancelStrategy_already_inactive "topup_1700000000000"
           (cancelStrategy "topup_1700000000000"
              (createAutoTopupStrategy sample_params sample_rejected (initial 0)).1).1
           0%nat (set_isActive false sample_strategy) eq_refl eq_refl eq_refl).
Defined.

(** ** Creation *)

(** C8: when the target address fails the format check, create returns a
    result with [success = false] carrying the error, emits
    [strategyCreationFailed], and commits nothing: heap, map and counters are
    as before the call. *)
Theorem createAutoTopupStrategy_invalid_address (params : CreateParams)
    (w : CreateWorld) (a : Agent) :
  isValidAddress (targetAddress params) = false →
  let '(a', result) := createAutoTopupStrategy params w a in
  success result = false ∧
  (∃ error,
     res_error result = Some error ∧
     emitted a' =
       emitted a ++
       [strategyCreationFailed error (strategyName params) (targetAddress params)]) ∧
  res_strategy result = None ∧
  heap a' = heap a ∧
  strategies a' = strategies a ∧
  performanceMetrics a' = performanceMetrics a.
Proof.
  intros Hbad. unfold createAutoTopupStrategy. rewrite Hbad. cbn.
  split_and!; try done. eexists. by split.
Qed.

Lemma createAutoTopupStrategy_invalid_address_witness :
  let a := (createAutoTopupStrategy sample_params sample_rejected (initial 0)).1 in
  let params := {| strategyName := "Typo"; targetAddress := "0x123" |} in
  let '(a', result) := createAutoTopupStrategy params sample_deployed a in
  success result = false ∧
  (∃ error,
     res_error result = Some error ∧
     emitted a' = emitted a ++ [strategyCreationFailed error "Typo" "0x123"]) ∧
  res_strategy result = None ∧
  heap a' = heap a ∧
  strategies a' = strategies a ∧
  performanceMetrics a' = performanceMetrics a.
Proof.
  exact (createAutoTopupStrategy_invalid_address
           {| strategyName := "Typo"; targetAddress := "0x123" |} sample_deployed
           (createAutoTopupStrategy sample_params sample_rejected (initial 0)).1
           eq_refl).
Defined.

Lemma createAutoTopupStrategy_deployed params w a realResult :
  isValidAddress (targetAddress params) = true →
  deployRealAutomation w = Resolved realResult →
  let strategyId := make_strategyId (Date_now w) in
  let strategy := deployed_strategy strategyId params realResult (new_Date w) in
  let '(a', result) := createAutoTopupStrategy params w a in
  heap a' = heap a ++ [strategy] ∧
  strategies a' = JsMap.set strategyId (length (heap a)) (strategies a) ∧
  totalStrategiesCreated (performanceMetrics a') =
    totalStrategiesCreated (performanceMetrics a) + 1 ∧
  emitted a' = emitted a ++ [strategyCreated (length (heap a))] ∧
  success result = true ∧
  res_mode result = Some REAL_DEPLOYMENT ∧
  res_strategyId result = Some strategyId ∧
  res_strategy result = Some (length (heap a)).
Proof.
  intros Hok Hdeploy. unfold createAutoTopupStrategy. rewrite Hok, Hdeploy. cbn.
  destruct (performPreDeploymentChecks _). by split_and!.
Qed.

Lemma createAutoTopupStrategy_simulated params w a deployError :
  isValidAddress (targetAddress params) = true →
  deployRealAutomation w = Rejected deployError →
  let strategyId := make_strategyId (Date_now w) in
  let strategy := simulated_strategy strategyId params (random_int w) (new_Date w) in
  let '(a', result) := createAutoTopupStrategy params w a in
  heap a' = heap a ++ [strategy] ∧
  strategies a' = JsMap.set strategyId (length (heap a)) (strategies a) ∧
  performanceMetrics a' = performanceMetrics a ∧
  emitted a' = emitted a ∧
  success result = true ∧
  res_mode result = Some SIMULATION ∧
  res_strategyId result = Some strategyId ∧
  res_strategy result = Some (length (heap a)).
Proof.
  intros Hok Hdeploy. unfold createAutoTopupStrategy. rewrite Hok, Hdeploy. cbn.
  destruct (performPreDeploymentChecks _). by split_and!.
Qed.

(** C1 (amended): for every create call whose target address passes the
    format check, in both outcomes of the deployment exactly one new record,
    with [isActive = true], is allocated and bound in the store to the
    generated id (the other ids keep their bindings), and the result has
    [success = true], with mode REAL_DEPLOYMENT when the deployment resolves
    and SIMULATION when it rejects.  The records of the two outcomes agree on
    every field except the task identifier and the description. *)
Theorem createAutoTopupStrategy_always_yields_record (params : CreateParams)
    (w : CreateWorld) (a : Agent) (realResult : Deployed) (deployError : string) :
  isValidAddress (targetAddress params) = true →
  let deployed :=
    {| Date_now := Date_now w; targetBalance := targetBalance w;
       deployRealAutomation := Resolved realResult;
       new_Date := new_Date w; random_int := random_int w;
       random_hex := random_hex w |} in
  let rejected :=
    {| Date_now := Date_now w; targetBalance := targetBalance w;
       deployRealAutomation := Rejected deployError;
       new_Date := new_Date w; random_int := random_int w;
       random_hex := random_hex w |} in
  let strategyId := make_strategyId (Date_now w) in
  let r := length (heap a) in
  let '(a1, result1) := createAutoTopupStrategy params deployed a in
  let '(a2, result2) := createAutoTopupStrategy params rejected a in
  ∃ strategy1 strategy2,
    (heap a1 = heap a ++ [strategy1] ∧ heap a2 = heap a ++ [strategy2]) ∧
    (isActive strategy1 = true ∧ isActive strategy2 = true) ∧
    (id strategy1 = strategyId ∧ id strategy2 = strategyId) ∧
    (JsMap.get strategyId (strategies a1) = Some r ∧
     JsMap.get strategyId (strategies a2) = Some r) ∧
    (∀ key, key ≠ strategyId →
       JsMap.get key (strategies a1) = JsMap.get key (strategies a) ∧
       JsMap.get key (strategies a2) = JsMap.get key (strategies a)) ∧
    (success result1 = true ∧ res_mode result1 = Some REAL_DEPLOYMENT) ∧
    (success result2 = true ∧ res_mode result2 = Some SIMULATION) ∧
    (res_strategy result1 = Some r ∧ res_strategy result2 = Some r) ∧
    erase_provenance strategy1 = erase_provenance strategy2 ∧
    taskId strategy1 = Some (deployed_taskId realResult) ∧
    taskId strategy2 = Some (random_int w `mod` 10000).
Proof.
  intros Hok. cbv zeta.
  pose proof (createAutoTopupStrategy_deployed params
    {| Date_now := Date_now w; targetBalance := targetBalance w;
       deployRealAutomation := Resolved realResult;
       new_Date := new_Date w; random_int := random_int w;
       random_hex := random_hex w |} a realResult Hok eq_refl) as H1.
  pose proof (createAutoTopupStrategy_simulated params
    {| Date_now := Date_now w; targetBalance := targetBalance w;
       deployRealAutomation := Rejected deployError;
       new_Date := new_Date w; random_int := random_int w;
       random_hex := random_hex w |} a deployError Hok eq_refl) as H2.
  cbv zeta in H1, H2.
  destruct (createAutoTopupStrategy params _ a) as [a1 result1] in H1 |- *.
  destruct (createAutoTopupStrategy params _ a) as [a2 result2] in H2 |- *.
  cbn [Date_now new_Date random_int] in H1, H2.
  destruct H1 as (Hh1 & Hm1 & _ & _ & Hs1 & Hmode1 & _ & Hr1).
  destruct H2 as (Hh2 & Hm2 & _ & _ & Hs2 & Hmode2 & _ & Hr2).
  eexists _, _. split; [split; [exact Hh1 | exact Hh2]|].
  rewrite Hm1, Hm2. split_and!; try done.
  - apply get_set_eq.
  - apply get_set_eq.
  - intros key Hne. by rewrite !get_set_ne.
Qed.

Lemma createAutoTopupStrategy_always_yields_record_witness :
  let a := initial 0 in
  let strategyId := "topup_1700000000000" in
  let '(a1, result1) := createAutoTopupStrategy sample_params sample_deployed a in
  let '(a2, result2) := createAutoTopupStrategy sample_params sample_rejected a in
  ∃ strategy1 strategy2,
    (heap a1 = [strategy1] ∧ heap a2 = [strategy2]) ∧
    (isActive strategy1 = true ∧ isActive strategy2 = true) ∧
    (id strategy1 = strategyId ∧ id strategy2 = strategyId) ∧
    (JsMap.get strategyId (strategies a1) = Some 0%nat ∧
     JsMap.get strategyId (strategies a2) = Some 0%nat) ∧
    (∀ key, key ≠ strategyId →
       JsMap.get key (strategies a1) = None ∧
       JsMap.get key (strategies a2) = None) ∧
    (success result1 = true ∧ res_mode result1 = Some REAL_DEPLOYMENT) ∧
    (success result2 = true ∧ res_mode result2 = Some SIMULATION) ∧
    (res_strategy result1 = Some 0%nat ∧ res_strategy result2 = Some 0%nat) ∧
    erase_provenance strategy1 = erase_provenance strategy2 ∧
    taskId strategy1 = Some 4660 ∧
    taskId strategy2 = Some (4242 `mod` 10000).
Proof.
  exact (createAutoTopupStrategy_always_yields_record sample_params sample_deployed
           (initial 0)
           {| txHash := "0x5e1f00d4660"; deployed_taskId := 4660 |}
           "Insufficient balance" eq_refl).
Defined.

(** The claim as written fails on the description: with the task identifier
    put aside, the record stored when the deployment resolves still differs
    from the one stored when it rejects. *)
Lemma createAutoTopupStrategy_descriptions_differ :
  let a1 := (createAutoTopupStrategy sample_params sample_deployed (initial 0)).1 in
  let a2 := (createAutoTopupStrategy sample_params sample_rejected (initial 0)).1 in
  isValidAddress (targetAddress sample_params) = true ∧
  description <$> heap a1 !! 0%nat =
    Some ("Smart auto top-up for " +:+ sample_address +:+ " - maintains 600+ SUPRA balance") ∧
  description <$> heap a2 !! 0%nat =
    Some ("Simulated auto top-up for " +:+ sample_address) ∧
  erase_taskId <$> heap a1 !! 0%nat ≠ erase_taskId <$> heap a2 !! 0%nat.
Proof. split_and!; [reflexivity | reflexivity | reflexivity | discriminate]. Qed.

(** ** Cancellation is terminal *)

Lemma stays_cancelled_refl h : stays_cancelled h h.
Proof. intros r s Hr. by exists s. Qed.

Lemma stays_cancelled_trans h1 h2 h3 :
  stays_cancelled h1 h2 → stays_cancelled h2 h3 → stays_cancelled h1 h3.
Proof.
  intros H12 H23 r s Hr.
  destruct (H12 r s Hr) as (s2 & Hr2 & Hs2).
  destruct (H23 r s2 Hr2) as (s3 & Hr3 & Hs3).
  exists s3. split; [done|]. auto.
Qed.

Lemma stays_cancelled_alloc h s : stays_cancelled h (h ++ [s]).
Proof.
  intros r s0 Hr. exists s0. split; [|done]. by apply lookup_app_l_Some.
Qed.

Lemma stays_cancelled_alter f h r :
  (∀ s, isActive s = false → isActive (f s) = false) →
  stays_cancelled h (alter f r h).
Proof.
  intros Hf r' s Hr'. destruct (decide (r = r')) as [<-|Hne].
  - exists (f s). rewrite list_lookup_alter_eq, Hr'. split; [done|]. apply Hf.
  - exists s. by rewrite list_lookup_alter_ne.
Qed.

Lemma stays_cancelled_foldl {E} (body : Agent → E → Agent) (l : list E) a :
  (∀ a e, stays_cancelled (heap a) (heap (body a e))) →
  stays_cancelled (heap a) (heap (foldl body a l)).
Proof.
  intros Hbody. revert a. induction l as [|e l IH]; intros a; cbn.
  - apply stays_cancelled_refl.
  - eapply stays_cancelled_trans; [apply Hbody | apply IH].
Qed.

Lemma createAutoTopupStrategy_stays_cancelled params w a :
  stays_cancelled (heap a) (heap (createAutoTopupStrategy params w a).1).
Proof.
  unfold createAutoTopupStrategy.
  destruct (isValidAddress _); cbn; [|apply stays_cancelled_refl].
  destruct (performPreDeploymentChecks _).
  destruct (deployRealAutomation w); cbn; apply stays_cancelled_alloc.
Qed.

Lemma cancelStrategy_stays_cancelled strategyId a :
  stays_cancelled (heap a) (heap (cancelStrategy strategyId a).1).
Proof.
  unfold cancelStrategy. destruct (strategies_get strategyId a) as [[r s]|]; cbn.
  - by apply stays_cancelled_alter.
  - apply stays_cancelled_refl.
Qed.

Lemma touch_entry_stays_cancelled w a e :
  stays_cancelled (heap a) (heap (touch_entry w a e)).
Proof.
  destruct e as [key r]. unfold touch_entry.
  destruct (heap a !! r) as [s|]; [|apply stays_cancelled_refl].
  destruct (isActive s); cbn; [|apply stays_cancelled_refl].
  by apply stays_cancelled_alter.
Qed.

Lemma check_entry_stays_cancelled w a e :
  stays_cancelled (heap a) (heap (check_entry w a e)).
Proof.
  destruct e as [key r]. unfold check_entry.
  destruct (heap a !! r) as [s|]; [|apply stays_cancelled_refl].
  destruct (isActive s); cbn; [|apply stays_cancelled_refl].
  destruct (awaitBalance w key (target s)) as [balance|error]; cbn.
  - destruct (balance <? 600000000 * 2); cbn; by apply stays_cancelled_alter.
  - apply stays_cancelled_refl.
Qed.

Lemma step_stays_cancelled a op : stays_cancelled (heap a) (heap (step a op)).
Proof.
  destruct op as [params w|strategyId| |strategyId w|w|w]; cbn [step].
  - apply createAutoTopupStrategy_stays_cancelled.
  - apply cancelStrategy_stays_cancelled.
  - apply stays_cancelled_refl.
  - apply stays_cancelled_refl.
  - apply stays_cancelled_foldl, check_entry_stays_cancelled.
  - apply stays_cancelled_foldl, touch_entry_stays_cancelled.
Qed.

Lemma run_stays_cancelled a ops : stays_cancelled (heap a) (heap (run a ops)).
Proof. apply stays_cancelled_foldl, step_stays_cancelled. Qed.

(** C5: no operation turns the [isActive] field of a strategy record from
    false to true.  A record that is inactive in some state is inactive after
    every sequence of operations (create, cancel, list, status check, periodic
    check, performance update) run from that state; a record is created with
    [isActive = true]; cancelling it sets the field to false. *)
Theorem isActive_only_falls (a : Agent) :
  (∀ ops r strategy,
     heap a !! r = Some strategy → isActive strategy = false →
     ∃ strategy', heap (run a ops) !! r = Some strategy' ∧ isActive strategy' = false) ∧
  (∀ params w r,
     res_strategy (createAutoTopupStrategy params w a).2 = Some r →
     ∃ strategy,
       heap (createAutoTopupStrategy params w a).1 !! r = Some strategy ∧
       isActive strategy = true) ∧
  (∀ strategyId r strategy,
     strategies_get strategyId a = Some (r, strategy) →
     success (cancelStrategy strategyId a).2 = true ∧
     ∃ strategy',
       heap (cancelStrategy strategyId a).1 !! r = Some strategy' ∧
       isActive strategy' = false).
Proof.
  split_and!.
  - intros ops r s Hr Hoff.
    destruct (run_stays_cancelled a ops r s Hr) as (s' & Hr' & Hs').
    exists s'. auto.
  - intros params w r. unfold createAutoTopupStrategy.
    destruct (isValidAddress _); cbn; [|done].
    destruct (performPreDeploymentChecks _).
    destruct (deployRealAutomation w); cbn; intros [= <-]; eexists;
      (split; [apply list_lookup_middle; by rewrite ?app_nil_r | done]).
  - intros strategyId r s Hget. unfold cancelStrategy. rewrite Hget. cbn.
    split; [done|]. exists (set_isActive false s).
    rewrite list_lookup_alter_eq. unfold strategies_get in Hget.
    destruct (JsMap.get strategyId (strategies a)) as [r0|]; [|done]. cbn in Hget.
    destruct (heap a !! r0) as [s0|] eqn:Hr0; [|done]. cbn in Hget.
    injection Hget as -> ->. by rewrite Hr0.
Qed.

Lemma isActive_only_falls_witness :
  let a :=
    (cancelStrategy "topup_1700000000000"
       (createAutoTopupStrategy sample_params sample_rejected (initial 0)).1).1 in
  let ops :=
    [ Create sample_params sample_rejected; PeriodicCheck sample_monitor;
      PerformanceUpdate sample_monitor; Cancel "topup_1700000000000";
      CheckStatus None sample_monitor; ListActive ] in
  ∃ strategy', heap (run a ops) !! 0%nat = Some strategy' ∧ isActive strategy' = false.
Proof.
  exact (proj1 (isActive_only_falls
           (cancelStrategy "topup_1700000000000"
              (createAutoTopupStrategy sample_params sample_rejected (initial 0)).1).1)
           [ Create sample_params sample_rejected; PeriodicCheck sample_monitor;
             PerformanceUpdate sample_monitor; Cancel "topup_1700000000000";
             CheckStatus None sample_monitor; ListActive ]
           0%nat (set_isActive false sample_strategy) eq_refl eq_refl).
Defined.

(** ** The monitor pass *)

Lemma alter_agree {A} (f g : A → A) (l : list A) (i : nat) :
  (∀ x, l !! i = Some x → f x = g x) → alter f i l = alter g i l.
Proof.
  intros Hfg. apply list_eq. intros j. destruct (decide (i = j)) as [<-|Hne].
  - rewrite !list_lookup_alter_eq. destruct (l !! i) as [x|] eqn:Hx; [|done].
    cbn. by rewrite (Hfg x).
  - by rewrite !list_lookup_alter_ne.
Qed.

Lemma alter_same {A} (f : A → A) (l : list A) (i : nat) :
  (∀ x, l !! i = Some x → f x = x) → alter f i l = l.
Proof.
  intros Hf. apply list_eq. intros j. destruct (decide (i = j)) as [<-|Hne].
  - rewrite list_lookup_alter_eq. destruct (l !! i) as [x|] eqn:Hx; [|done].
    cbn. by rewrite (Hf x).
  - by rewrite list_lookup_alter_ne.
Qed.

Section monitor_pass.
Context (w : MonitorWorld).

Lemma check_entry_heap a key r :
  heap (check_entry w a (key, r)) = alter (visited w key) r (heap a).
Proof.
  unfold check_entry. destruct (heap a !! r) as [s|] eqn:Hr.
  - destruct (isActive s) eqn:Hs; cbn.
    + destruct (awaitBalance w key (target s)) as [balance|error] eqn:Hb; cbn.
      * assert (∀ b : bool, heap (if b then emit (lowBalanceAlert r balance) a else a) = heap a)
          as -> by (by intros []).
        apply alter_agree. intros x Hx. assert (x = s) as -> by congruence.
        unfold visited. by rewrite Hs, Hb.
      * symmetry. apply alter_same. intros x Hx. assert (x = s) as -> by congruence.
        unfold visited. by rewrite Hs, Hb.
    + symmetry. apply alter_same. intros x Hx. assert (x = s) as -> by congruence.
      unfold visited. by rewrite Hs.
  - symmetry. apply alter_same. intros x Hx. congruence.
Qed.

Lemma check_entry_emitted a key r :
  emitted (check_entry w a (key, r)) = emitted a ++ announced w (heap a) (key, r).
Proof.
  unfold check_entry, announced. cbn [fst snd].
  destruct (heap a !! r) as [s|]; [|by rewrite app_nil_r].
  destruct (isActive s); cbn; [|by rewrite app_nil_r].
  destruct (awaitBalance w key (target s)) as [balance|error]; cbn; [|done].
  change (600000000 * 2) with 1200000000.
  destruct (balance <? 1200000000); cbn; [done|by rewrite app_nil_r].
Qed.

Lemma check_entry_strategies a key r :
  JsMap.get key (strategies a) = Some r →
  strategies (check_entry w a (key, r)) = strategies a.
Proof.
  intros Hget. unfold check_entry.
  destruct (heap a !! r) as [s|]; [|done].
  destruct (isActive s); cbn; [|done].
  destruct (awaitBalance w key (target s)) as [balance|error]; cbn; [|done].
  assert (∀ b : bool,
    strategies (if b then emit (lowBalanceAlert r balance) a else a) = strategies a)
    as -> by (by intros []).
  by apply set_present.
Qed.

Lemma check_entry_metrics a entry :
  performanceMetrics (check_entry w a entry) = performanceMetrics a.
Proof.
  destruct entry as [key r]. unfold check_entry.
  destruct (heap a !! r) as [s|]; [|done].
  destruct (isActive s); cbn; [|done].
  destruct (awaitBalance w key (target s)) as [balance|error]; cbn; [|done].
  by destruct (balance <? 600000000 * 2).
Qed.

Lemma visited_observables key s :
  isActive (visited w key s) = isActive s ∧ target (visited w key s) = target s.
Proof.
  unfold visited. destruct (isActive s) eqn:Hs; [|done].
  by destruct (awaitBalance w key (target s)).
Qed.

Lemma announced_alter h key r entry :
  announced w (alter (visited w key) r h) entry = announced w h entry.
Proof.
  unfold announced. destruct (decide (r = entry.2)) as [<-|Hne].
  - rewrite list_lookup_alter_eq. destruct (h !! r) as [s|]; [|done]. cbn.
    destruct (visited_observables key s) as [-> ->]. done.
  - by rewrite list_lookup_alter_ne.
Qed.

Lemma pass_strategies l a :
  (∀ key r, (key, r) ∈ l → JsMap.get key (strategies a) = Some r) →
  strategies (foldl (check_entry w) a l) = strategies a.
Proof.
  revert a. induction l as [|[key r] l IH]; intros a Hl; cbn [foldl]; [done|].
  assert (strategies (check_entry w a (key, r)) = strategies a) as Hstep.
  { apply check_entry_strategies, Hl, list_elem_of_here. }
  rewrite IH, Hstep; [done|]. intros key' r' Hin. rewrite Hstep.
  by apply Hl, list_elem_of_further.
Qed.

Lemma pass_metrics l a :
  performanceMetrics (foldl (check_entry w) a l) = performanceMetrics a.
Proof.
  revert a. induction l as [|e l IH]; intros a; cbn [foldl]; [done|].
  by rewrite IH, check_entry_metrics.
Qed.

Lemma pass_emitted l a :
  emitted (foldl (check_entry w) a l) = emitted a ++ (l ≫= announced w (heap a)).
Proof.
  revert a. induction l as [|[key r] l IH]; intros a; cbn [foldl].
  - by rewrite app_nil_r.
  - rewrite IH, check_entry_emitted, check_entry_heap, <-app_assoc. f_equal.
    cbn. f_equal. apply list_bind_ext; [|done]. intros entry.
    apply announced_alter.
Qed.

Lemma pass_heap_elsewhere l a r :
  r ∉ l.*2 → heap (foldl (check_entry w) a l) !! r = heap a !! r.
Proof.
  revert a. induction l as [|[key r'] l IH]; intros a Hr; cbn [foldl]; [done|].
  cbn in Hr. apply not_elem_of_cons in Hr as [Hne Hr].
  rewrite IH, check_entry_heap by done. by rewrite list_lookup_alter_ne.
Qed.

Lemma pass_heap_visited l a key r :
  NoDup l.*2 → (key, r) ∈ l →
  heap (foldl (check_entry w) a l) !! r = visited w key <$> heap a !! r.
Proof.
  revert a. induction l as [|[key' r'] l IH]; intros a Hnd Hin; cbn [foldl].
  - by apply elem_of_nil in Hin.
  - cbn in Hnd. apply NoDup_cons in Hnd as [Hr' Hnd].
    apply elem_of_cons in Hin as [Heq|Hin].
    + injection Heq as <- <-.
      rewrite pass_heap_elsewhere by done.
      by rewrite check_entry_heap, list_lookup_alter_eq.
    + rewrite IH by done. rewrite check_entry_heap.
      rewrite list_lookup_alter_ne; [done|]. intros ->. apply Hr'.
      apply list_elem_of_fmap. by exists (key, r).
Qed.

End monitor_pass.

Section monitor_events.
Context (w : MonitorWorld).

Lemma announced_lowBalanceAlert h entry r balance :
  lowBalanceAlert r balance ∈ announced w h entry →
  entry.2 = r ∧
  ∃ s, h !! r = Some s ∧ isActive s = true ∧
       awaitBalance w entry.1 (target s) = Resolved balance ∧ balance < 1200000000.
Proof.
  unfold announced. destruct (h !! entry.2) as [s|] eqn:Hr.
  - destruct (isActive s) eqn:Hs.
    + destruct (awaitBalance w entry.1 (target s)) as [b|e] eqn:Hb.
      * destruct (Z.ltb_spec b 1200000000) as [Hlt|Hge].
        -- intros [= -> ->]%list_elem_of_singleton. split; [done|].
           exists s. by split_and!.
        -- intros Hin. by apply elem_of_nil in Hin.
      * intros [=]%list_elem_of_singleton.
    + intros Hin. by apply elem_of_nil in Hin.
  - intros Hin. by apply elem_of_nil in Hin.
Qed.

Lemma announced_strategyError h entry key error :
  strategyError key error ∈ announced w h entry →
  entry.1 = key ∧
  ∃ s, h !! entry.2 = Some s ∧ isActive s = true ∧
       awaitBalance w key (target s) = Rejected error.
Proof.
  unfold announced. destruct (h !! entry.2) as [s|] eqn:Hr.
  - destruct (isActive s) eqn:Hs.
    + destruct (awaitBalance w entry.1 (target s)) as [b|e] eqn:Hb.
      * destruct (b <? 1200000000).
        -- intros [=]%list_elem_of_singleton.
        -- intros Hin. by apply elem_of_nil in Hin.
      * intros [= -> ->]%list_elem_of_singleton. split; [done|].
           exists s. by split_and!.
    + intros Hin. by apply elem_of_nil in Hin.
  - intros Hin. by apply elem_of_nil in Hin.
Qed.

Lemma announced_quiet h (l : list (string * ref)) :
  (∀ key r s, (key, r) ∈ l → h !! r = Some s → isActive s = true →
     ∃ balance, awaitBalance w key (target s) = Resolved balance) →
  filter (λ e, is_strategyError e = true) (l ≫= announced w h) = [].
Proof.
  induction l as [|[key r] l IH]; intros Hl; [done|].
  rewrite bind_cons, filter_app, IH.
  - rewrite app_nil_r. unfold announced. cbn [fst snd].
    destruct (h !! r) as [s|] eqn:Hr; [|done].
    destruct (isActive s) eqn:Hs; [|done].
    destruct (Hl key r s) as [b ->]; [apply list_elem_of_here|done..|].
    by destruct (b <? 1200000000).
  - intros key' r' s' Hin. apply Hl. by apply list_elem_of_further.
Qed.

End monitor_events.

(** C6: in a state whose store holds active strategies of which exactly one
    has a throwing balance fetch, one pass of [runPeriodicCheck] refreshes
    [lastChecked] of every other active strategy (those before and those after
    the failing one), emits exactly one [strategyError], the one of the
    failing strategy, leaves inactive records untouched and emits nothing for
    them, and emits [lowBalanceAlert] for an active strategy if and only if
    its fetched balance is strictly below 2 x 600_000_000. *)
Theorem runPeriodicCheck_isolates_failure (w : MonitorWorld) (a : Agent)
    (before after : list (string * ref)) (key0 : string) (r0 : ref)
    (failing : AutomationStrategy) (error : string) :
  wf a →
  strategies a = before ++ (key0, r0) :: after →
  heap a !! r0 = Some failing →
  isActive failing = true →
  awaitBalance w key0 (target failing) = Rejected error →
  (∀ key r s, (key, r) ∈ before ++ after → heap a !! r = Some s →
     isActive s = true → ∃ balance, awaitBalance w key (target s) = Resolved balance) →
  let a' := runPeriodicCheck w a in
  ∃ new,
    emitted a' = emitted a ++ new ∧
    strategies a' = strategies a ∧
    (∀ key r s, (key, r) ∈ before ++ after → heap a !! r = Some s →
       isActive s = true →
       heap a' !! r = Some (set_lastChecked (iteration_Date w key) s)) ∧
    filter (λ e, is_strategyError e = true) new = [strategyError key0 error] ∧
    heap a' !! r0 = Some failing ∧
    (∀ key r s, (key, r) ∈ strategies a → heap a !! r = Some s →
       isActive s = false →
       heap a' !! r = Some s ∧
       (∀ balance, lowBalanceAlert r balance ∉ new) ∧
       (∀ e, strategyError key e ∉ new)) ∧
    (∀ key r s balance, (key, r) ∈ strategies a → heap a !! r = Some s →
       isActive s = true → awaitBalance w key (target s) = Resolved balance →
       ∀ b, lowBalanceAlert r b ∈ new ↔ b = balance ∧ balance < 2 * 600000000).
Proof.
  intros [Hkeys Hrefs Hbound] Hsplit Hr0 Hactive0 Hthrow Hothers. cbv zeta.
  unfold runPeriodicCheck. exists (strategies a ≫= announced w (heap a)).
  assert (∀ key r, (key, r) ∈ before ++ after → (key, r) ∈ strategies a) as Hsub.
  { intros key r. rewrite Hsplit, !elem_of_app, elem_of_cons. tauto. }
  assert ((key0, r0) ∈ strategies a) as Hin0.
  { rewrite Hsplit, elem_of_app, elem_of_cons. tauto. }
  split_and!.
  - apply pass_emitted.
  - apply pass_strategies. intros key r Hin. by apply elem_get_Some.
  - intros key r s Hin Hr Hs.
    rewrite (pass_heap_visited w _ _ key r Hrefs (Hsub _ _ Hin)), Hr. cbn.
    destruct (Hothers key r s Hin Hr Hs) as [b Hb].
    unfold visited. by rewrite Hs, Hb.
  - rewrite Hsplit, bind_app, bind_cons, !filter_app.
    rewrite !announced_quiet.
    + unfold announced. cbn [fst snd]. rewrite Hr0, Hactive0, Hthrow. done.
    + intros key r s Hin. apply Hothers. apply elem_of_app. by right.
    + intros key r s Hin. apply Hothers. apply elem_of_app. by left.
  - rewrite (pass_heap_visited w _ _ key0 r0 Hrefs Hin0), Hr0. cbn.
    unfold visited. by rewrite Hactive0, Hthrow.
  - intros key r s Hin Hr Hs. split_and!.
    + rewrite (pass_heap_visited w _ _ key r Hrefs Hin), Hr. cbn.
      unfold visited. by rewrite Hs.
    + intros b (entry & Hev & _)%list_elem_of_bind.
      apply announced_lowBalanceAlert in Hev as (_ & s' & Hr' & Hs' & _).
      congruence.
    + intros e (entry & Hev & Hentry)%list_elem_of_bind.
      apply announced_strategyError in Hev as (Hk & s' & Hr' & Hs' & _).
      destruct entry as [key' r']. cbn in Hk, Hr'. subst key'.
      assert (r' = r) as ->.
      { apply (elem_get_Some _ _ _ Hkeys) in Hentry, Hin. congruence. }
      congruence.
  - intros key r s balance Hin Hr Hs Hb b. split.
    + intros (entry & Hev & Hentry)%list_elem_of_bind.
      apply announced_lowBalanceAlert in Hev as (Hr' & s' & Hs' & _ & Hb' & Hlt).
      destruct entry as [key' r']. cbn in Hr', Hb'. subst r'.
      assert (key' = key) as -> by (by eapply elem_values_inj).
      assert (s' = s) as -> by congruence.
      assert (b = balance) as -> by congruence. split; [done|lia].
    + intros [-> Hlt]. apply list_elem_of_bind. exists (key, r). split; [|done].
      unfold announced. cbn [fst snd]. rewrite Hr, Hs, Hb.
      destruct (Z.ltb_spec balance 1200000000); [apply list_elem_of_here | lia].
Qed.

Lemma sample_agent_wf : wf sample_agent.
Proof.
  split; [compute_done | compute_done |]. apply Forall_forall. compute_done.
Qed.

Lemma sample_others_resolve key r s :
  (key, r) ∈
    [("topup_1700000000000", 0%nat)] ++
    [("topup_1700000000002", 2%nat); ("topup_1700000000003", 3%nat)] →
  heap sample_agent !! r = Some s →
  isActive s = true →
  ∃ balance, awaitBalance sample_monitor key (target s) = Resolved balance.
Proof.
  cbn [app]. rewrite !elem_of_cons, elem_of_nil.
  intros [[= -> ->]|[[= -> ->]|[[= -> ->]|[]]]] Hr Hs; vm_compute; eauto.
Qed.

Lemma runPeriodicCheck_isolates_failure_witness :
  let w := sample_monitor in
  let a := sample_agent in
  let before := [("topup_1700000000000", 0%nat)] in
  let after := [("topup_1700000000002", 2%nat); ("topup_1700000000003", 3%nat)] in
  let failing :=
    simulated_strategy "topup_1700000000001" sample_params 4242 1700000000003 in
  let a' := runPeriodicCheck w a in
  ∃ new,
    emitted a' = emitted a ++ new ∧
    strategies a' = strategies a ∧
    (∀ key r s, (key, r) ∈ before ++ after → heap a !! r = Some s →
       isActive s = true →
       heap a' !! r = Some (set_lastChecked (iteration_Date w key) s)) ∧
    filter (λ e, is_strategyError e = true) new =
      [strategyError "topup_1700000000001" "fetch failed"] ∧
    heap a' !! 1%nat = Some failing ∧
    (∀ key r s, (key, r) ∈ strategies a → heap a !! r = Some s →
       isActive s = false →
       heap a' !! r = Some s ∧
       (∀ balance, lowBalanceAlert r balance ∉ new) ∧
       (∀ e, strategyError key e ∉ new)) ∧
    (∀ key r s balance, (key, r) ∈ strategies a → heap a !! r = Some s →
       isActive s = true → awaitBalance w key (target s) = Resolved balance →
       ∀ b, lowBalanceAlert r b ∈ new ↔ b = balance ∧ balance < 2 * 600000000).
Proof.
  exact (runPeriodicCheck_isolates_failure sample_monitor sample_agent
           [("topup_1700000000000", 0%nat)]
           [("topup_1700000000002", 2%nat); ("topup_1700000000003", 3%nat)]
           "topup_1700000000001" 1%nat
           (simulated_strategy "topup_1700000000001" sample_params 4242 1700000000003)
           "fetch failed"
           sample_agent_wf eq_refl eq_refl eq_refl eq_refl sample_others_resolve).
Defined.

(** The pass of the witness, run: the first strategy is low and is refreshed,
    the second fails and is reported, the third is comfortable and is
    refreshed, the cancelled fourth is skipped. *)
Example runPeriodicCheck_sample_run :
  let a' := runPeriodicCheck sample_monitor sample_agent in
  emitted a' =
    [ lowBalanceAlert 0%nat 900000000;
      strategyError "topup_1700000000001" "fetch failed" ] ∧
  lastChecked <$> heap a' =
    [ Some 1700000600000; None; Some 1700000600000; None ] ∧
  isActive <$> heap a' = [ true; true; true; false ].
Proof. by vm_compute. Qed.

(** The shipped [getAccountBalance] turns a rejection of the SDK into a
    synthetic amount below 100 SUPRA, so with it at the call site the loop
    sees a resolved balance that is below twice the threshold. *)
Lemma getAccountBalance_fallback_is_low (error : string) (random : Z) :
  0 ≤ getAccountBalance (Rejected error) random < 100000000 ∧
  getAccountBalance (Rejected error) random < 2 * 600000000.
Proof.
  unfold getAccountBalance.
  pose proof (Z.mod_pos_bound random 100000000 ltac:(lia)). lia.
Qed.

(** With the shipped [getAccountBalance] at the call site no iteration reaches
    the [catch]: every active strategy is refreshed, no [strategyError] is
    emitted, and a strategy whose SDK query rejected is announced as low on the
    synthetic amount. *)
Lemma runPeriodicCheck_shipped_fallback sdk random date a :
  wf a →
  let w := shipped_monitor sdk random date in
  let a' := runPeriodicCheck w a in
  ∃ new,
    emitted a' = emitted a ++ new ∧
    filter (λ e, is_strategyError e = true) new = [] ∧
    (∀ key r s, (key, r) ∈ strategies a → heap a !! r = Some s →
       isActive s = true →
       heap a' !! r = Some (set_lastChecked (date key) s) ∧
       (∀ error, sdk key (target s) = Rejected error →
          lowBalanceAlert r (random key `mod` 100000000) ∈ new)).
Proof.
  intros [Hkeys Hrefs Hbound]. cbv zeta. unfold runPeriodicCheck.
  exists (strategies a ≫= announced (shipped_monitor sdk random date) (heap a)).
  split_and!.
  - apply pass_emitted.
  - apply announced_quiet. intros key r s _ _ _. by eexists.
  - intros key r s Hin Hr Hs. split.
    + rewrite (pass_heap_visited _ _ _ key r Hrefs Hin), Hr. cbn.
      unfold visited. by rewrite Hs.
    + intros error Hsdk. apply list_elem_of_bind. exists (key, r). split; [|done].
      unfold announced. cbn [fst snd awaitBalance shipped_monitor].
      rewrite Hr, Hs, Hsdk.
      pose proof (getAccountBalance_fallback_is_low error (random key)) as [_ Hlow].
      cbn [getAccountBalance] in Hlow |- *.
      destruct (Z.ltb_spec (random key `mod` 100000000) 1200000000);
        [apply list_elem_of_here | lia].
Qed.

(** ** Creation in simulation mode *)

(** C3 (the code at the failing input): when the address is valid and the
    deployment rejects, the record is stored with [isActive = true] and the
    result reports SIMULATION, but the creation counter is not incremented and
    no [strategyCreated] is emitted; the branch for a resolved deployment
    does both. *)
Theorem createAutoTopupStrategy_simulation_uncounted (params : CreateParams)
    (w : CreateWorld) (a : Agent) (deployError : string) :
  isValidAddress (targetAddress params) = true →
  deployRealAutomation w = Rejected deployError →
  let '(a', result) := createAutoTopupStrategy params w a in
  success result = true ∧
  res_mode result = Some SIMULATION ∧
  (∃ strategy, heap a' = heap a ++ [strategy] ∧ isActive strategy = true) ∧
  totalStrategiesCreated (performanceMetrics a') =
    totalStrategiesCreated (performanceMetrics a) ∧
  emitted a' = emitted a.
Proof.
  intros Hok Hdeploy.
  pose proof (createAutoTopupStrategy_simulated params w a deployError Hok Hdeploy) as H.
  cbv zeta in H. destruct (createAutoTopupStrategy params w a) as [a' result].
  destruct H as (Hh & _ & Hpm & Hev & Hs & Hmode & _).
  split_and!; try done.
  - eexists. by split.
  - by rewrite Hpm.
Qed.

Lemma createAutoTopupStrategy_simulation_uncounted_witness :
  let '(a', result) := createAutoTopupStrategy sample_params sample_rejected (initial 0) in
  success result = true ∧
  res_mode result = Some SIMULATION ∧
  (∃ strategy, heap a' = [] ++ [strategy] ∧ isActive strategy = true) ∧
  totalStrategiesCreated (performanceMetrics a') = 0 ∧
  emitted a' = [].
Proof.
  exact (createAutoTopupStrategy_simulation_uncounted sample_params sample_rejected
           (initial 0) "Insufficient balance" eq_refl eq_refl).
Defined.

(** The sibling branch on the same input with the deployment resolved. *)
Example createAutoTopupStrategy_deployed_counted :
  let '(a', result) := createAutoTopupStrategy sample_params sample_deployed (initial 0) in
  res_mode result = Some REAL_DEPLOYMENT ∧
  totalStrategiesCreated (performanceMetrics a') = 1 ∧
  emitted a' = [strategyCreated 0%nat].
Proof. by vm_compute. Qed.

(** [strategyCreationFailed] is emitted by a create call exactly when the
    address check rejected the input. *)
Lemma strategyCreationFailed_iff_invalid params w a :
  (∃ error name address,
     emitted (createAutoTopupStrategy params w a).1 =
       emitted a ++ [strategyCreationFailed error name address]) ↔
  isValidAddress (targetAddress params) = false.
Proof.
  unfold createAutoTopupStrategy. destruct (isValidAddress _); cbn.
  - split; [|done]. intros (e & n & t & He).
    destruct (performPreDeploymentChecks _).
    destruct (deployRealAutomation w); cbn in He.
    + apply app_inv_head in He. discriminate.
    + rewrite <-(app_nil_r (emitted a)) in He at 1. apply app_inv_head in He.
      discriminate.
  - split; [done|]. intros _. by eexists _, _, _.
Qed.

(** ** Strategy identifiers *)

Lemma make_strategyId_inj t1 t2 : make_strategyId t1 = make_strategyId t2 → t1 = t2.
Proof.
  unfold make_strategyId. intros H. apply (inj (String.app "topup_")) in H.
  by apply (inj pretty) in H.
Qed.

(** ** Reachable states are well formed *)

Section JsMap_set_shape.
Context {V : Type}.
Implicit Types (m : list (string * V)) (k : string) (v : V).

Lemma NoDup_keys_set m k v :
  NoDup (JsMap.keys m) → NoDup (JsMap.keys (JsMap.set k v m)).
Proof.
  intros Hnd. destruct (JsMap.get k m) as [v0|] eqn:Hget.
  - by rewrite keys_set_present.
  - rewrite (set_absent _ _ _ Hget). unfold JsMap.keys in *. rewrite fmap_app.
    apply NoDup_app. split_and!; [done| |apply NoDup_singleton].
    intros x Hx ->%list_elem_of_singleton. by apply get_None_keys in Hget.
Qed.

Lemma values_set_elem m k v x :
  x ∈ JsMap.values (JsMap.set k v m) → x = v ∨ x ∈ JsMap.values m.
Proof.
  unfold JsMap.values. induction m as [|[k' v'] m IH]; cbn.
  - intros ->%list_elem_of_singleton. by left.
  - destruct (decide (k = k')) as [->|Hne]; cbn; rewrite !elem_of_cons; [tauto|].
    intros [->|Hin]; [tauto|]. destruct (IH Hin); tauto.
Qed.

Lemma NoDup_values_set m k v :
  NoDup (JsMap.values m) → v ∉ JsMap.values m →
  NoDup (JsMap.values (JsMap.set k v m)).
Proof.
  unfold JsMap.values. induction m as [|[k' v'] m IH]; cbn.
  - intros _ _. apply NoDup_singleton.
  - intros [Hv' Hnd]%NoDup_cons [Hne Hv]%not_elem_of_cons.
    destruct (decide (k = k')) as [->|Hk]; cbn; apply NoDup_cons.
    + done.
    + split; [|by apply IH]. intros [->|Hin]%values_set_elem; [done|].
      by apply Hv'.
Qed.

End JsMap_set_shape.

Lemma foldl_keeps_strategies (body : Agent → string * nat → Agent) l a :
  (∀ a key r, JsMap.get key (strategies a) = Some r →
     strategies (body a (key, r)) = strategies a) →
  (∀ key r, (key, r) ∈ l → JsMap.get key (strategies a) = Some r) →
  strategies (foldl body a l) = strategies a.
Proof.
  intros Hbody. revert a. induction l as [|[key r] l IH]; intros a Hl; cbn [foldl]; [done|].
  assert (strategies (body a (key, r)) = strategies a) as Hstep.
  { apply Hbody, Hl, list_elem_of_here. }
  rewrite IH, Hstep; [done|]. intros key' r' Hin. rewrite Hstep.
  by apply Hl, list_elem_of_further.
Qed.

Lemma touch_entry_strategies w a key r :
  JsMap.get key (strategies a) = Some r →
  strategies (touch_entry w a (key, r)) = strategies a.
Proof.
  intros Hget. unfold touch_entry.
  destruct (heap a !! r) as [s|]; [|done].
  destruct (isActive s); cbn; [|done]. by apply set_present.
Qed.

Lemma strategies_get_Some strategyId a r s :
  strategies_get strategyId a = Some (r, s) →
  JsMap.get strategyId (strategies a) = Some r ∧ heap a !! r = Some s.
Proof.
  unfold strategies_get.
  destruct (JsMap.get strategyId (strategies a)) as [r0|]; [|done]. cbn.
  destruct (heap a !! r0) as [s0|] eqn:Hr0; [|done]. cbn.
  by intros [= <- <-].
Qed.

(** What an operation does to the map: only a create that passes the address
    check writes a binding. *)
Lemma step_strategies a op :
  NoDup (JsMap.keys (strategies a)) →
  strategies (step a op) =
    match op with
    | Create params w =>
        if isValidAddress (targetAddress params)
        then JsMap.set (make_strategyId (Date_now w)) (length (heap a)) (strategies a)
        else strategies a
    | _ => strategies a
    end.
Proof.
  intros Hkeys. destruct op as [params w|strategyId| |strategyId w|w|w]; cbn [step]; try done.
  - unfold createAutoTopupStrategy. destruct (isValidAddress _); cbn; [|done].
    destruct (performPreDeploymentChecks _). by destruct (deployRealAutomation w).
  - unfold cancelStrategy.
    destruct (strategies_get strategyId a) as [[r s]|] eqn:Hget; cbn; [|done].
    apply strategies_get_Some in Hget as [Hget _]. by apply set_present.
  - apply pass_strategies. intros key r Hin. by apply elem_get_Some.
  - apply foldl_keeps_strategies.
    + intros a' key r. apply touch_entry_strategies.
    + intros key r Hin. by apply elem_get_Some.
Qed.

Lemma step_heap_create params w a :
  isValidAddress (targetAddress params) = true →
  length (heap (step a (Create params w))) = S (length (heap a)).
Proof.
  intros Hok. cbn [step]. unfold createAutoTopupStrategy. rewrite Hok. cbn.
  destruct (performPreDeploymentChecks _).
  destruct (deployRealAutomation w); cbn; rewrite length_app; cbn; lia.
Qed.

Lemma step_heap_bound a op r :
  (r < length (heap a))%nat → (r < length (heap (step a op)))%nat.
Proof.
  intros [s Hs]%lookup_lt_is_Some.
  destruct (step_stays_cancelled a op r s Hs) as (s' & Hs' & _).
  by apply lookup_lt_Some in Hs'.
Qed.

Lemma wf_initial startTime : wf (initial startTime).
Proof.
  split; cbn; [apply NoDup_nil_2 | apply NoDup_nil_2 |].
  intros r Hr. by apply elem_of_nil in Hr.
Qed.

Lemma wf_step a op : wf a → wf (step a op).
Proof.
  intros [Hkeys Hrefs Hbound].
  assert (length (heap a) ∉ JsMap.values (strategies a)) as Hfresh.
  { intros Hin%Hbound. lia. }
  split.
  - rewrite step_strategies by done. destruct op; try done.
    destruct (isValidAddress _); [by apply NoDup_keys_set | done].
  - rewrite step_strategies by done. destruct op; try done.
    destruct (isValidAddress _); [by apply NoDup_values_set | done].
  - intros r. rewrite step_strategies by done.
    destruct op as [params w|strategyId| |strategyId w|w|w];
      try (intros Hr; by apply step_heap_bound, Hbound).
    destruct (isValidAddress _) eqn:Hok;
      [|intros Hr; by apply step_heap_bound, Hbound].
    intros [->|Hr]%values_set_elem.
    + rewrite step_heap_create by done. lia.
    + by apply step_heap_bound, Hbound.
Qed.

Lemma wf_run a ops : wf a → wf (run a ops).
Proof.
  revert a. induction ops as [|op ops IH]; intros a Hwf; [done|].
  apply IH, wf_step, Hwf.
Qed.

Lemma reachable_wf a : reachable a → wf a.
Proof. intros (startTime & ops & ->). apply wf_run, wf_initial. Qed.

(** Read per id: a cancelled id stays bound to its inactive record along every
    run in which no create is assigned that id again. *)
Lemma cancelled_id_stays_inactive a ops strategyId r s :
  wf a →
  strategies_get strategyId a = Some (r, s) →
  isActive s = false →
  Forall (λ t, make_strategyId t ≠ strategyId) (create_readings ops) →
  ∃ s', strategies_get strategyId (run a ops) = Some (r, s') ∧ isActive s' = false.
Proof.
  revert a s. induction ops as [|op ops IH]; intros a s Hwf Hget Hoff Hids.
  - by exists s.
  - change (run a (op :: ops)) with (run (step a op) ops).
    apply strategies_get_Some in Hget as [Hkey Hcell].
    destruct (step_stays_cancelled a op r s Hcell) as (s1 & Hcell1 & Hoff1).
    assert (JsMap.get strategyId (strategies (step a op)) = Some r ∧
            Forall (λ t, make_strategyId t ≠ strategyId) (create_readings ops))
      as [Hkey1 Hids1].
    { rewrite step_strategies by apply Hwf.
      destruct op as [params w|?| |? ?|?|?]; cbn [create_readings] in Hids; try done.
      destruct (isValidAddress (targetAddress params)); [|done].
      apply Forall_cons in Hids as [Hne Hids]. by rewrite get_set_ne. }
    apply (IH (step a op) s1); [by apply wf_step | | by apply Hoff1 | done].
    unfold strategies_get. rewrite Hkey1. cbn. by rewrite Hcell1.
Qed.

(** The keys of the store along a run whose creates read distinct clocks. *)
Lemma run_keys a ops readings :
  JsMap.keys (strategies a) = make_strategyId <$> readings →
  NoDup (readings ++ create_readings ops) →
  JsMap.keys (strategies (run a ops)) =
    make_strategyId <$> (readings ++ create_readings ops).
Proof.
  revert a readings. induction ops as [|op ops IH]; intros a readings Hkeys Hnd.
  - cbn. by rewrite app_nil_r.
  - assert (NoDup (JsMap.keys (strategies a))) as Hnd_keys.
    { rewrite Hkeys. apply NoDup_fmap_2.
      - intros t1 t2. apply make_strategyId_inj.
      - by apply NoDup_app in Hnd as [? _]. }
    change (run a (op :: ops)) with (run (step a op) ops).
    pose proof (step_strategies a op Hnd_keys) as Hstep.
    destruct op as [params w|strategyId| |strategyId w|w|w];
      try (cbn [create_readings] in *; apply IH; [by rewrite Hstep | done]).
    cbn [create_readings] in *.
    destruct (isValidAddress (targetAddress params)); [|apply IH; [by rewrite Hstep | done]].
    replace (readings ++ Date_now w :: create_readings ops)
      with ((readings ++ [Date_now w]) ++ create_readings ops) in *
      by (by rewrite <-app_assoc).
    apply IH; [|done]. rewrite Hstep, set_absent.
    + unfold JsMap.keys in *. by rewrite !fmap_app, Hkeys.
    + apply get_None_keys. rewrite Hkeys.
      intros (t & Ht%make_strategyId_inj & Hin)%list_elem_of_fmap. subst t.
      apply NoDup_app in Hnd as [Hnd _]. apply NoDup_app in Hnd as (_ & Hdisj & _).
      apply (Hdisj _ Hin). apply list_elem_of_here.
Qed.

(** C4 (amended): the id of a create call is [topup_] followed by the
    millisecond reading of the clock at the call, so two create calls are
    assigned distinct ids exactly when their readings differ.  A successful
    create whose id is not yet a key of the store appends its entry and keeps
    every existing entry in place.  In every run from a fresh agent in which
    the successful create calls read pairwise distinct clock values, the keys
    of the store are the ids of those calls, one entry each, in call order:
    no id is reused and no entry is overwritten. *)
Theorem strategy_ids_distinct_iff_readings_differ :
  (∀ t1 t2, make_strategyId t1 ≠ make_strategyId t2 ↔ t1 ≠ t2) ∧
  (∀ params w a,
     isValidAddress (targetAddress params) = true →
     let strategyId := make_strategyId (Date_now w) in
     let '(a', result) := createAutoTopupStrategy params w a in
     res_strategyId result = Some strategyId ∧
     (JsMap.get strategyId (strategies a) = None →
        strategies a' = strategies a ++ [(strategyId, length (heap a))] ∧
        length (strategies a') = S (length (strategies a)))) ∧
  (∀ startTime ops,
     NoDup (create_readings ops) →
     let a := run (initial startTime) ops in
     JsMap.keys (strategies a) = make_strategyId <$> create_readings ops ∧
     NoDup (JsMap.keys (strategies a)) ∧
     length (strategies a) = length (create_readings ops)).
Proof.
  split_and!.
  - intros t1 t2. split.
    + intros Hne ->. by apply Hne.
    + intros Hne Heq. by apply Hne, make_strategyId_inj.
  - intros params w a Hok. cbv zeta. unfold createAutoTopupStrategy.
    rewrite Hok. cbn. destruct (performPreDeploymentChecks _).
    destruct (deployRealAutomation w); cbn;
      (split; [done|]); intros Hfresh; rewrite (set_absent _ _ _ Hfresh);
      (split; [done|]); rewrite length_app; cbn; lia.
  - intros startTime ops Hnd. cbv zeta.
    pose proof (run_keys (initial startTime) ops [] eq_refl Hnd) as Hkeys.
    cbn [app] in Hkeys. split_and!.
    + done.
    + apply reachable_wf. by exists startTime, ops.
    + apply (f_equal length) in Hkeys. unfold JsMap.keys in Hkeys.
      by rewrite !length_fmap in Hkeys.
Qed.

Lemma strategy_ids_distinct_iff_readings_differ_witness :
  make_strategyId 1700000000000 ≠ make_strategyId 1700000000001 ∧
  (let a := (createAutoTopupStrategy sample_params sample_rejected (initial 0)).1 in
   let '(a', result) :=
     createAutoTopupStrategy sample_params (sample_world 1700000000001) a in
   res_strategyId result = Some "topup_1700000000001" ∧
   strategies a' = [("topup_1700000000000", 0%nat); ("topup_1700000000001", 1%nat)] ∧
   length (strategies a') = 2%nat) ∧
  JsMap.keys (strategies sample_agent) =
    [ "topup_1700000000000"; "topup_1700000000001";
      "topup_1700000000002"; "topup_1700000000003" ].
Proof.
  split_and!.
  - apply (proj1 strategy_ids_distinct_iff_readings_differ). lia.
  - pose proof (proj1 (proj2 strategy_ids_distinct_iff_readings_differ) sample_params
      (sample_world 1700000000001)
      (createAutoTopupStrategy sample_params sample_rejected (initial 0)).1
      eq_refl) as H.
    cbv zeta in H |- *.
    destruct (createAutoTopupStrategy sample_params (sample_world 1700000000001) _)
      as [a' result].
    destruct H as [Hid Hfresh]. split; [exact Hid|]. exact (Hfresh eq_refl).
  - refine (proj1 (proj2 (proj2 strategy_ids_distinct_iff_readings_differ) 0 _ _)).
    compute_done.
Defined.

(** The claim as written fails when two create calls read the same
    millisecond: both succeed, both are assigned the same id, and the second
    [set] replaces the entry of the first, whose record is no longer in the
    store. *)
Lemma same_reading_same_id_overwrites :
  let '(a1, result1) :=
    createAutoTopupStrategy sample_params sample_rejected (initial 0) in
  let '(a2, result2) :=
    createAutoTopupStrategy
      {| strategyName := "DeFi Vault"; targetAddress := sample_address |}
      sample_deployed a1 in
  success result1 = true ∧ success result2 = true ∧
  res_strategy result1 = Some 0%nat ∧ res_strategy result2 = Some 1%nat ∧
  res_strategyId result1 = res_strategyId result2 ∧
  strategies a1 = [("topup_1700000000000", 0%nat)] ∧
  strategies a2 = [("topup_1700000000000", 1%nat)] ∧
  name <$> strategy_values a2 = ["DeFi Vault"].
Proof. by vm_compute. Qed.

(** ** The end-to-end scenario of the specification

    A create with the deployment forced to fail reports SIMULATION and an
    active record, the only one listed; cancelling it clears [isActive] and
    empties the listing. *)
Example simulated_create_list_cancel :
  let '(a1, created) :=
    createAutoTopupStrategy sample_params sample_rejected (initial 0) in
  let '(a2, cancelled) := cancelStrategy "topup_1700000000000" a1 in
  success created = true ∧
  res_mode created = Some SIMULATION ∧
  res_strategyId created = Some "topup_1700000000000" ∧
  isActive <$> strategy_values a1 = [true] ∧
  listed_id <$> (listActiveStrategies a1).1 = ["topup_1700000000000"] ∧
  success cancelled = true ∧
  isActive <$> strategy_values a2 = [false] ∧
  listActiveStrategies a2 = ([], 0%nat).
Proof. by vm_compute. Qed.

(** ** What no operation changes *)

Section cells_related_facts.
Context (R : AutomationStrategy → AutomationStrategy → Prop).
Context (R_refl : ∀ s, R s s) (R_trans : ∀ s1 s2 s3, R s1 s2 → R s2 s3 → R s1 s3).
Context (R_cancel : ∀ s, R s (set_isActive false s)).
Context (R_touch : ∀ d s, R s (set_lastChecked d s)).

Lemma cells_related_refl h : cells_related R h h.
Proof. intros r s Hr. by exists s. Qed.

Lemma cells_related_trans h1 h2 h3 :
  cells_related R h1 h2 → cells_related R h2 h3 → cells_related R h1 h3.
Proof.
  intros H12 H23 r s Hr.
  destruct (H12 r s Hr) as (s2 & Hr2 & Hs2).
  destruct (H23 r s2 Hr2) as (s3 & Hr3 & Hs3).
  exists s3. split; [done|]. by eapply R_trans.
Qed.

Lemma cells_related_alloc h s : cells_related R h (h ++ [s]).
Proof.
  intros r s0 Hr. exists s0. split; [|done]. by apply lookup_app_l_Some.
Qed.

Lemma cells_related_alter f h r :
  (∀ s, R s (f s)) → cells_related R h (alter f r h).
Proof.
  intros Hf r' s Hr'. destruct (decide (r = r')) as [<-|Hne].
  - exists (f s). by rewrite list_lookup_alter_eq, Hr'.
  - exists s. by rewrite list_lookup_alter_ne.
Qed.

Lemma cells_related_foldl {E} (body : Agent → E → Agent) (l : list E) a :
  (∀ a e, cells_related R (heap a) (heap (body a e))) →
  cells_related R (heap a) (heap (foldl body a l)).
Proof.
  intros Hbody. revert a. induction l as [|e l IH]; intros a; cbn.
  - apply cells_related_refl.
  - eapply cells_related_trans; [apply Hbody | apply IH].
Qed.

Lemma step_cells_related a op : cells_related R (heap a) (heap (step a op)).
Proof.
  destruct op as [params w|strategyId| |strategyId w|w|w]; cbn [step].
  - unfold createAutoTopupStrategy.
    destruct (isValidAddress _); cbn; [|apply cells_related_refl].
    destruct (performPreDeploymentChecks _).
    destruct (deployRealAutomation w); cbn; apply cells_related_alloc.
  - unfold cancelStrategy. destruct (strategies_get strategyId a) as [[r s]|]; cbn.
    + by apply cells_related_alter.
    + apply cells_related_refl.
  - apply cells_related_refl.
  - apply cells_related_refl.
  - apply cells_related_foldl. intros a' [key r]. rewrite check_entry_heap.
    apply cells_related_alter. intros s. unfold visited.
    destruct (isActive s); [|done]. by destruct (awaitBalance w key (target s)).
  - apply cells_related_foldl. intros a' [key r]. unfold touch_entry.
    destruct (heap a' !! r) as [s|]; [|apply cells_related_refl].
    destruct (isActive s); cbn; [|apply cells_related_refl].
    by apply cells_related_alter.
Qed.

Lemma run_cells_related a ops : cells_related R (heap a) (heap (run a ops)).
Proof. apply cells_related_foldl, step_cells_related. Qed.

End cells_related_facts.

Lemma same_constants_refl s : same_constants s s.
Proof. by repeat split. Qed.

Lemma same_constants_trans s1 s2 s3 :
  same_constants s1 s2 → same_constants s2 s3 → same_constants s1 s3.
Proof. unfold same_constants. intros H12 H23. destruct_and!. split_and!; congruence. Qed.

(** X1: a record, once in the heap, keeps its id, type, name, description,
    target, task identifier, creation date and statistics through every
    sequence of operations; only [isActive] and [lastChecked] are ever
    assigned. *)
Theorem record_constants_never_change (a : Agent) (ops : list Op) (r : nat)
    (strategy : AutomationStrategy) :
  heap a !! r = Some strategy →
  ∃ strategy', heap (run a ops) !! r = Some strategy' ∧
               same_constants strategy strategy'.
Proof.
  apply (run_cells_related same_constants).
  - apply same_constants_refl.
  - apply same_constants_trans.
  - intros s. by repeat split.
  - intros d s. by repeat split.
Qed.

Lemma record_constants_never_change_witness :
  ∃ strategy',
    heap (run sample_agent
            [ Cancel "topup_1700000000001"; PeriodicCheck sample_monitor;
              Create sample_params (sample_world 1700000000001);
              PerformanceUpdate sample_monitor ]) !! 1%nat = Some strategy' ∧
    same_constants
      (simulated_strategy "topup_1700000000001" sample_params 4242 1700000000003)
      strategy'.
Proof.
  exact (record_constants_never_change sample_agent
           [ Cancel "topup_1700000000001"; PeriodicCheck sample_monitor;
             Create sample_params (sample_world 1700000000001);
             PerformanceUpdate sample_monitor ]
           1%nat
           (simulated_strategy "topup_1700000000001" sample_params 4242 1700000000003)
           eq_refl).
Defined.

(** ** Invariants of reachable states *)

Lemma touch_entry_quiet w a entry :
  touch_entry w a entry = check_entry (quiet w) a entry.
Proof.
  destruct entry as [key r]. unfold touch_entry, check_entry.
  destruct (heap a !! r) as [s|]; [|done]. by destruct (isActive s).
Qed.

Lemma updateStrategyPerformance_quiet w a :
  updateStrategyPerformance w a = runPeriodicCheck (quiet w) a.
Proof.
  unfold updateStrategyPerformance, runPeriodicCheck.
  generalize (strategies a) as l. intros l. revert a.
  induction l as [|e l IH]; intros a; cbn [foldl]; [done|].
  by rewrite touch_entry_quiet, IH.
Qed.


Lemma pass_heap_Forall (P : AutomationStrategy → Prop) w l a :
  (∀ d s, P s → P (set_lastChecked d s)) →
  Forall P (heap a) → Forall P (heap (foldl (check_entry w) a l)).
Proof.
  intros Htouch. revert a.
  induction l as [|[key r] l IH]; intros a Hall; cbn [foldl]; [done|].
  apply IH. rewrite check_entry_heap. apply Forall_alter; [done|].
  intros s _ Hs. unfold visited. destruct (isActive s); [|done].
  destruct (awaitBalance w key (target s)); [by apply Htouch | done].
Qed.


Lemma step_heap_Forall (P : AutomationStrategy → Prop) a op :
  (∀ s, P s → P (set_isActive false s)) →
  (∀ d s, P s → P (set_lastChecked d s)) →
  (∀ params w realResult,
     isValidAddress (targetAddress params) = true →
     P (deployed_strategy (make_strategyId (Date_now w)) params realResult (new_Date w))) →
  (∀ params w,
     isValidAddress (targetAddress params) = true →
     P (simulated_strategy (make_strategyId (Date_now w)) params (random_int w) (new_Date w))) →
  Forall P (heap a) → Forall P (heap (step a op)).
Proof.
  intros Hcancel Htouch Hreal Hsim Hall.
  destruct op as [params w|strategyId| |strategyId w|w|w]; cbn [step]; try done.
  - unfold createAutoTopupStrategy.
    destruct (isValidAddress (targetAddress params)) eqn:Hok; cbn; [|done].
    destruct (performPreDeploymentChecks _).
    destruct (deployRealAutomation w); cbn; apply Forall_app; split; try done;
      apply Forall_singleton; auto.
  - unfold cancelStrategy. destruct (strategies_get strategyId a) as [[r s]|]; cbn; [|done].
    apply Forall_alter; [done|]. intros s' _. apply Hcancel.
  - by apply pass_heap_Forall.
  - rewrite updateStrategyPerformance_quiet. by apply pass_heap_Forall.
Qed.

Lemma elem_set {V} (m : list (string * V)) k v k' v' :
  (k', v') ∈ JsMap.set k v m → (k' = k ∧ v' = v) ∨ (k', v') ∈ m.
Proof.
  induction m as [|[k0 v0] m IH]; cbn.
  - intros [= -> ->]%list_elem_of_singleton. by left.
  - destruct (decide (k = k0)) as [->|Hne]; rewrite !elem_of_cons.
    + intros [[= -> ->]|Hin]; [by left | by right; right].
    + intros [Heq|Hin]; [by right; left|]. destruct (IH Hin); [by left | by right; right].
Qed.

Lemma step_keys_are_ids a op : wf a → keys_are_ids a → keys_are_ids (step a op).
Proof.
  intros Hwf Hinv key r. rewrite step_strategies by apply Hwf.
  assert (∀ key r, (key, r) ∈ strategies a →
            ∃ s, heap (step a op) !! r = Some s ∧ id s = key) as Hold.
  { intros key' r' Hin. destruct (Hinv key' r' Hin) as (s & Hs & Hid).
    destruct (step_cells_related same_constants same_constants_refl
                same_constants_trans ltac:(by repeat split) ltac:(by repeat split)
                a op r' s Hs) as (s' & Hs' & Hsame).
    exists s'. split; [done|]. destruct Hsame as [-> _]. done. }
  destruct op as [params w|strategyId| |strategyId w|w|w]; try apply Hold.
  destruct (isValidAddress (targetAddress params)) eqn:Hok; [|apply Hold].
  intros [[-> ->]|Hin]%elem_set; [|by apply Hold].
  cbn [step]. unfold createAutoTopupStrategy. rewrite Hok. cbn.
  destruct (performPreDeploymentChecks _).
  destruct (deployRealAutomation w); cbn; eexists;
    (split; [apply list_lookup_middle; done | done]).
Qed.

Lemma run_invariant (P : Agent → Prop) a ops :
  (∀ a op, wf a → P a → P (step a op)) → wf a → P a → P (run a ops).
Proof.
  intros Hstep. revert a. induction ops as [|op ops IH]; intros a Hwf HP; [done|].
  apply IH; [by apply wf_step | by apply Hstep].
Qed.

Lemma reachable_invariant (P : Agent → Prop) a :
  (∀ startTime, P (initial startTime)) →
  (∀ a op, wf a → P a → P (step a op)) →
  reachable a → P a.
Proof.
  intros Hinit Hstep (startTime & ops & ->).
  apply run_invariant; [done | apply wf_initial | apply Hinit].
Qed.

Lemma reachable_keys_are_ids a : reachable a → keys_are_ids a.
Proof.
  apply (reachable_invariant keys_are_ids).
  - intros startTime key r Hin. by apply elem_of_nil in Hin.
  - apply step_keys_are_ids.
Qed.

Lemma reachable_as_created a : reachable a → Forall as_created (heap a).
Proof.
  apply (reachable_invariant (λ a, Forall as_created (heap a))).
  - intros startTime. apply Forall_nil_2.
  - intros a' op _. apply step_heap_Forall.
    + intros s [? ? ? ? ? ?]. by split.
    + intros d s [? ? ? ? ? ?]. by split.
    + intros params w d Hok. split; cbn; eauto.
    + intros params w Hok. split; cbn; eauto.
Qed.

Lemma sample_agent_reachable : reachable sample_agent.
Proof. by eexists 0, _. Qed.

(** X2: in every reachable state the store is consistent with the heap: each
    key of the map is the [id] of the record it is bound to, and every record
    ever allocated has an id of the form [topup_<reading>], the type
    [auto_topup] and a target that passes [isValidAddress]. *)
Theorem reachable_store_is_consistent (a : Agent) :
  reachable a →
  (∀ key r, (key, r) ∈ strategies a →
     ∃ strategy, heap a !! r = Some strategy ∧ id strategy = key) ∧
  (∀ r strategy, heap a !! r = Some strategy →
     (∃ now, id strategy = make_strategyId now) ∧
     type strategy = "auto_topup" ∧
     isValidAddress (target strategy) = true).
Proof.
  intros Hreach. split.
  - by apply reachable_keys_are_ids.
  - pose proof (reachable_as_created a Hreach) as Hall.
    intros r s Hs. apply (Forall_lookup_1 _ _ _ _ Hall) in Hs as [? ? ? _ _ _].
    done.
Qed.

Lemma reachable_store_is_consistent_witness :
  (∀ key r, (key, r) ∈ strategies sample_agent →
     ∃ strategy, heap sample_agent !! r = Some strategy ∧ id strategy = key) ∧
  (∀ r strategy, heap sample_agent !! r = Some strategy →
     (∃ now, id strategy = make_strategyId now) ∧
     type strategy = "auto_topup" ∧
     isValidAddress (target strategy) = true).
Proof. exact (reachable_store_is_consistent sample_agent sample_agent_reachable). Defined.

(** X3: the statistics of a record are never updated: in every reachable
    state every record still has [executionCount = 0], [successRate = 1.0]
    and [totalTransferred = 0]. *)
Theorem statistics_are_never_updated (a : Agent) :
  reachable a →
  ∀ r strategy, heap a !! r = Some strategy →
    executionCount strategy = 0 ∧
    successRate strategy = 1%Q ∧
    totalTransferred strategy = 0.
Proof.
  intros Hreach.
  pose proof (reachable_as_created a Hreach) as Hall.
  intros r s Hs. apply (Forall_lookup_1 _ _ _ _ Hall) in Hs as [_ _ _ ? ? ?].
  done.
Qed.

Lemma statistics_are_never_updated_witness :
  let strategy :=
    set_isActive false
      (simulated_strategy "topup_1700000000003" sample_params 4242 1700000000005) in
  heap sample_agent !! 3%nat = Some strategy ∧
  executionCount strategy = 0 ∧
  successRate strategy = 1%Q ∧
  totalTransferred strategy = 0.
Proof.
  split; [reflexivity|].
  exact (statistics_are_never_updated sample_agent sample_agent_reachable 3%nat _ eq_refl).
Defined.






(** ** The performance pass *)

Lemma announced_quiet_world w h l : l ≫= announced (quiet w) h = [].
Proof.
  induction l as [|[key r] l IH]; [done|].
  rewrite bind_cons, IH, app_nil_r. unfold announced. cbn [fst snd].
  destruct (h !! r) as [s|]; [|done]. by destruct (isActive s).
Qed.

(** X5: on a well-formed store, [updateStrategyPerformance] sets
    [lastChecked] of every active strategy to the date of its iteration and
    does nothing else: inactive records and records no longer in the map are
    untouched, the map and the counters are unchanged and nothing is
    emitted. *)
Theorem updateStrategyPerformance_refreshes_active (w : MonitorWorld) (a : Agent) :
  wf a →
  let a' := updateStrategyPerformance w a in
  emitted a' = emitted a ∧
  strategies a' = strategies a ∧
  performanceMetrics a' = performanceMetrics a ∧
  (∀ key r s, (key, r) ∈ strategies a → heap a !! r = Some s →
     heap a' !! r =
       Some (if isActive s then set_lastChecked (iteration_Date w key) s else s)) ∧
  (∀ r, r ∉ JsMap.values (strategies a) → heap a' !! r = heap a !! r).
Proof.
  intros [Hkeys Hrefs Hbound]. cbv zeta.
  rewrite updateStrategyPerformance_quiet. unfold runPeriodicCheck. split_and!.
  - by rewrite pass_emitted, announced_quiet_world, app_nil_r.
  - apply pass_strategies. intros key r Hin. by apply elem_get_Some.
  - apply pass_metrics.
  - intros key r s Hin Hr.
    rewrite (pass_heap_visited _ _ _ key r Hrefs Hin), Hr. cbn.
    unfold visited. by destruct (isActive s).
  - intros r Hr. by apply pass_heap_elsewhere.
Qed.

Lemma updateStrategyPerformance_refreshes_active_witness :
  let w := sample_monitor in
  let a := sample_agent in
  let a' := updateStrategyPerformance w a in
  emitted a' = emitted a ∧
  strategies a' = strategies a ∧
  performanceMetrics a' = performanceMetrics a ∧
  (∀ key r s, (key, r) ∈ strategies a → heap a !! r = Some s →
     heap a' !! r =
       Some (if isActive s then set_lastChecked (iteration_Date w key) s else s)) ∧
  (∀ r, r ∉ JsMap.values (strategies a) → heap a' !! r = heap a !! r).
Proof.
  exact (updateStrategyPerformance_refreshes_active sample_monitor sample_agent
           sample_agent_wf).
Defined.

(** ** The status check *)

Lemma check_all_fails w h before key0 r0 failing after error :
  (∀ key r s, (key, r) ∈ before → h !! r = Some s → isActive s = true →
     ∃ balance, awaitBalance w key (target s) = Resolved balance) →
  h !! r0 = Some failing →
  isActive failing = true →
  awaitBalance w key0 (target failing) = Rejected error →
  check_all w h (before ++ (key0, r0) :: after) = Rejected error.
Proof.
  intros Hbefore Hr0 Hactive Hthrow.
  induction before as [|[key r] before IH]; cbn [app check_all].
  - by rewrite Hr0, Hactive, Hthrow.
  - rewrite IH.
    + destruct (h !! r) as [s|] eqn:Hr; [|done].
      destruct (isActive s) eqn:Hs; [|done].
      by destruct (Hbefore key r s) as [b ->]; [apply list_elem_of_here|..].
    + intros key' r' s' Hin. apply Hbefore. by apply list_elem_of_further.
Qed.

(** X6: the status check without an id has no failure isolation: when the
    balance fetch of an active strategy throws and the fetches of the active
    strategies before it resolved, the whole check returns the failure
    carrying that error and reports no strategy at all. *)
Theorem checkStrategyStatus_fails_as_a_whole (w : MonitorWorld) (a : Agent)
    (before after : list (string * nat)) (key0 : string) (r0 : nat)
    (failing : AutomationStrategy) (error : string) :
  strategies a = before ++ (key0, r0) :: after →
  heap a !! r0 = Some failing →
  isActive failing = true →
  awaitBalance w key0 (target failing) = Rejected error →
  (∀ key r s, (key, r) ∈ before → heap a !! r = Some s → isActive s = true →
     ∃ balance, awaitBalance w key (target s) = Resolved balance) →
  checkStrategyStatus None w a = StatusFailed error ∧
  checkStrategyStatus (Some "") w a = StatusFailed error.
Proof.
  intros Hsplit Hr0 Hactive Hthrow Hbefore. unfold checkStrategyStatus.
  by rewrite Hsplit, (check_all_fails w (heap a) before key0 r0 failing after error).
Qed.

Lemma sample_before_resolves key r s :
  (key, r) ∈ [("topup_1700000000000", 0%nat)] →
  heap sample_agent !! r = Some s →
  isActive s = true →
  ∃ balance, awaitBalance sample_monitor key (target s) = Resolved balance.
Proof.
  intros [= -> ->]%list_elem_of_singleton _ _. by eexists.
Qed.

Lemma checkStrategyStatus_fails_as_a_whole_witness :
  checkStrategyStatus None sample_monitor sample_agent = StatusFailed "fetch failed" ∧
  checkStrategyStatus (Some "") sample_monitor sample_agent = StatusFailed "fetch failed".
Proof.
  exact (checkStrategyStatus_fails_as_a_whole sample_monitor sample_agent
           [("topup_1700000000000", 0%nat)]
           [("topup_1700000000002", 2%nat); ("topup_1700000000003", 3%nat)]
           "topup_1700000000001" 1%nat
           (simulated_strategy "topup_1700000000001" sample_params 4242 1700000000003)
           "fetch failed" eq_refl eq_refl eq_refl eq_refl sample_before_resolves).
Defined.






(** X8: with the shipped [getAccountBalance], a status check by id of a
    strategy whose SDK balance query fails still succeeds: it reports the
    synthetic balance, which is below the threshold, so the status is
    [needs_topup] and [willTrigger] is true.  The strategy need not be
    active. *)
Theorem checkStrategyStatus_failed_query_needs_topup
    (sdk : string → string → outcome Z) (random : string → Z) (date : string → Z)
    (a : Agent) (c : ascii) (rest : string) (r : nat) (s : AutomationStrategy)
    (error : string) :
  let key := String c rest in
  strategies_get key a = Some (r, s) →
  sdk key (target s) = Rejected error →
  ∃ report,
    checkStrategyStatus (Some key) (shipped_monitor sdk random date) a = StatusOne report ∧
    checked report = set_lastChecked (date key) s ∧
    currentBalance report = pretty (random key `mod` 100000000) ∧
    status (healthStatus report) = "needs_topup" ∧
    willTrigger (healthStatus report) = true.
Proof.
  cbv zeta. intros Hget Hsdk. unfold checkStrategyStatus. rewrite Hget.
  cbn [awaitBalance shipped_monitor]. rewrite Hsdk. eexists. split; [done|].
  pose proof (getAccountBalance_fallback_is_low error (random (String c rest))) as [[_ Hlt] _].
  cbn [getAccountBalance] in Hlt |- *. unfold status_of, calculateHealthStatus.
  cbn [checked currentBalance healthStatus status willTrigger iteration_Date].
  split_and!; try done.
  - destruct (Z.leb_spec 600000000 (random (String c rest) `mod` 100000000)); [lia|done].
  - apply Z.ltb_lt. lia.
Qed.

Lemma checkStrategyStatus_failed_query_needs_topup_witness :
  let sdk : string → string → outcome Z := λ _ _, Rejected "ECONNREFUSED" in
  let random : string → Z := λ _, 123456789 in
  let date : string → Z := λ _, 1700000600000 in
  let key := "topup_1700000000003" in
  ∃ report,
    checkStrategyStatus (Some key) (shipped_monitor sdk random date) sample_agent =
      StatusOne report ∧
    checked report =
      set_lastChecked 1700000600000
        (set_isActive false
           (simulated_strategy key sample_params 4242 1700000000005)) ∧
    currentBalance report = pretty (123456789 `mod` 100000000) ∧
    status (healthStatus report) = "needs_topup" ∧
    willTrigger (healthStatus report) = true.
Proof.
  exact (checkStrategyStatus_failed_query_needs_topup
           (λ _ _, Rejected "ECONNREFUSED") (λ _, 123456789) (λ _, 1700000600000)
           sample_agent "t" "opup_1700000000003" 3%nat
           (set_isActive false
              (simulated_strategy "topup_1700000000003" sample_params 4242 1700000000005))
           "ECONNREFUSED" eq_refl eq_refl).
Defined.

(** ** The listing *)

Lemma NoDup_fmap_filter {A B} (f : A → B) (P : A → Prop) `{!∀ x, Decision (P x)}
    (l : list A) :
  NoDup (f <$> l) → NoDup (f <$> filter P l).
Proof.
  induction l as [|x l IH]; [done|]. rewrite fmap_cons.
  intros [Hx Hnd]%NoDup_cons.
  rewrite filter_cons. destruct (decide (P x)); [|by apply IH].
  rewrite fmap_cons. apply NoDup_cons. split; [|by apply IH].
  intros (y & Hy & [_ Hin]%list_elem_of_filter)%list_elem_of_fmap.
  apply Hx. apply list_elem_of_fmap. by exists y.
Qed.

Lemma ids_of_values (h : list AutomationStrategy) (l : list (string * nat)) :
  (∀ key r, (key, r) ∈ l → ∃ s, h !! r = Some s ∧ id s = key) →
  id <$> omap (λ r, h !! r) l.*2 = l.*1.
Proof.
  induction l as [|[key r] l IH]; intros Hl; [done|].
  cbn [fmap list_fmap omap list_omap fst snd].
  destruct (Hl key r) as (s & -> & <-); [apply list_elem_of_here|].
  cbn. f_equal. apply IH. intros key' r' Hin. by apply Hl, list_elem_of_further.
Qed.

Lemma listed_ids a :
  listed_id <$> (listActiveStrategies a).1 =
    id <$> filter (λ s, isActive s = true) (strategy_values a).
Proof. unfold listActiveStrategies. cbn [fst]. by rewrite <-list_fmap_compose. Qed.

Lemma listed_iff a :
  wf a → keys_are_ids a →
  ∀ key, key ∈ (listed_id <$> (listActiveStrategies a).1) ↔
         ∃ r s, strategies_get key a = Some (r, s) ∧ isActive s = true.
Proof.
  intros [Hkeys Hrefs Hbound] Hids key. rewrite listed_ids. split.
  - intros (s & -> & [Hs Hin]%list_elem_of_filter)%list_elem_of_fmap.
    apply list_elem_of_omap in Hin as (r & Hr & Hcell).
    apply list_elem_of_fmap in Hr as ([key r'] & -> & Hentry). cbn in Hcell.
    destruct (Hids key r' Hentry) as (s' & Hcell' & <-).
    assert (s' = s) as -> by congruence.
    exists r', s. split; [|done]. unfold strategies_get.
    rewrite (elem_get_Some _ _ _ Hkeys Hentry). cbn. by rewrite Hcell.
  - intros (r & s & Hget & Hs). apply strategies_get_Some in Hget as [Hget Hcell].
    apply get_Some_elem in Hget. destruct (Hids key r Hget) as (s' & Hcell' & <-).
    assert (s' = s) as -> by congruence.
    apply list_elem_of_fmap. exists s. split; [done|].
    apply list_elem_of_filter. split; [done|].
    apply list_elem_of_omap. exists r. split; [|done].
    apply list_elem_of_fmap. by exists (id s, r).
Qed.

(** X9: in every reachable state [listActiveStrategies] lists exactly the
    ids that the store binds to an active record, each once, and [count] is
    the number of listed strategies. *)
Theorem listActiveStrategies_lists_the_active (a : Agent) :
  reachable a →
  let '(listed, count) := listActiveStrategies a in
  count = length listed ∧
  NoDup (listed_id <$> listed) ∧
  (∀ key, key ∈ (listed_id <$> listed) ↔
          ∃ r strategy, strategies_get key a = Some (r, strategy) ∧
                        isActive strategy = true).
Proof.
  intros Hreach. pose proof (reachable_wf a Hreach) as Hwf.
  pose proof (reachable_keys_are_ids a Hreach) as Hids.
  pose proof (listed_iff a Hwf Hids) as Hiff. pose proof (listed_ids a) as Hlisted.
  destruct (listActiveStrategies a) as [listed count] eqn:Hlist.
  cbn [fst] in Hiff, Hlisted. split_and!.
  - unfold listActiveStrategies in Hlist. by injection Hlist as <- <-.
  - rewrite Hlisted. apply NoDup_fmap_filter. unfold strategy_values, JsMap.values.
    rewrite (ids_of_values (heap a) (strategies a) Hids). apply Hwf.
  - exact Hiff.
Qed.

Lemma listActiveStrategies_lists_the_active_witness :
  let '(listed, count) := listActiveStrategies sample_agent in
  count = length listed ∧
  NoDup (listed_id <$> listed) ∧
  (∀ key, key ∈ (listed_id <$> listed) ↔
          ∃ r strategy, strategies_get key sample_agent = Some (r, strategy) ∧
                        isActive strategy = true).
Proof.
  exact (listActiveStrategies_lists_the_active sample_agent sample_agent_reachable).
Defined.

Lemma cancel_reachable a strategyId :
  reachable a → reachable (cancelStrategy strategyId a).1.
Proof.
  intros (startTime & ops & ->). exists startTime, (ops ++ [Cancel strategyId]).
  unfold run. by rewrite foldl_app.
Qed.

Lemma create_reachable a params w :
  reachable a → reachable (createAutoTopupStrategy params w a).1.
Proof.
  intros (startTime & ops & ->). exists startTime, (ops ++ [Create params w]).
  unfold run. by rewrite foldl_app.
Qed.

(** X10: in a reachable state, cancelling a stored strategy removes exactly
    its id from the listing: the id is no longer listed, and every other id
    is listed after the call if and only if it was listed before. *)
Theorem cancelStrategy_unlists (a : Agent) (strategyId : string) (r : nat)
    (strategy : AutomationStrategy) :
  reachable a →
  strategies_get strategyId a = Some (r, strategy) →
  let a' := (cancelStrategy strategyId a).1 in
  (strategyId ∉ listed_id <$> (listActiveStrategies a').1) ∧
  (∀ key, key ≠ strategyId →
     key ∈ (listed_id <$> (listActiveStrategies a').1) ↔
     key ∈ (listed_id <$> (listActiveStrategies a).1)).
Proof.
  intros Hreach Hget. cbv zeta.
  pose proof (cancel_reachable a strategyId Hreach) as Hreach'.
  pose proof (reachable_wf a Hreach) as Hwf.
  pose proof (listed_iff a Hwf (reachable_keys_are_ids a Hreach)) as Hiff.
  pose proof (listed_iff _ (reachable_wf _ Hreach') (reachable_keys_are_ids _ Hreach'))
    as Hiff'.
  pose proof (strategies_get_Some _ _ _ _ Hget) as [Hkey Hcell].
  assert (strategies (cancelStrategy strategyId a).1 = strategies a ∧
          heap (cancelStrategy strategyId a).1 = alter (set_isActive false) r (heap a))
    as [Hm Hh].
  { unfold cancelStrategy. rewrite Hget. cbn. split; [|done]. by apply set_present. }
  split.
  - rewrite Hiff'. intros (r' & s' & Hget' & Hs').
    apply strategies_get_Some in Hget' as [Hkey' Hcell'].
    rewrite Hm in Hkey'. assert (r' = r) as -> by congruence.
    rewrite Hh, list_lookup_alter_eq, Hcell in Hcell'. cbn in Hcell'.
    injection Hcell' as <-. done.
  - intros key Hne. rewrite Hiff', Hiff.
    assert (∀ r', JsMap.get key (strategies a) = Some r' →
              heap (cancelStrategy strategyId a).1 !! r' = heap a !! r') as Hsame.
    { intros r' Hkey'. rewrite Hh. apply list_lookup_alter_ne. intros <-.
      apply Hne. destruct Hwf as [_ Hrefs _].
      by eapply elem_values_inj; [exact Hrefs|apply get_Some_elem..]. }
    unfold strategies_get. rewrite Hm.
    destruct (JsMap.get key (strategies a)) as [r'|] eqn:Hkey'; cbn.
    + by rewrite (Hsame r' eq_refl).
    + split; intros (? & ? & [=] & _).
Qed.

Lemma cancelStrategy_unlists_witness :
  let a' := (cancelStrategy "topup_1700000000001" sample_agent).1 in
  ("topup_1700000000001" ∉ listed_id <$> (listActiveStrategies a').1) ∧
  (∀ key, key ≠ "topup_1700000000001" →
     key ∈ (listed_id <$> (listActiveStrategies a').1) ↔
     key ∈ (listed_id <$> (listActiveStrategies sample_agent).1)).
Proof.
  exact (cancelStrategy_unlists sample_agent "topup_1700000000001" 1%nat
           (simulated_strategy "topup_1700000000001" sample_params 4242 1700000000003)
           sample_agent_reachable eq_refl).
Defined.

(** ** The private key of the operator *)

Lemma test_PRIVATE_KEY_RE s :
  Regex.test PRIVATE_KEY_RE s = true ↔ String.length s = 64%nat ∧ all_hex s.
Proof.
  unfold Regex.test, PRIVATE_KEY_RE. cbn [Regex.eat_items Regex.eat_item].
  destruct (Regex.eat_class hex_ranges 64 s) as [rest|] eqn:Heat.
  - apply eat_class_hex in Heat as (h & -> & Hlen & Hh). destruct rest.
    + rewrite append_empty_r. by split.
    + split; [done|]. intros [Hlen' _]. rewrite length_append, Hlen in Hlen'.
      cbn in Hlen'. lia.
  - split; [done|]. intros [Hlen Hh].
    assert (Regex.eat_class hex_ranges 64 s = Some "") as Hsome; [|congruence].
    apply eat_class_hex. exists s. by rewrite append_empty_r.
Qed.

Lemma x_is_not_hex : ¬ hex_char "x".
Proof. unfold hex_char. vm_compute. lia. Qed.

Lemma prefix_0x s :
  String.prefix "0x" s = true ↔ ∃ rest, s = String "0" (String "x" rest).
Proof.
  destruct s as [|c0 [|c1 rest]].
  - split; [done|]. by intros [? ?].
  - change (String.prefix "0x" (String c0 ""))
      with (if ascii_dec "0" c0 then false else false).
    split; [by destruct (ascii_dec "0" c0)|]. by intros [? ?].
  - change (String.prefix "0x" (String c0 (String c1 rest)))
      with (if ascii_dec "0" c0
            then if ascii_dec "x" c1 then String.prefix "" rest else false else false).
    replace (String.prefix "" rest) with true by (by destruct rest).
    destruct (ascii_dec "0" c0) as [<-|Hc0]; [destruct (ascii_dec "x" c1) as [<-|Hc1]|].
    + split; [|done]. intros _. by exists rest.
    + split; [done|]. intros [? ?]. simplify_eq.
    + split; [done|]. intros [? ?]. simplify_eq.
Qed.

Lemma hex_has_no_0x_prefix h :
  all_hex h → String.prefix "0x" h = false.
Proof.
  intros Hh. apply not_true_iff_false. intros (rest & ->)%prefix_0x.
  destruct Hh as (_ & Hx & _). by destruct x_is_not_hex.
Qed.

Lemma createSuperAgent_privateKey_Resolved key cleanHex :
  createSuperAgent_privateKey (Some key) = Resolved cleanHex ↔
  (key = cleanHex ∨ key = "0x" +:+ cleanHex) ∧
  String.length cleanHex = 64%nat ∧ all_hex cleanHex.
Proof.
  split.
  - destruct key as [|c0 key]; [done|]. unfold createSuperAgent_privateKey.
    destruct (String.prefix "0x" (String c0 key)) eqn:Hp.
    + apply prefix_0x in Hp as (rest & ->). cbn [slice_from].
      destruct (Regex.test PRIVATE_KEY_RE _) eqn:Ht; [|done]. cbn.
      intros [= <-]. apply test_PRIVATE_KEY_RE in Ht. split; [|done]. by right.
    + destruct (Regex.test PRIVATE_KEY_RE _) eqn:Ht; [|done]. cbn.
      intros [= <-]. apply test_PRIVATE_KEY_RE in Ht. split; [by left|done].
  - intros ([->| ->] & Hlen & Hh).
    + pose proof (hex_has_no_0x_prefix cleanHex Hh) as Hp.
      destruct cleanHex as [|c0 h]; [done|]. unfold createSuperAgent_privateKey.
      rewrite Hp. by rewrite (proj2 (test_PRIVATE_KEY_RE _) (conj Hlen Hh)).
    + change ("0x" +:+ cleanHex) with (String "0" (String "x" cleanHex)).
      unfold createSuperAgent_privateKey.
      rewrite (proj2 (prefix_0x _)) by (by exists cleanHex).
      cbn [slice_from].
      by rewrite (proj2 (test_PRIVATE_KEY_RE _) (conj Hlen Hh)).
Qed.

(** X11: [createSuperAgent] accepts the private key exactly when it is 64
    hexadecimal characters, with or without one leading [0x]; the key it goes
    on with is those 64 characters, so that [0x] followed by it has the format
    of an address.  An unset or empty variable is refused. *)
Theorem createSuperAgent_privateKey_format :
  (∀ key cleanHex,
     createSuperAgent_privateKey (Some key) = Resolved cleanHex ↔
     (key = cleanHex ∨ key = "0x" +:+ cleanHex) ∧
     String.length cleanHex = 64%nat ∧ all_hex cleanHex) ∧
  (∀ key cleanHex,
     createSuperAgent_privateKey (Some key) = Resolved cleanHex →
     isValidAddress ("0x" +:+ cleanHex) = true) ∧
  (∀ cleanHex, createSuperAgent_privateKey None ≠ Resolved cleanHex) ∧
  (∀ cleanHex, createSuperAgent_privateKey (Some "") ≠ Resolved cleanHex).
Proof.
  split_and!; try done.
  - apply createSuperAgent_privateKey_Resolved.
  - intros key cleanHex (_ & Hlen & Hh)%createSuperAgent_privateKey_Resolved.
    apply isValidAddress_spec. by exists cleanHex.
Qed.

Lemma createSuperAgent_privateKey_format_witness :
  createSuperAgent_privateKey (Some sample_address) = Resolved ones64 ∧
  createSuperAgent_privateKey (Some ones64) = Resolved ones64 ∧
  isValidAddress ("0x" +:+ ones64) = true.
Proof.
  split_and!.
  - apply (proj1 createSuperAgent_privateKey_format sample_address ones64).
    split_and!; [by right | reflexivity | exact ones64_all_hex].
  - apply (proj1 createSuperAgent_privateKey_format ones64 ones64).
    split_and!; [by left | reflexivity | exact ones64_all_hex].
  - apply (proj1 (proj2 createSuperAgent_privateKey_format) sample_address ones64).
    reflexivity.
Defined.

(** ** Deployment through the SDK *)

Lemma prefix_cons a s1 b s2 :
  String.prefix (String a s1) (String b s2) =
  if ascii_dec a b then String.prefix s1 s2 else false.
Proof. reflexivity. Qed.

Lemma prefix_char_hex a c r :
  ¬ hex_char a → hex_char c → String.prefix (String a "") (String c r) = false.
Proof. intros Ha Hc. rewrite prefix_cons. by destruct (ascii_dec a c) as [->|]. Qed.

Lemma prefix_two_hex a b c r :
  ¬ hex_char b → all_hex (String c r) →
  String.prefix (String a (String b "")) (String c r) = false.
Proof.
  intros Hb [Hc Hr]. rewrite prefix_cons. destruct (ascii_dec a c); [|done].
  destruct r as [|c1 r]; [done|]. rewrite prefix_cons. destruct Hr as [Hc1 _].
  by destruct (ascii_dec b c1) as [->|].
Qed.

Lemma sign_is_not_hex : ¬ hex_char "-" ∧ ¬ hex_char "+" ∧ ¬ hex_char "X".
Proof. unfold hex_char. vm_compute. lia. Qed.

Lemma hex_not_whitespace c :
  hex_char c → Deployment.is_StrWhiteSpaceChar c = false.
Proof.
  unfold hex_char, Deployment.is_StrWhiteSpaceChar. intros Hc.
  apply bool_decide_eq_false. rewrite !elem_of_cons, elem_of_nil. lia.
Qed.

Lemma digit16_hex c :
  hex_char c → ∃ d, Deployment.digit16 c = Some d ∧ 0 ≤ d < 16.
Proof.
  unfold hex_char, Deployment.digit16. intros Hc.
  destruct ((48 <=? Z.of_nat (nat_of_ascii c)) && (Z.of_nat (nat_of_ascii c) <=? 57))
    eqn:E1.
  { apply andb_true_iff in E1 as [?%Z.leb_le ?%Z.leb_le]. eexists. split; [done|lia]. }
  destruct ((97 <=? Z.of_nat (nat_of_ascii c)) && (Z.of_nat (nat_of_ascii c) <=? 102))
    eqn:E2.
  { apply andb_true_iff in E2 as [?%Z.leb_le ?%Z.leb_le]. eexists. split; [done|lia]. }
  destruct ((65 <=? Z.of_nat (nat_of_ascii c)) && (Z.of_nat (nat_of_ascii c) <=? 70))
    eqn:E3.
  { apply andb_true_iff in E3 as [?%Z.leb_le ?%Z.leb_le]. eexists. split; [done|lia]. }
  apply andb_false_iff in E1, E2, E3. rewrite !Z.leb_gt in E1, E2, E3. lia.
Qed.

Lemma digits16_all_hex h :
  all_hex h → ∀ a, 0 ≤ a →
  ∃ v, Deployment.digits16 (Some a) h = Some v ∧
       a * 16 ^ Z.of_nat (String.length h) ≤ v < (a + 1) * 16 ^ Z.of_nat (String.length h).
Proof.
  induction h as [|c h IH]; intros Hh a Ha; cbn [Deployment.digits16 String.length].
  - exists a. split; [done|]. cbn. lia.
  - destruct Hh as [Hc Hh]. destruct (digit16_hex c Hc) as (d & -> & Hd).
    change (default 0 (Some a)) with a.
    destruct (IH Hh (16 * a + d)) as (v & -> & Hv); [lia|].
    exists v. split; [done|]. rewrite Nat2Z.inj_succ, Z.pow_succ_r by lia.
    assert (0 < 16 ^ Z.of_nat (String.length h)) by (apply Z.pow_pos_nonneg; lia).
    nia.
Qed.

Lemma parseInt16_hex h :
  h ≠ "" → all_hex h →
  ∃ n, Deployment.parseInt16 h = Some n ∧ 0 ≤ n < 16 ^ Z.of_nat (String.length h).
Proof.
  destruct h as [|c h]; [done|]. intros _ Hh. pose proof Hh as [Hc Hh'].
  destruct sign_is_not_hex as (Hminus & Hplus & HX).
  unfold Deployment.parseInt16. cbn [Deployment.trimStart].
  rewrite (hex_not_whitespace c Hc).
  rewrite !(prefix_char_hex _ c h) by done. cbn [orb].
  rewrite !(prefix_two_hex _ _ c h) by (done || apply x_is_not_hex). cbn [orb].
  cbn [Deployment.digits16]. destruct (digit16_hex c Hc) as (d & -> & Hd).
  change (default 0 None) with 0.
  destruct (digits16_all_hex h Hh' (16 * 0 + d)) as (v & -> & Hv); [lia|].
  exists (1 * v). split; [done|].
  cbn [String.length]. rewrite Nat2Z.inj_succ, Z.pow_succ_r by lia.
  assert (0 < 16 ^ Z.of_nat (String.length h)) by (apply Z.pow_pos_nonneg; lia).
  nia.
Qed.

Lemma slice_from_append p h : slice_from (String.length p) (p +:+ h) = h.
Proof. induction p as [|c p IH]; [done|]. by rewrite append_cons. Qed.

Lemma slice_last_append p h :
  Deployment.slice_last (String.length h) (p +:+ h) = h.
Proof.
  unfold Deployment.slice_last. rewrite length_append.
  replace (String.length p + String.length h - String.length h)%nat
    with (String.length p) by lia.
  apply slice_from_append.
Qed.

Lemma extractTransactionHash_nonempty sdk result h :
  Deployment.extractTransactionHash sdk result = Resolved h → h ≠ "".
Proof.
  destruct result as [[[|? ?]|] [[|? ?]|] [[|? ?]|]|s|]; cbn; try done;
    try (by intros [= <-]).
  destruct (String.prefix "0x" s) eqn:Hp; [|done].
  intros [= <-]. by apply prefix_0x in Hp as (rest & ->).
Qed.

Lemma deployRealAutomation_Resolved sdk h taskId :
  Deployment.deployRealAutomation sdk = Resolved (h, taskId) ↔
  (∃ sequenceNumber, Deployment.getAccountInfo sdk = Resolved sequenceNumber) ∧
  Deployment.toUint8Array sdk = Resolved () ∧
  (∃ balance, Deployment.getAccountCoinBalance sdk = Resolved balance ∧
     Deployment.automationFeeCap sdk + 100000000 ≤ balance) ∧
  Deployment.createSerializedTx sdk = Resolved () ∧
  (∃ result, Deployment.sendTx sdk = Resolved result ∧
     Deployment.extractTransactionHash sdk result = Resolved h) ∧
  taskId = Deployment.parseInt16 (Deployment.slice_last 8 h).
Proof.
  unfold Deployment.deployRealAutomation, Deployment.validateAccountBalance.
  destruct (Deployment.getAccountInfo sdk) as [sequenceNumber|]; cbn;
    [|split; [done|by intros [[? ?] _]]].
  destruct (Deployment.toUint8Array sdk) as [[]|]; cbn;
    [|split; [done|by intros (_ & ? & _)]].
  destruct (Deployment.getAccountCoinBalance sdk) as [balance|]; cbn;
    [|split; [done|by intros (_ & _ & (? & ? & _) & _)]].
  destruct (Z.ltb_spec balance (Deployment.automationFeeCap sdk + 100000000)); cbn.
  { split; [done|]. intros (_ & _ & (? & [= <-] & ?) & _). lia. }
  destruct (Deployment.createSerializedTx sdk) as [[]|]; cbn;
    [|split; [done|by intros (_ & _ & _ & ? & _)]].
  destruct (Deployment.sendTx sdk) as [result|]; cbn;
    [|split; [done|by intros (_ & _ & _ & _ & (? & ? & _) & _)]].
  destruct (Deployment.extractTransactionHash sdk result) as [h'|] eqn:Hx; cbn.
  - pose proof (extractTransactionHash_nonempty _ _ _ Hx) as Hne.
    destruct h' as [|c h']; [done|]. split.
    + intros [= <- <-]. split_and!; eauto.
    + intros (_ & _ & _ & _ & (? & [= <-] & Hx') & ->).
      rewrite Hx in Hx'. by injection Hx' as <-.
  - split; [done|]. intros (_ & _ & _ & _ & (? & [= <-] & Hx') & _). congruence.
Qed.

Lemma deployRealAutomation_insufficient sdk sequenceNumber balance :
  Deployment.getAccountInfo sdk = Resolved sequenceNumber →
  Deployment.toUint8Array sdk = Resolved () →
  Deployment.getAccountCoinBalance sdk = Resolved balance →
  balance < Deployment.automationFeeCap sdk + 100000000 →
  Deployment.deployRealAutomation sdk =
    Rejected ("Insufficient balance. Required: " +:+
              Deployment.in_SUPRA sdk (Deployment.automationFeeCap sdk + 100000000) +:+
              " SUPRA, Available: " +:+ Deployment.in_SUPRA sdk balance +:+ " SUPRA").
Proof.
  intros Hinfo Hbytes Hbal Hlt.
  unfold Deployment.deployRealAutomation, Deployment.validateAccountBalance.
  rewrite Hinfo, Hbytes, Hbal. cbn.
  by destruct (Z.ltb_spec balance (Deployment.automationFeeCap sdk + 100000000)); [|lia].
Qed.

(** X12: a deployment goes through only on an account that holds the fee cap
    and a buffer of 100_000_000 on top of it; the fee cap is three times the
    estimate of the chain, or 50_000_000_000 when no estimate is to be had.
    An account that holds less makes the deployment reject with the
    insufficient-balance error, before anything is submitted. *)
Theorem deployRealAutomation_needs_fee_and_buffer (sdk : Deployment.Sdk) :
  (∀ r, Deployment.deployRealAutomation sdk = Resolved r →
     ∃ balance, Deployment.getAccountCoinBalance sdk = Resolved balance ∧
       Deployment.automationFeeCap sdk + 100000000 ≤ balance) ∧
  (∀ sequenceNumber balance,
     Deployment.getAccountInfo sdk = Resolved sequenceNumber →
     Deployment.toUint8Array sdk = Resolved () →
     Deployment.getAccountCoinBalance sdk = Resolved balance →
     balance < Deployment.automationFeeCap sdk + 100000000 →
     Deployment.deployRealAutomation sdk =
       Rejected ("Insufficient balance. Required: " +:+
                 Deployment.in_SUPRA sdk (Deployment.automationFeeCap sdk + 100000000) +:+
                 " SUPRA, Available: " +:+ Deployment.in_SUPRA sdk balance +:+ " SUPRA")) ∧
  (∀ feeEstimate, Deployment.invokeViewMethod sdk = Resolved (Some feeEstimate) →
     Deployment.automationFeeCap sdk = 3 * feeEstimate) ∧
  ((∀ feeEstimate, Deployment.invokeViewMethod sdk ≠ Resolved (Some feeEstimate)) →
     Deployment.automationFeeCap sdk = 50000000000).
Proof.
  split_and!.
  - intros [h taskId] Hr. by apply deployRealAutomation_Resolved in Hr as (_ & _ & ? & _).
  - apply deployRealAutomation_insufficient.
  - intros e He. unfold Deployment.automationFeeCap. rewrite He. lia.
  - intros Hno. unfold Deployment.automationFeeCap.
    destruct (Deployment.invokeViewMethod sdk) as [[e|]|]; [|done..].
    by destruct (Hno e).
Qed.

Lemma deployRealAutomation_needs_fee_and_buffer_witness :
  Deployment.deployRealAutomation Deployment.poor_sdk =
    Rejected "Insufficient balance. Required: 50100 SUPRA, Available: 500 SUPRA" ∧
  Deployment.automationFeeCap Deployment.sample_sdk = 3000000.
Proof.
  split.
  - exact (proj1 (proj2 (deployRealAutomation_needs_fee_and_buffer Deployment.poor_sdk))
             7 500000000 eq_refl eq_refl eq_refl eq_refl).
  - exact (proj1 (proj2 (proj2
             (deployRealAutomation_needs_fee_and_buffer Deployment.sample_sdk)))
             1000000 eq_refl).
Defined.

(** X13: the transaction hash of a deployment that went through is not empty,
    so the guard after [extractTransactionHash] never fires; it is the first
    non-empty one of [hash], [txHash] and [transaction_hash] of the object the
    SDK resolved to.  The task identifier is not read from the chain: it is
    [parseInt] of the last eight code units of the hash, so whenever these are
    hexadecimal digits it is a number below 2^32 that depends on nothing but
    these eight digits. *)
Theorem deployRealAutomation_taskId (sdk : Deployment.Sdk) (h : string)
    (taskId : option Z) :
  Deployment.deployRealAutomation sdk = Resolved (h, taskId) →
  h ≠ "" ∧
  (∀ f1 f2 f3, Deployment.sendTx sdk = Resolved (Deployment.TxObject f1 f2 f3) →
     match Deployment.truthy f1, Deployment.truthy f2, Deployment.truthy f3 with
     | Some x, _, _ | None, Some x, _ | None, None, Some x => h = x
     | None, None, None => False
     end) ∧
  taskId = Deployment.parseInt16 (Deployment.slice_last 8 h) ∧
  (∀ p d, h = p +:+ d → String.length d = 8%nat → all_hex d →
     taskId = Deployment.parseInt16 d ∧ ∃ n, taskId = Some n ∧ 0 ≤ n < 2 ^ 32).
Proof.
  intros (_ & _ & _ & _ & (result & Hsend & Hx) & ->)%deployRealAutomation_Resolved.
  split_and!.
  - by eapply extractTransactionHash_nonempty.
  - intros f1 f2 f3 Hobj. rewrite Hsend in Hobj. injection Hobj as ->.
    cbn in Hx. by repeat case_match; simplify_eq.
  - done.
  - intros p d -> Hlen Hd. rewrite <- Hlen, slice_last_append. split; [done|].
    destruct (parseInt16_hex d) as (n & Hn & Hb); [by destruct d|done|].
    exists n. split; [done|]. by rewrite Hlen in Hb.
Qed.

Lemma deployRealAutomation_taskId_witness :
  sample_address ≠ "" ∧
  Some 286331153 = Deployment.parseInt16 "11111111".
Proof.
  pose proof (deployRealAutomation_taskId Deployment.sample_sdk sample_address
                (Some 286331153) eq_refl) as (Hne & _ & _ & Hd).
  split; [exact Hne|].
  exact (proj1 (Hd ("0x" +:+ "11111111111111111111111111111111111111111111111111111111")
                   "11111111" eq_refl eq_refl
                   ltac:(repeat split; left; vm_compute; lia))).
Defined.



(** ** Serialisation of a task identifier *)

Lemma le_bytes_length n x : length (le_bytes n x) = n.
Proof. revert x. induction n as [|n IH]; intros x; cbn; [done|]. by rewrite IH. Qed.

Lemma le_bytes_range n x : Forall (λ b, 0 ≤ b < 256) (le_bytes n x).
Proof.
  revert x. induction n as [|n IH]; intros x; cbn; constructor; [|done].
  apply Z.mod_pos_bound. lia.
Qed.

Lemma le_value_bytes n x : le_value (le_bytes n x) = x `mod` 256 ^ Z.of_nat n.
Proof.
  revert x. induction n as [|n IH]; intros x.
  - cbn. by rewrite Z.mod_1_r.
  - cbn [le_bytes le_value foldr]. fold (le_value (le_bytes n (x `div` 256))).
    rewrite IH, Nat2Z.inj_succ, Z.pow_succ_r by lia.
    rewrite Z.rem_mul_r; [done|lia|]. apply Z.pow_pos_nonneg; lia.
Qed.

(** X15: [serializeU64] yields exactly eight bytes, least significant first,
    that read back as the value modulo 2^64; on the range of a u64 the
    encoding loses nothing, so two values of that range with the same
    encoding are equal. *)
Theorem serializeU64_round_trip (value : Z) :
  length (serializeU64 value) = 8%nat ∧
  Forall (λ b, 0 ≤ b < 256) (serializeU64 value) ∧
  le_value (serializeU64 value) = value `mod` 2 ^ 64 ∧
  (0 ≤ value < 2 ^ 64 → le_value (serializeU64 value) = value) ∧
  (∀ value', 0 ≤ value < 2 ^ 64 → 0 ≤ value' < 2 ^ 64 →
     serializeU64 value = serializeU64 value' → value = value').
Proof.
  assert (∀ v, le_value (serializeU64 v) = v `mod` 2 ^ 64) as Hrt.
  { intros v. unfold serializeU64. rewrite le_value_bytes.
    change (256 ^ Z.of_nat 8) with (2 ^ 64). apply Z.mod_mod. lia. }
  split_and!.
  - apply le_bytes_length.
  - apply le_bytes_range.
  - apply Hrt.
  - intros Hv. rewrite Hrt. by apply Z.mod_small.
  - intros v' Hv Hv' Heq. apply (f_equal le_value) in Heq.
    rewrite !Hrt, !Z.mod_small in Heq; done.
Qed.

Lemma serializeU64_round_trip_witness :
  serializeU64 286331153 = [17; 17; 17; 17; 0; 0; 0; 0] ∧
  le_value (serializeU64 286331153) = 286331153.
Proof.
  split; [reflexivity|].
  exact (proj1 (proj2 (proj2 (proj2 (serializeU64_round_trip 286331153))))
           ltac:(lia)).
Defined.

(** ** Analytics *)

Ltac filter_head P H :=
  first [ rewrite (filter_cons_True (λ s, P s = true)) by exact H
        | rewrite (filter_cons_False (λ s, P s = true)) by (rewrite H; discriminate) ].

Lemma tiers_partition (l : list AutomationStrategy) :
  (length (filter (λ s, Analytics.is_healthy s = true) l) +
   length (filter (λ s, Analytics.is_warning s = true) l) +
   length (filter (λ s, Analytics.is_critical s = true) l))%nat = length l.
Proof.
  induction l as [|s l IH]; [done|].
  assert (Qle_bool (successRate s) Analytics.double_0_8 = true →
          Qle_bool (successRate s) Analytics.double_0_95 = true) as Hmono.
  { rewrite !Qle_bool_iff. intros H. eapply Qle_trans; [exact H|]. by vm_compute. }
  destruct (Analytics.is_healthy s) eqn:Hh; destruct (Analytics.is_warning s) eqn:Hw;
    destruct (Analytics.is_critical s) eqn:Hc;
    filter_head Analytics.is_healthy Hh; filter_head Analytics.is_warning Hw;
    filter_head Analytics.is_critical Hc; cbn [length]; try lia;
    unfold Analytics.is_healthy, Analytics.is_warning, Analytics.is_critical in Hh, Hw, Hc;
    destruct (Qle_bool (successRate s) Analytics.double_0_95);
    destruct (Qle_bool (successRate s) Analytics.double_0_8);
    try discriminate; by specialize (Hmono eq_refl).
Qed.

Lemma sum_of_zeros (f : AutomationStrategy → Z) (l : list AutomationStrategy) :
  Forall (λ s, f s = 0) l → foldl (λ sum s, sum + f s) 0 l = 0.
Proof.
  induction l as [|s l IH] using rev_ind; [done|].
  intros [Hl Hs%Forall_inv]%Forall_app. rewrite foldl_app. cbn. rewrite IH by done. lia.
Qed.

Lemma sum_of_ones (l : list AutomationStrategy) :
  Forall (λ s, successRate s = 1%Q) l →
  (foldl (λ sum s, sum + successRate s) 0 l == inject_Z (Z.of_nat (length l)))%Q.
Proof.
  induction l as [|s l IH] using rev_ind; [done|].
  intros [Hl Hs%Forall_inv]%Forall_app. rewrite foldl_app, length_app. cbn [foldl length].
  rewrite IH, Hs by done. rewrite Nat2Z.inj_add, inject_Z_plus. reflexivity.
Qed.

Lemma values_in_heap a s : s ∈ strategy_values a → s ∈ heap a.
Proof.
  intros (r & _ & Hcell)%list_elem_of_omap. by eapply list_elem_of_lookup_2.
Qed.

(** X16: the analytics of an agent.  In every state the three performance
    tiers partition the active strategies.  In every state reachable from a
    fresh agent the report is static: it counts the stored and the active
    strategies (the latter as [listActiveStrategies] does), and whatever has
    happened it shows no executions, nothing transferred, an average success
    rate of 1, and every active strategy as healthy. *)
Theorem generateAnalytics_is_static (a : Agent) (timeframe : string) (now : Z) :
  let report := Analytics.generateAnalytics timeframe now a in
  let overview := Analytics.overview report in
  let performance := Analytics.performance report in
  (Analytics.healthyStrategies performance + Analytics.warningStrategies performance +
   Analytics.criticalStrategies performance)%nat = Analytics.activeStrategies overview ∧
  (reachable a →
   Analytics.totalStrategies overview = length (strategies a) ∧
   Analytics.activeStrategies overview = (listActiveStrategies a).2 ∧
   Analytics.totalExecutions overview = 0 ∧
   (Analytics.averageSuccessRate overview == 1)%Q ∧
   (Analytics.totalValueTransferred overview == 0)%Q ∧
   Analytics.healthyStrategies performance = Analytics.activeStrategies overview ∧
   Analytics.warningStrategies performance = 0%nat ∧
   Analytics.criticalStrategies performance = 0%nat).
Proof.
  cbn zeta. split; [apply tiers_partition|]. intros Hr.
  pose proof (reachable_as_created a Hr) as Hcreated.
  pose proof (reachable_keys_are_ids a Hr) as Hids.
  assert (Forall as_created (strategy_values a)) as Hvalues.
  { apply Forall_forall. intros s Hs%values_in_heap.
    by eapply Forall_forall in Hcreated. }
  assert (Forall as_created (filter (λ s, isActive s = true) (strategy_values a)))
    as Hactive.
  { apply Forall_forall. intros s [_ Hs]%list_elem_of_filter.
    by eapply Forall_forall in Hvalues. }
  assert (∀ l : list AutomationStrategy, Forall as_created l →
            filter (λ s, Analytics.is_healthy s = true) l = l ∧
            filter (λ s, Analytics.is_warning s = true) l = [] ∧
            filter (λ s, Analytics.is_critical s = true) l = []) as Htiers.
  { induction l as [|s l IH]; [done|]. intros [Hs Hl]%Forall_cons.
    destruct (IH Hl) as (IH1 & IH2 & IH3). destruct Hs as [_ _ _ _ Hrate _].
    rewrite !filter_cons, IH1, IH2, IH3.
    unfold Analytics.is_healthy, Analytics.is_warning, Analytics.is_critical.
    rewrite Hrate. by vm_compute. }
  destruct (Htiers _ Hactive) as (H1 & H2 & H3).
  cbn [Analytics.generateAnalytics Analytics.overview Analytics.performance
       Analytics.totalStrategies Analytics.activeStrategies Analytics.totalExecutions
       Analytics.averageSuccessRate Analytics.totalValueTransferred
       Analytics.healthyStrategies Analytics.warningStrategies
       Analytics.criticalStrategies].
  rewrite H1, H2, H3. split_and!; try done.
  - rewrite <- (length_fmap id), <- (length_fmap fst (strategies a)).
    unfold strategy_values, JsMap.values. by rewrite ids_of_values.
  - unfold listActiveStrategies. cbn [snd]. by rewrite length_fmap.
  - apply sum_of_zeros. eapply Forall_impl; [exact Hvalues|]. by intros s [].
  - unfold Analytics.calculateAverageSuccessRate. case_decide; [reflexivity|].
    rewrite sum_of_ones by (eapply Forall_impl; [exact Hactive|]; by intros s []).
    apply Qmult_inv_r. intros Hz. unfold Qeq, inject_Z in Hz. cbn in Hz. lia.
  - rewrite sum_of_zeros by (eapply Forall_impl; [exact Hvalues|]; by intros s []).
    reflexivity.
Qed.

Lemma generateAnalytics_is_static_witness :
  let overview := Analytics.overview (Analytics.generateAnalytics "24h" 0 sample_agent) in
  Analytics.totalStrategies overview = 4%nat ∧
  Analytics.activeStrategies overview = 3%nat ∧
  Analytics.totalExecutions overview = 0.
Proof.
  pose proof (proj2 (generateAnalytics_is_static sample_agent "24h" 0)
                sample_agent_reachable) as (H1 & H2 & H3 & _).
  exact (conj H1 (conj H2 H3)).
Defined.

(** ** The notifications of the command line *)

Lemma addNotification_drop message (notifications : list string) :
  CLI.addNotification message notifications =
    drop (length (notifications ++ [message]) - 5) (notifications ++ [message]).
Proof.
  unfold CLI.addNotification. cbn zeta. case_decide; [done|].
  by replace (length (notifications ++ [message]) - 5)%nat with 0%nat by lia.
Qed.

Lemma addNotification_foldl (earlier msgs : list string) :
  foldl (λ ns m, CLI.addNotification m ns) (drop (length earlier - 5) earlier) msgs =
    drop (length (earlier ++ msgs) - 5) (earlier ++ msgs).
Proof.
  revert earlier. induction msgs as [|m msgs IH]; intros earlier.
  - by rewrite app_nil_r.
  - cbn [foldl]. rewrite addNotification_drop.
    rewrite <- drop_app_le by lia. rewrite drop_drop, length_drop.
    replace (length earlier - 5 + (length (earlier ++ [m]) - (length earlier - 5) - 5))%nat
      with (length (earlier ++ [m]) - 5)%nat by (rewrite length_app; cbn; lia).
    rewrite IH. by rewrite <- app_assoc.
Qed.

(** X17: whatever is notified, in whatever number, the command line holds the
    last five messages, in the order of their arrival, and never more than
    five. *)
Theorem notifications_are_the_last_five (msgs : list string) :
  let notifications := foldl (λ ns m, CLI.addNotification m ns) [] msgs in
  notifications = drop (length msgs - 5) msgs ∧
  (length notifications ≤ 5)%nat ∧
  (length notifications ≤ length msgs)%nat.
Proof.
  cbn zeta. pose proof (addNotification_foldl [] msgs) as H. cbn in H. rewrite H.
  split; [done|]. rewrite length_drop. lia.
Qed.

(** X18: what the command line shows of a creation.  A create call whose
    address fails the format check adds no notification: the agent reports
    it as [strategyCreationFailed], an event without a listener.  A creation
    in simulation mode adds none either; only a deployment that went through
    is notified, under the name of the new strategy. *)
Theorem creation_notifications (params : CreateParams) (w : CreateWorld) (a : Agent)
    (notifications : list string) :
  let '(a', notifications') := CLI.observe (Create params w) a notifications in
  (isValidAddress (targetAddress params) = false →
     (∃ error, emitted a' =
        emitted a ++ [strategyCreationFailed error (strategyName params) (targetAddress params)]) ∧
     notifications' = notifications) ∧
  (isValidAddress (targetAddress params) = true →
     ∀ deployError, deployRealAutomation w = Rejected deployError →
     notifications' = notifications) ∧
  (isValidAddress (targetAddress params) = true →
     ∀ realResult, deployRealAutomation w = Resolved realResult →
     notifications' =
       CLI.addNotification
         ("✅ Strategy " +:+ dquote +:+ strategyName params +:+ dquote +:+
          " created successfully!") notifications).
Proof.
  unfold CLI.observe. cbn [step]. unfold createAutoTopupStrategy.
  destruct (isValidAddress (targetAddress params)) eqn:Hok; cbn [negb].
  - destruct (performPreDeploymentChecks _).
    destruct (deployRealAutomation w) as [realResult|deployError]; cbn.
    + split_and!; [done|done|]. intros _ ? [= <-].
      rewrite drop_app_length. cbn. unfold CLI.deliver. cbn.
      by rewrite list_lookup_middle.
    + split_and!; [done| |done]. intros _ ? _. by rewrite drop_all.
  - cbn. split_and!; [|done..]. intros _. rewrite drop_app_length. eauto.
Qed.

Lemma creation_notifications_witness :
  (CLI.observe (Create {| strategyName := "Trading Wallet"; targetAddress := "0x12" |}
                  sample_deployed) (initial 0) ["earlier"]).2 = ["earlier"] ∧
  (CLI.observe (Create sample_params sample_rejected) (initial 0) ["earlier"]).2 =
    ["earlier"] ∧
  (CLI.observe (Create sample_params sample_deployed) (initial 0) ["earlier"]).2 =
    ["earlier"; "✅ Strategy " +:+ dquote +:+ "Trading Wallet" +:+ dquote +:+
                " created successfully!"].
Proof.
  pose proof (creation_notifications
                {| strategyName := "Trading Wallet"; targetAddress := "0x12" |}
                sample_deployed (initial 0) ["earlier"]) as H1.
  pose proof (creation_notifications sample_params sample_rejected (initial 0)
                ["earlier"]) as H2.
  pose proof (creation_notifications sample_params sample_deployed (initial 0)
                ["earlier"]) as H3.
  split_and!.
  - exact (proj2 (proj1 H1 eq_refl)).
  - exact (proj1 (proj2 H2) eq_refl _ eq_refl).
  - exact (proj2 (proj2 H3) eq_refl _ eq_refl).
Defined.

(** ** The basic agent *)

(** X19: the class of index.ts creates a strategy for whatever target it is
    given: the call always succeeds and binds the generated id to an active
    record with that target, leaving the other ids alone; the mode is
    REAL_DEPLOYMENT exactly when the deployment resolved.  On a target that
    fails the address format of super-agent.ts the two classes disagree: the
    class of super-agent.ts refuses it. *)
Theorem basic_create_never_validates (params : CreateParams) (w : Basic.CreateWorld)
    (strategies : list (string * Basic.Strategy)) :
  let strategyId := "topup_" +:+ pretty (Basic.Date_now w) in
  let '(strategies', result) := Basic.createAutoTopupStrategy params w strategies in
  Basic.success result = true ∧
  Basic.res_strategyId result = Some strategyId ∧
  (∃ s, JsMap.get strategyId strategies' = Some s ∧
        Basic.res_strategy result = Some s ∧
        Basic.id s = strategyId ∧
        Basic.isActive s = true ∧
        Basic.target s = targetAddress params ∧
        Basic.name s = strategyName params) ∧
  (∀ key, key ≠ strategyId → JsMap.get key strategies' = JsMap.get key strategies) ∧
  (Basic.res_mode result = Some Basic.REAL_DEPLOYMENT ↔
     ∃ deployed, Basic.deployRealAutomation w = Resolved deployed) ∧
  (isValidAddress (targetAddress params) = false →
     ∀ w' a, success (createAutoTopupStrategy params w' a).2 = false).
Proof.
  cbn zeta. unfold Basic.createAutoTopupStrategy.
  destruct (Basic.deployRealAutomation w) as [[txHash taskId]|deployError]; cbn.
  - split_and!; try done.
    + eexists. split; [apply get_set_eq|]. by split_and!.
    + intros key Hne. by apply get_set_ne.
    + split; [eauto|done].
    + intros Hbad w' a. unfold createAutoTopupStrategy. by rewrite Hbad.
  - split_and!; try done.
    + eexists. split; [apply get_set_eq|]. by split_and!.
    + intros key Hne. by apply get_set_ne.
    + split; [done|]. by intros [? ?].
    + intros Hbad w' a. unfold createAutoTopupStrategy. by rewrite Hbad.
Qed.

Lemma basic_create_never_validates_witness :
  Basic.success
    (Basic.createAutoTopupStrategy
       {| strategyName := "Trading Wallet"; targetAddress := "not an address" |}
       {| Basic.Date_now := 1700000000000;
          Basic.deployRealAutomation := Rejected "Invalid hex string";
          Basic.new_Date := 1700000000002;
          Basic.random_int := 4242;
          Basic.random_hex := "8f3a1c" |} []).2 = true ∧
  success
    (createAutoTopupStrategy
       {| strategyName := "Trading Wallet"; targetAddress := "not an address" |}
       sample_deployed (initial 0)).2 = false.
Proof.
  pose proof (basic_create_never_validates
                {| strategyName := "Trading Wallet"; targetAddress := "not an address" |}
                {| Basic.Date_now := 1700000000000;
                   Basic.deployRealAutomation := Rejected "Invalid hex string";
                   Basic.new_Date := 1700000000002;
                   Basic.random_int := 4242;
                   Basic.random_hex := "8f3a1c" |} []) as H.
  split.
  - exact (proj1 H).
  - exact (proj2 (proj2 (proj2 (proj2 (proj2 H)))) eq_refl sample_deployed (initial 0)).
Defined.

Lemma cancelRealAutomation_Resolved w taskId h :
  Basic.cancelRealAutomation w taskId = Resolved h →
  ∃ t result,
    taskId = Some t ∧
    (∃ sequenceNumber, Basic.getAccountInfo w = Resolved sequenceNumber) ∧
    Basic.createSerializedRawTxObject w (serializeU64 t) = Resolved () ∧
    Basic.sendTx w (serializeU64 t) = Resolved result ∧
    result ≠ Deployment.TxNullish.
Proof.
  unfold Basic.cancelRealAutomation.
  destruct (Basic.getAccountInfo w) as [sequenceNumber|]; cbn -[serializeU64]; [|done].
  destruct taskId as [t|]; [|done].
  destruct (Basic.createSerializedRawTxObject w (serializeU64 t)) as [[]|] eqn:Hser;
    cbn -[serializeU64]; [|done].
  destruct (Basic.sendTx w (serializeU64 t)) as [result|] eqn:Hsend; cbn -[serializeU64]; [|done].
  intros Hres. exists t, result. split_and!; eauto.
  intros ->. done.
Qed.

Lemma cancelRealAutomation_Rejected w t sequenceNumber result :
  Basic.getAccountInfo w = Resolved sequenceNumber →
  Basic.createSerializedRawTxObject w (serializeU64 t) = Resolved () →
  Basic.sendTx w (serializeU64 t) = Resolved result →
  result ≠ Deployment.TxNullish →
  ∃ h, Basic.cancelRealAutomation w (Some t) = Resolved h.
Proof.
  intros Hinfo Hser Hsend Hne. unfold Basic.cancelRealAutomation.
  rewrite Hinfo. cbn -[serializeU64]. rewrite Hser. cbn -[serializeU64].
  rewrite Hsend. cbn.
  destruct result as [hash txHash ?|?|]; [|eauto|done].
  destruct (Deployment.truthy hash); [eauto|].
  destruct (Deployment.truthy txHash); eauto.
Qed.

(** X20: cancellation in the class of index.ts.  An unknown id changes
    nothing.  A stored id is marked inactive and reported as a success
    whatever the chain answers, also when the record was inactive already;
    no other id is touched and no id is added or removed.  The mode is
    REAL_CANCELLATION exactly when the task identifier of the record is a
    number, the account information resolved, and the chain accepted the
    [cancel_task] transaction built from the eight little-endian bytes of
    that identifier. *)
Theorem basic_cancel_always_marks_inactive (strategyId : string) (w : Basic.CancelWorld)
    (strategies : list (string * Basic.Strategy)) :
  let '(strategies', result) := Basic.cancelStrategy strategyId w strategies in
  (JsMap.get strategyId strategies = None →
     strategies' = strategies ∧ Basic.success result = false ∧
     Basic.message result = "Strategy not found") ∧
  (∀ s, JsMap.get strategyId strategies = Some s →
     Basic.success result = true ∧
     JsMap.get strategyId strategies' = Some (Basic.set_isActive false s) ∧
     (∀ key, key ≠ strategyId → JsMap.get key strategies' = JsMap.get key strategies) ∧
     JsMap.keys strategies' = JsMap.keys strategies ∧
     (Basic.res_mode result = Some Basic.REAL_CANCELLATION ∨
      Basic.res_mode result = Some Basic.SIMULATION) ∧
     (Basic.res_mode result = Some Basic.REAL_CANCELLATION ↔
        ∃ t result',
          Basic.taskId s = Some t ∧
          (∃ sequenceNumber, Basic.getAccountInfo w = Resolved sequenceNumber) ∧
          Basic.createSerializedRawTxObject w (serializeU64 t) = Resolved () ∧
          Basic.sendTx w (serializeU64 t) = Resolved result' ∧
          result' ≠ Deployment.TxNullish)).
Proof.
  unfold Basic.cancelStrategy.
  destruct (JsMap.get strategyId strategies) as [s|] eqn:Hget.
  - destruct (Basic.cancelRealAutomation w (Basic.taskId s)) as [h|m] eqn:Hreal; cbn.
    + split; [done|]. intros ? [= <-]. split_and!; try done.
      * apply get_set_eq.
      * intros key Hne. by apply get_set_ne.
      * by apply keys_set_present.
      * by left.
      * split; [|done]. intros _. by eapply cancelRealAutomation_Resolved.
    + split; [done|]. intros ? [= <-]. split_and!; try done.
      * apply get_set_eq.
      * intros key Hne. by apply get_set_ne.
      * by apply keys_set_present.
      * by right.
      * split; [done|]. intros (t & result' & Ht & [seq Hinfo] & Hser & Hsend & Hne).
        rewrite Ht in Hreal.
        destruct (cancelRealAutomation_Rejected w t seq result') as [h Hh]; try done.
        congruence.
  - cbn. split; [done|]. by intros s.
Qed.

Lemma basic_cancel_always_marks_inactive_witness :
  let '(strategies', result) :=
    Basic.cancelStrategy "topup_1700000000000" basic_sample_chain basic_sample_store in
  Basic.success result = true ∧
  Basic.res_mode result = Some Basic.REAL_CANCELLATION ∧
  JsMap.keys strategies' = ["topup_1700000000000"; "topup_1700000000001"].
Proof.
  pose proof (basic_cancel_always_marks_inactive "topup_1700000000000"
                basic_sample_chain basic_sample_store) as H.
  destruct (Basic.cancelStrategy "topup_1700000000000" basic_sample_chain
              basic_sample_store) as [strategies' result].
  destruct H as [_ H]. destruct (H _ eq_refl) as (Hok & _ & _ & Hkeys & _ & Hmode).
  split_and!; [exact Hok| |exact Hkeys].
  apply Hmode. exists 4242, (Deployment.TxObject (Some "0xc0ffee") None None).
  split_and!; try reflexivity; [by exists 7|discriminate].
Defined.

(** ** The status check of the basic agent *)

Section filter_counts.
Context {A : Type} (P Q R : A → Prop).
Context `{!∀ x, Decision (P x), !∀ x, Decision (Q x), !∀ x, Decision (R x)}.

Lemma filter_length_zero (l : list A) :
  length (filter P l) = 0%nat ↔ Forall (λ x, ¬ P x) l.
Proof.
  induction l as [|x l IH]; [by split|]. rewrite filter_cons, Forall_cons.
  case_decide; cbn [length]; [|tauto]. split; [lia|tauto].
Qed.

Lemma filter_length_all (l : list A) :
  Forall P l → length (filter P l) = length l.
Proof.
  induction l as [|x l IH]; [done|]. intros [Hx Hl]%Forall_cons.
  rewrite filter_cons_True by done. cbn. by rewrite IH.
Qed.

Lemma filter_length_partition (l : list A) :
  (∀ x, x ∈ l → (P x ∧ ¬ Q x ∧ ¬ R x) ∨ (¬ P x ∧ Q x ∧ ¬ R x) ∨ (¬ P x ∧ ¬ Q x ∧ R x)) →
  (length (filter P l) + length (filter Q l) + length (filter R l))%nat = length l.
Proof.
  induction l as [|x l IH]; [done|]. intros Hl.
  rewrite !filter_cons. specialize (IH (λ y Hy, Hl y (list_elem_of_further _ _ _ Hy))).
  destruct (Hl x (list_elem_of_here _ _)) as [(?&?&?)|[(?&?&?)|(?&?&?)]];
    repeat case_decide; try done; cbn [length]; lia.
Qed.

End filter_counts.

Lemma basic_check_all w (strategies : list (string * Basic.Strategy)) :
  Basic.check_all w strategies =
    omap (λ e, if Basic.isActive e.2 then Some (Basic.status_of w e.1 e.2) else None)
         strategies.
Proof.
  unfold Basic.check_all.
  assert (∀ acc,
            foldl (λ statusChecks '(key, strategy),
                     if Basic.isActive strategy
                     then statusChecks ++ [Basic.status_of w key strategy]
                     else statusChecks) acc strategies =
            acc ++ omap (λ e, if Basic.isActive e.2
                              then Some (Basic.status_of w e.1 e.2) else None)
                        strategies) as H; [|apply H].
  induction strategies as [|[key s] l IH]; intros acc; cbn [foldl omap list_omap].
  - by rewrite app_nil_r.
  - rewrite IH. cbn [fst snd]. destruct (Basic.isActive s); [|done].
    by rewrite <- app_assoc.
Qed.

Lemma basic_checks_elem w strategies c :
  c ∈ Basic.check_all w strategies ↔
  ∃ key s, (key, s) ∈ strategies ∧ Basic.isActive s = true ∧ c = Basic.status_of w key s.
Proof.
  rewrite basic_check_all, list_elem_of_omap. split.
  - intros ([key s] & Hin & Hc). cbn in Hc. destruct (Basic.isActive s) eqn:Hs; [|done].
    injection Hc as <-. by exists key, s.
  - intros (key & s & Hin & Hs & ->). exists (key, s). split; [done|]. cbn.
    by rewrite Hs.
Qed.

Lemma basic_urgency w key s :
  let c := Basic.status_of w key s in
  let balance := Basic.balance_of w key s in
  (BasicAgent.urgency (Basic.analysis c) = "high" ↔ balance < 600000000) ∧
  (BasicAgent.urgency (Basic.analysis c) = "medium" ↔ 600000000 ≤ balance < 1200000000) ∧
  (BasicAgent.urgency (Basic.analysis c) = "low" ↔ 1200000000 ≤ balance).
Proof.
  cbn zeta. unfold Basic.status_of, Basic.analyzeStrategy. cbn [Basic.analysis].
  destruct (Z.ltb_spec (Basic.balance_of w key s) 600000000);
    [|destruct (Z.ltb_spec (Basic.balance_of w key s) (600000000 * 2))];
    cbn [BasicAgent.urgency]; split_and!; split; try done; lia.
Qed.

(** X21: the status check of the class of index.ts without an id always
    answers.  It reports exactly the active strategies, the three alert
    counts partition the reports ([low] is the number of reports of low
    urgency), and the overall health is [healthy] exactly when every active
    strategy holds at least 1_200_000_000, [needs_attention] exactly when one
    of them holds less than 600_000_000.  A balance query that fails is
    replaced by a synthetic balance below 100_000_000, so one failing query is
    enough for [needs_attention]. *)
Theorem basic_status_summary (w : Basic.StatusWorld)
    (strategies : list (string * Basic.Strategy)) :
  ∃ checks summary,
    Basic.checkStrategyStatus None w strategies = Basic.StatusAll checks summary ∧
    (∀ c, c ∈ checks ↔
       ∃ key s, (key, s) ∈ strategies ∧ Basic.isActive s = true ∧
                c = Basic.status_of w key s) ∧
    Basic.totalStrategies summary = length checks ∧
    Basic.activeStrategies summary = length checks ∧
    Basic.low summary =
      Z.of_nat (length (filter (λ c, BasicAgent.urgency (Basic.analysis c) = "low") checks)) ∧
    (Basic.overallHealth summary = "healthy" ↔
       ∀ key s, (key, s) ∈ strategies → Basic.isActive s = true →
                1200000000 ≤ Basic.balance_of w key s) ∧
    (Basic.overallHealth summary = "needs_attention" ↔
       ∃ key s, (key, s) ∈ strategies ∧ Basic.isActive s = true ∧
                Basic.balance_of w key s < 600000000) ∧
    (∀ key s m, (key, s) ∈ strategies → Basic.isActive s = true →
       Basic.getAccountCoinBalance w key (Basic.target s) = Rejected m →
       Basic.overallHealth summary = "needs_attention").
Proof.
  exists (Basic.check_all w strategies),
         (Basic.generateStrategySummary (Basic.check_all w strategies)).
  set (checks := Basic.check_all w strategies).
  pose proof (basic_checks_elem w strategies) as Helem. fold checks in Helem.
  pose proof (filter_length_partition
                (λ c, BasicAgent.urgency (Basic.analysis c) = "high")
                (λ c, BasicAgent.urgency (Basic.analysis c) = "medium")
                (λ c, BasicAgent.urgency (Basic.analysis c) = "low") checks) as Hpart.
  pose proof (filter_length_zero
                (λ c, BasicAgent.urgency (Basic.analysis c) = "high") checks) as Hhigh.
  pose proof (filter_length_zero
                (λ c, BasicAgent.urgency (Basic.analysis c) = "medium") checks) as Hmedium.
  rewrite Forall_forall in Hhigh, Hmedium.
  assert (Basic.overallHealth (Basic.generateStrategySummary checks) = "needs_attention" ↔
          ∃ key s, (key, s) ∈ strategies ∧ Basic.isActive s = true ∧
                   Basic.balance_of w key s < 600000000) as Hattention.
  { unfold Basic.generateStrategySummary. cbn [Basic.overallHealth].
    destruct (Nat.ltb_spec 0
                (length (filter (λ c, BasicAgent.urgency (Basic.analysis c) = "high")
                           checks))) as [Hpos|Hzero].
    - split; [intros _|done].
      destruct (filter (λ c, BasicAgent.urgency (Basic.analysis c) = "high") checks)
        as [|c ?] eqn:Hf; [cbn in Hpos; lia|].
      assert (c ∈ filter (λ c, BasicAgent.urgency (Basic.analysis c) = "high") checks)
        as [Hc Hin]%list_elem_of_filter by (rewrite Hf; apply list_elem_of_here).
      apply Helem in Hin as (key & s & Hin & Hs & ->).
      exists key, s. split_and!; [done..|]. by apply basic_urgency.
    - assert (∀ c, c ∈ checks → BasicAgent.urgency (Basic.analysis c) ≠ "high") as Hno
        by (apply Hhigh; lia).
      split; [by repeat case_match|].
      intros (key & s & Hin & Hs & Hlow). exfalso.
      apply (Hno (Basic.status_of w key s)); [apply Helem; eauto|].
      by apply basic_urgency. }
  split_and!.
  - done.
  - exact Helem.
  - done.
  - unfold Basic.generateStrategySummary. cbn [Basic.activeStrategies].
    apply filter_length_all, Forall_forall. by intros c (key & s & _ & Hs & ->)%Helem.
  - unfold Basic.generateStrategySummary. cbn [Basic.low].
    rewrite <- Hpart at 1; [lia|].
    intros c (key & s & _ & _ & ->)%Helem.
    destruct (basic_urgency w key s) as (H1 & H2 & H3). rewrite H1, H2, H3. lia.
  - unfold Basic.generateStrategySummary. cbn [Basic.overallHealth].
    destruct (Nat.ltb_spec 0
                (length (filter (λ c, BasicAgent.urgency (Basic.analysis c) = "high")
                           checks))) as [Hpos|Hzero];
      [|destruct (Nat.ltb_spec 0
                (length (filter (λ c, BasicAgent.urgency (Basic.analysis c) = "medium")
                           checks))) as [Hpos|Hzero']].
    + split; [done|]. intros Hall. exfalso.
      assert (∀ c, c ∈ checks → BasicAgent.urgency (Basic.analysis c) ≠ "high") as Hno.
      { intros c (key & s & Hin & Hs & ->)%Helem Hc. apply basic_urgency in Hc.
        specialize (Hall key s Hin Hs). lia. }
      apply Hhigh in Hno. lia.
    + split; [done|]. intros Hall. exfalso.
      assert (∀ c, c ∈ checks → BasicAgent.urgency (Basic.analysis c) ≠ "medium") as Hno.
      { intros c (key & s & Hin & Hs & ->)%Helem Hc. apply basic_urgency in Hc.
        specialize (Hall key s Hin Hs). lia. }
      apply Hmedium in Hno. lia.
    + split; [intros _|done]. intros key s Hin Hs.
      assert (Basic.status_of w key s ∈ checks) as Hc by (apply Helem; eauto).
      pose proof (proj1 Hhigh ltac:(lia) _ Hc) as Hnh.
      pose proof (proj1 Hmedium ltac:(lia) _ Hc) as Hnm.
      destruct (basic_urgency w key s) as (H1 & H2 & _). rewrite H1 in Hnh.
      rewrite H2 in Hnm. lia.
  - exact Hattention.
  - intros key s m Hin Hs Hfail. apply Hattention. exists key, s. split_and!; [done..|].
    unfold Basic.balance_of. rewrite Hfail. cbn [getAccountBalance].
    pose proof (Z.mod_pos_bound (Basic.Math_random w key) 100000000). lia.
Qed.

Lemma basic_status_summary_witness :
  ∃ checks summary,
    Basic.checkStrategyStatus None basic_sample_balances basic_sample_store =
      Basic.StatusAll checks summary ∧
    Basic.overallHealth summary = "needs_attention".
Proof.
  destruct (basic_status_summary basic_sample_balances basic_sample_store)
    as (checks & summary & Hres & _ & _ & _ & _ & _ & _ & Hfail).
  exists checks, summary. split; [exact Hres|].
  eapply (Hfail "topup_1700000000001" _ "fetch failed");
    [apply list_elem_of_further, list_elem_of_here | reflexivity | reflexivity].
Defined.

(** ** The configuration check of the command line *)

Lemma checkConfiguration_Passed env :
  Config.checkConfiguration env = Config.Passed ↔
  (∀ k, k ∈ Config.requiredEnvVars → ∃ v, env k = Some v ∧ v ≠ "") ∧
  (∀ k p, (k, p) ∈ Config.placeholders →
     env k ≠ Some p ∧ env k ≠ Some (p +:+ "_here")).
Proof.
  unfold Config.checkConfiguration. cbn zeta.
  pose proof (filter_length_zero (λ k, Config.unset (env k) = true)
                Config.requiredEnvVars) as Hmissing.
  pose proof (filter_length_zero
                (λ p : string * string, env p.1 = Some p.2 ∨ env p.1 = Some (p.2 +:+ "_here"))
                Config.placeholders) as Hplace.
  rewrite Forall_forall in Hmissing. rewrite Forall_forall in Hplace.
  assert (∀ k, Config.unset (env k) ≠ true ↔ ∃ v, env k = Some v ∧ v ≠ "") as Hunset.
  { intros k. destruct (env k) as [[|c v]|]; cbn; split; try done.
    - by intros (v & [= <-] & ?).
    - intros _. by eexists.
    - by intros (v & ? & _). }
  case_decide as Hm.
  { split; [done|]. intros [Hall _]. exfalso.
    assert (length (filter (λ k, Config.unset (env k) = true) Config.requiredEnvVars)
            = 0%nat); [|lia].
    apply Hmissing. intros k Hk. by apply Hunset, Hall. }
  case_decide as Hp.
  { split; [done|]. intros [_ Hall]. exfalso.
    assert (length (filter (λ p : string * string,
                              env p.1 = Some p.2 ∨ env p.1 = Some (p.2 +:+ "_here"))
                      Config.placeholders) = 0%nat); [|lia].
    apply Hplace. intros [k p] Hin [?|?]; by destruct (Hall k p Hin). }
  split; [intros _|done]. split.
  - intros k Hk. apply Hunset. apply Hmissing; [lia|done].
  - intros k p Hin. pose proof (proj1 Hplace ltac:(lia) (k, p) Hin) as Hno.
    cbn in Hno. split; intros ?; apply Hno; eauto.
Qed.

(** X22: the configuration check of the command line and the key check of
    [createSuperAgent].  The configuration passes exactly when the three
    required variables are set and not empty and none holds its placeholder,
    with or without [_here].  After it passed, [createSuperAgent] cannot
    fail for a missing key, but it still decides on the format: a key that
    is not 64 hexadecimal digits passes the configuration check and is
    refused there.  Conversely a key that [createSuperAgent] accepts is
    never reported missing or as a placeholder. *)
Theorem checkConfiguration_guards_the_key (env : string → option string) :
  (Config.checkConfiguration env = Config.Passed ↔
     (∀ k, k ∈ Config.requiredEnvVars → ∃ v, env k = Some v ∧ v ≠ "") ∧
     (∀ k p, (k, p) ∈ Config.placeholders →
        env k ≠ Some p ∧ env k ≠ Some (p +:+ "_here"))) ∧
  (Config.checkConfiguration env = Config.Passed →
     ∃ key, env "SUPRA_PRIVATE_KEY" = Some key ∧
       createSuperAgent_privateKey (Some key) ≠
         Rejected ("Initialization failed: " +:+
                   "SUPRA_PRIVATE_KEY environment variable is required") ∧
       (∀ cleanHex, createSuperAgent_privateKey (Some key) = Resolved cleanHex ↔
          (key = cleanHex ∨ key = "0x" +:+ cleanHex) ∧
          String.length cleanHex = 64%nat ∧ all_hex cleanHex)) ∧
  (∀ cleanHex,
     createSuperAgent_privateKey (env "SUPRA_PRIVATE_KEY") = Resolved cleanHex →
     match Config.checkConfiguration env with
     | Config.Passed => True
     | Config.Missing missing => "SUPRA_PRIVATE_KEY" ∉ missing
     | Config.Placeholders hasPlaceholders =>
         "SUPRA_PRIVATE_KEY" ∉ hasPlaceholders.*1
     end).
Proof.
  split_and!.
  - apply checkConfiguration_Passed.
  - intros [Hset _]%checkConfiguration_Passed.
    destruct (Hset "SUPRA_PRIVATE_KEY") as (key & Hkey & Hne);
      [apply list_elem_of_further, list_elem_of_here|].
    exists key. split_and!; [done| |intros; apply createSuperAgent_privateKey_Resolved].
    destruct key as [|c key]; [done|]. unfold createSuperAgent_privateKey.
    destruct (negb _); [|done]. intros [= Heq].
  - intros cleanHex Hres.
    destruct (env "SUPRA_PRIVATE_KEY") as [key|] eqn:Hkey; [|done].
    apply createSuperAgent_privateKey_Resolved in Hres as (Hshape & Hlen & _).
    assert (String.length key = 64%nat ∨ String.length key = 66%nat) as Hlong.
    { destruct Hshape as [->| ->]; [by left|right].
      rewrite length_append, Hlen. done. }
    unfold Config.checkConfiguration. cbn zeta. repeat case_decide; [| |done].
    + intros [Hunset _]%list_elem_of_filter. rewrite Hkey in Hunset.
      destruct key; [cbn in Hlong; lia|done].
    + intros ([k p] & Hk & [Hp Hin]%list_elem_of_filter)%list_elem_of_fmap.
      cbn in Hk. subst k. cbn in Hp. rewrite Hkey in Hp.
      assert (p = "your_supra_private_key") as ->.
      { unfold Config.placeholders in Hin.
        rewrite !elem_of_cons, elem_of_nil in Hin.
        destruct Hin as [?|[?|[?|[]]]]; by simplify_eq. }
      destruct Hp as [[= ->]|[= ->]]; vm_compute in Hlong; lia.
Qed.

Lemma checkConfiguration_guards_the_key_witness :
  Config.checkConfiguration Config.short_key_env = Config.Passed ∧
  createSuperAgent_privateKey (Config.short_key_env "SUPRA_PRIVATE_KEY") =
    Rejected "Initialization failed: Invalid private key format. Must be 64 hex characters." ∧
  ∃ key, Config.short_key_env "SUPRA_PRIVATE_KEY" = Some key ∧
    createSuperAgent_privateKey (Some key) ≠
      Rejected "Initialization failed: SUPRA_PRIVATE_KEY environment variable is required".
Proof.
  split_and!; [reflexivity..|].
  destruct (proj1 (proj2 (checkConfiguration_guards_the_key Config.short_key_env)) eq_refl)
    as (key & Hkey & Hne & _).
  exists key. split; [exact Hkey|exact Hne].
Defined.

(** ** Decoration of a reply *)

Lemma reachable_values_as_created a :
  reachable a → Forall as_created (strategy_values a).
Proof.
  intros Hr. pose proof (reachable_as_created a Hr) as Hcreated.
  apply Forall_forall. intros s Hs%values_in_heap. by eapply Forall_forall in Hcreated.
Qed.

Lemma reachable_average a :
  reachable a → (Analytics.calculateAverageSuccessRate a == 1)%Q.
Proof.
  intros Hr. unfold Analytics.calculateAverageSuccessRate. case_decide; [reflexivity|].
  rewrite sum_of_ones.
  - apply Qmult_inv_r. intros Hz. unfold Qeq, inject_Z in Hz. cbn in Hz. lia.
  - apply Forall_forall. intros s [_ Hs]%list_elem_of_filter.
    pose proof (reachable_values_as_created a Hr) as Hall.
    eapply Forall_forall in Hall; [|done]. by destruct Hall.
Qed.

(** X23: in every state reachable from a fresh agent [enhanceResponse] never
    appends the performance alert, and the quick status it may append (only
    with an active strategy, and only when the random draw says so) always
    reports 0 total executions. *)
Theorem enhanceResponse_never_alerts (lucky : bool) (toFixed1 : Q → string)
    (response : string) (a : Agent) :
  reachable a →
  let activeStrategies := (listActiveStrategies a).2 in
  enhanceResponse lucky toFixed1 response a =
    if bool_decide (0 < activeStrategies)%nat && lucky
    then response +:+ nl +:+ nl +:+ "💡 **Quick Status**: " +:+ pretty activeStrategies +:+
         " active strategies, 0 total executions"
    else response.
Proof.
  intros Hr. cbn zeta. unfold enhanceResponse, listActiveStrategies. cbn [snd].
  rewrite length_fmap.
  assert (Qle_bool double_0_9 (Analytics.calculateAverageSuccessRate a) = true) as ->.
  { apply Qle_bool_iff. rewrite (reachable_average a Hr). by vm_compute. }
  cbn [negb andb].
  rewrite sum_of_zeros; [done|].
  eapply Forall_impl; [exact (reachable_values_as_created a Hr)|]. by intros s [].
Qed.

Lemma enhanceResponse_never_alerts_witness :
  enhanceResponse true (λ _, "100.0") "Done." sample_agent =
    "Done." +:+ nl +:+ nl +:+ "💡 **Quick Status**: 3 active strategies, 0 total executions".
Proof.
  exact (enhanceResponse_never_alerts true (λ _, "100.0") "Done." sample_agent
           sample_agent_reachable).
Defined.

(** ** Listing after a creation *)

Lemma createAutoTopupStrategy_shape params w a :
  isValidAddress (targetAddress params) = true →
  ∃ strategy,
    heap (createAutoTopupStrategy params w a).1 = heap a ++ [strategy] ∧
    strategies (createAutoTopupStrategy params w a).1 =
      JsMap.set (make_strategyId (Date_now w)) (length (heap a)) (strategies a) ∧
    isActive strategy = true.
Proof.
  intros Hok. destruct (deployRealAutomation w) as [realResult|deployError] eqn:Hd.
  - pose proof (createAutoTopupStrategy_deployed params w a realResult Hok Hd) as H.
    cbv zeta in H. destruct (createAutoTopupStrategy params w a) as [a' result].
    destruct H as (Hh & Hm & _). eexists. by split_and!.
  - pose proof (createAutoTopupStrategy_simulated params w a deployError Hok Hd) as H.
    cbv zeta in H. destruct (createAutoTopupStrategy params w a) as [a' result].
    destruct H as (Hh & Hm & _). eexists. by split_and!.
Qed.

(** X24: in a reachable state, a create call on a valid address adds exactly
    the generated id to the listing of the active strategies, in both modes:
    the id is listed after the call (also when it had been cancelled before
    under the same clock reading), and every other id is listed after the
    call if and only if it was listed before.  A create call on an invalid
    address leaves the listing as it was. *)
Theorem createAutoTopupStrategy_lists (a : Agent) (params : CreateParams)
    (w : CreateWorld) :
  reachable a →
  let a' := (createAutoTopupStrategy params w a).1 in
  let strategyId := make_strategyId (Date_now w) in
  (isValidAddress (targetAddress params) = true →
     strategyId ∈ (listed_id <$> (listActiveStrategies a').1) ∧
     (∀ key, key ≠ strategyId →
        key ∈ (listed_id <$> (listActiveStrategies a').1) ↔
        key ∈ (listed_id <$> (listActiveStrategies a).1))) ∧
  (isValidAddress (targetAddress params) = false →
     listActiveStrategies a' = listActiveStrategies a).
Proof.
  intros Hreach. cbv zeta. split.
  - intros Hok.
    pose proof (create_reachable a params w Hreach) as Hreach'.
    pose proof (reachable_wf a Hreach) as Hwf.
    pose proof (listed_iff a Hwf (reachable_keys_are_ids a Hreach)) as Hiff.
    pose proof (listed_iff _ (reachable_wf _ Hreach') (reachable_keys_are_ids _ Hreach'))
      as Hiff'.
    destruct (createAutoTopupStrategy_shape params w a Hok) as (strategy & Hh & Hm & Hs).
    split.
    + apply Hiff'. exists (length (heap a)), strategy. split; [|done].
      unfold strategies_get. rewrite Hm, get_set_eq. cbn.
      by rewrite Hh, list_lookup_middle.
    + intros key Hne. rewrite Hiff', Hiff. unfold strategies_get.
      rewrite Hm, get_set_ne by done.
      destruct (JsMap.get key (strategies a)) as [r|] eqn:Hkey; cbn; [|done].
      assert (r < length (heap a))%nat as Hr.
      { destruct Hwf as [_ _ Hbound]. apply Hbound. unfold JsMap.values.
        apply list_elem_of_fmap. exists (key, r). split; [done|].
        by apply get_Some_elem. }
      by rewrite Hh, lookup_app_l.
  - intros Hbad. unfold createAutoTopupStrategy. by rewrite Hbad.
Qed.

Lemma createAutoTopupStrategy_lists_witness :
  ("topup_1700000000003" ∉ (listed_id <$> (listActiveStrategies sample_agent).1)) ∧
  "topup_1700000000003" ∈
    (listed_id <$>
       (listActiveStrategies
          (createAutoTopupStrategy sample_params (sample_world 1700000000003)
             sample_agent).1).1).
Proof.
  split; [apply (bool_decide_unpack _); by vm_compute|].
  exact (proj1 (proj1 (createAutoTopupStrategy_lists sample_agent sample_params
                         (sample_world 1700000000003) sample_agent_reachable)
                  eq_refl)).
Defined.
